(** * SmartCache: offline queue, cache refresh and page notifications

    A shallow embedding of the two programs of the repository:

    - the service worker ([sw.js], listed in the README): the IndexedDB
      helpers, the [fetch] handler, [syncStoredPosts] and
      [syncOfflineRequests];
    - the page script ([dist/smart-cache.js]): the same IndexedDB helpers,
      the toast queue ([notifyUser], [showNextMessage]), the page side
      [syncOfflineRequests], the message and [online] handlers and the
      public [window.smartCache.saveOfflineRequest].

    Asynchronous functions are written once, as programs over the
    platform calls they await ([Prog]); the programs are then run either
    alone ([run]) or interleaved by an event loop ([deliver]).

    What the platform does is modelled as follows.
    - Numbers (time stamps, retry counts, status codes) are integers.
    - The network is a function of the calls made so far and the call
      at hand ([Network]); it may reject or answer with any status.
    - An IndexedDB transaction is atomic.  The database is open or not
      ([up]); when it is not, every helper rejects.
    - The cache storage is a finite map from (method, URL) to the stored
      request and response; [put] rejects a request of another method
      than GET and a response of status 206 and overwrites otherwise;
      [match] and [keys] do not fail.
    - The DOM calls of [showNextMessage] do not fail.
    - A stored body is a string or absent. *)

From stdpp Require Import gmap strings list sorting pretty.
From Stdlib Require Import ZArith Lia Ascii String.

Open Scope Z_scope.

(** ** Configuration and constants *)

Definition MAX_RETRIES : Z := 5.
Definition MAX_AGE : Z := 1000 * 60 * 60 * 24 * 7.

(** ** Settled promises *)

Record JsError := { err_message : string }.

Inductive Res (A : Type) : Type :=
| Ok (a : A)
| Err (e : JsError).
Arguments Ok {A} a.
Arguments Err {A} e.

(** ** Headers and plain objects used as string maps *)

Definition lower_ascii (c : ascii) : ascii :=
  let n := nat_of_ascii c in
  if (Nat.leb 65 n && Nat.leb n 90)%bool then ascii_of_nat (n + 32) else c.

Fixpoint lower (s : string) : string :=
  match s with
  | EmptyString => EmptyString
  | String c s' => String (lower_ascii c) (lower s')
  end.

(** A [Headers] object: the header list, names in lower case. *)
Definition Headers := list (string * string).

(** [obj[k] = v] on a plain object: an existing key keeps its place. *)
Fixpoint obj_set (k v : string) (o : list (string * string)) : list (string * string) :=
  match o with
  | [] => [(k, v)]
  | (k', v') :: o' =>
      if String.eqb k' k then (k, v) :: o' else (k', v') :: obj_set k v o'
  end.

Fixpoint obj_get (k : string) (o : list (string * string)) : option string :=
  match o with
  | [] => None
  | (k', v') :: o' => if String.eqb k' k then Some v' else obj_get k o'
  end.

(** [headers.get(name)]: the lookup ignores the case of [name]. *)
Definition headers_get (name : string) (h : Headers) : option string :=
  obj_get (lower name) h.

(** [headers.set(name, value)] *)
Definition headers_set (name value : string) (h : Headers) : Headers :=
  obj_set (lower name) value h.

(** [new Headers(obj)] *)
Definition new_Headers (o : list (string * string)) : Headers :=
  fold_left (fun h kv => obj_set (lower (fst kv)) (snd kv) h) o [].

(** [serializeHeaders] *)
Definition serializeHeaders (h : Headers) : list (string * string) :=
  fold_left (fun serialized kv => obj_set (fst kv) (snd kv) serialized) h [].

(** ** Requests, responses and fetch calls *)

(** An intercepted [Request].  [req_text] is what
    [request.clone().text()] settles to. *)
Record Request := {
  req_url : string;
  req_method : string;
  req_headers : Headers;
  req_text : Res string;
}.

Record Response := {
  status : Z;
  statusText : string;
  resp_headers : list (string * string);
  resp_body : string;
}.

(** [response.ok] *)
Definition ok (r : Response) : bool := (200 <=? status r) && (status r <=? 299).

(** The object saved by the fetch handler.  A property that a stored
    object lacks ([undefined]) is [None]. *)
Record RequestData := {
  url : string;
  method : string;
  headers : list (string * string);
  body : option string;
  contentType : string;
  timestamp : option Z;
  retryCount : option Z;
}.

(** A record of the object store: the data under its generated key. *)
Record Stored := { id : Z; data : RequestData }.

(** The second argument of [fetch(url, options)]. *)
Record FetchInit := {
  init_method : string;
  init_headers : Headers;
  init_body : option string;
}.

Inductive Call :=
| FetchRequest (r : Request)
| FetchUrl (u : string) (init : FetchInit).

(** ** The IndexedDB object store

    [rows] is the store in ascending key order, the order of
    [store.getAll()]; [nextKey] is the key generator of the store
    ([autoIncrement]); [up] tells whether the script at hand can open
    the database and run its transactions: when it cannot, [openDB] or
    the [onerror] handler of the request rejects the promise.  Each
    helper below is what the function of that name does in its one
    transaction. *)
Record IDB := { up : bool; rows : list Stored; nextKey : Z }.

Definition StorageError : JsError := {| err_message := "IndexedDB request failed" |}.
Definition ConstraintError : JsError := {| err_message := "Key already exists in the object store" |}.

(** [store.get(key)] *)
Definition store_get (key : Z) (rs : list Stored) : option Stored :=
  List.find (fun r => id r =? key) rs.

(** [store.put(record)]: replaces the record under the same key or
    inserts at the key's place. *)
Fixpoint store_put (r : Stored) (rs : list Stored) : list Stored :=
  match rs with
  | [] => [r]
  | x :: rs' =>
      if id r <? id x then r :: x :: rs'
      else if id r =? id x then r :: rs'
      else x :: store_put r rs'
  end.

(** [store.delete(key)] *)
Definition store_delete (key : Z) (rs : list Stored) : list Stored :=
  List.filter (fun r => negb (id r =? key)) rs.

Definition set_rows (db : IDB) (rs : list Stored) : IDB :=
  {| up := up db; rows := rs; nextKey := nextKey db |}.

(** [openDB]: the promise of an open database. *)
Definition openDB (db : IDB) : Res unit :=
  if up db then Ok tt else Err StorageError.

(** [saveRequest]: [store.add] under a generated key; [add] fails on a
    key that is taken. *)
Definition saveRequest (requestData : RequestData) (db : IDB) : Res unit * IDB :=
  match openDB db with
  | Ok _ =>
      match store_get (nextKey db) (rows db) with
      | Some _ => (Err ConstraintError, db)
      | None =>
          (Ok tt, {| up := up db;
                     rows := store_put {| id := nextKey db; data := requestData |} (rows db);
                     nextKey := nextKey db + 1 |})
      end
  | Err e => (Err e, db)
  end.

(** [getAllRequests] *)
Definition getAllRequests (db : IDB) : Res (list Stored) * IDB :=
  match openDB db with
  | Ok _ => (Ok (rows db), db)
  | Err e => (Err e, db)
  end.

(** [deleteRequest] *)
Definition deleteRequest (key : Z) (db : IDB) : Res unit * IDB :=
  match openDB db with
  | Ok _ => (Ok tt, set_rows db (store_delete key (rows db)))
  | Err e => (Err e, db)
  end.

Definition set_retryCount (d : RequestData) (n : Z) : RequestData :=
  {| url := url d; method := method d; headers := headers d; body := body d;
     contentType := contentType d; timestamp := timestamp d;
     retryCount := Some n |}.

(** [updateRequestRetryCount]: one read-write transaction that reads
    the record, sets its [retryCount] and puts it back; without a
    record it resolves at once. *)
Definition updateRequestRetryCount (key retry : Z) (db : IDB) : Res unit * IDB :=
  match openDB db with
  | Ok _ =>
      match store_get key (rows db) with
      | Some r =>
          (Ok tt,
           set_rows db (store_put {| id := id r; data := set_retryCount (data r) retry |}
                                  (rows db)))
      | None => (Ok tt, db)
      end
  | Err e => (Err e, db)
  end.

(** ** The page: toast queue and timers ([dist/smart-cache.js])

    [container] is the child list of the element [#smart-cache-notify]
    ([None] before the element exists), [timers] the pending
    [setTimeout] callbacks, [displayed] the log of
    [container.appendChild(box)] with the time of each call. *)

Record Toast := { message : string; type : string }.

Record Box := {
  box_id : nat;
  textContent : string;
  background : string;
  opacity : string;
}.

Inductive Callback :=
| FadeOut (b : nat)      (* the callback of the 3000 ms timeout *)
| RemoveBox (b : nat).   (* the callback of the nested 500 ms timeout *)

Record Timer := { due : Z; callback : Callback }.

Record Page := {
  SHOW_NOTIFICATIONS : bool;
  messageQueue : list Toast;
  isShowingMessage : bool;
  container : option (list Box);
  nextBox : nat;
  timers : list Timer;
  displayed : list (Z * Toast);
}.

Definition box_background (ty : string) : string :=
  if String.eqb ty "error" then "#f44336"
  else if String.eqb ty "success" then "#4caf50"
  else "#2196f3".

(** [showNextMessage], called at time [now]. *)
Definition showNextMessage (now : Z) (p : Page) : Page :=
  match messageQueue p with
  | [] =>
      {| SHOW_NOTIFICATIONS := SHOW_NOTIFICATIONS p;
         messageQueue := [];
         isShowingMessage := false;
         container := container p;
         nextBox := nextBox p;
         timers := timers p;
         displayed := displayed p |}
  | t :: queue =>
      let box := {| box_id := nextBox p;
                    textContent := message t;
                    background := box_background (type t);
                    opacity := "1" |} in
      {| SHOW_NOTIFICATIONS := SHOW_NOTIFICATIONS p;
         messageQueue := queue;
         isShowingMessage := true;
         container := Some (default [] (container p) ++ [box]);
         nextBox := S (nextBox p);
         timers := timers p ++ [{| due := now + 3000; callback := FadeOut (nextBox p) |}];
         displayed := displayed p ++ [(now, t)] |}
  end.

(** [notifyUser] *)
Definition notifyUser (msg ty : string) (now : Z) (p : Page) : Page :=
  if negb (SHOW_NOTIFICATIONS p) then p
  else
    let p' := {| SHOW_NOTIFICATIONS := SHOW_NOTIFICATIONS p;
                 messageQueue := messageQueue p ++ [{| message := msg; type := ty |}];
                 isShowingMessage := isShowingMessage p;
                 container := container p;
                 nextBox := nextBox p;
                 timers := timers p;
                 displayed := displayed p |} in
    if negb (isShowingMessage p') then showNextMessage now p' else p'.

Definition set_opacity (b : nat) (o : string) (x : Box) : Box :=
  if Nat.eqb (box_id x) b
  then {| box_id := box_id x; textContent := textContent x;
          background := background x; opacity := o |}
  else x.

(** The two timeout callbacks of [showNextMessage], run at time [now]
    with the fired timer already taken off [timers]. *)
Definition run_callback (now : Z) (c : Callback) (p : Page) : Page :=
  match c with
  | FadeOut b =>
      {| SHOW_NOTIFICATIONS := SHOW_NOTIFICATIONS p;
         messageQueue := messageQueue p;
         isShowingMessage := isShowingMessage p;
         container := option_map (List.map (set_opacity b "0")) (container p);
         nextBox := nextBox p;
         timers := timers p ++ [{| due := now + 500; callback := RemoveBox b |}];
         displayed := displayed p |}
  | RemoveBox b =>
      showNextMessage now
        {| SHOW_NOTIFICATIONS := SHOW_NOTIFICATIONS p;
           messageQueue := messageQueue p;
           isShowingMessage := false;
           container := option_map (List.filter (fun x => negb (Nat.eqb (box_id x) b))) (container p);
           nextBox := nextBox p;
           timers := timers p;
           displayed := displayed p |}
  end.

(** The timer the browser fires next: the earliest due one, the older
    of two that are due together. *)
Fixpoint pick_timer (ts : list Timer) : option (Timer * list Timer) :=
  match ts with
  | [] => None
  | t :: ts' =>
      match pick_timer ts' with
      | Some (u, rest) => if due u <? due t then Some (u, t :: rest) else Some (t, ts')
      | None => Some (t, ts')
      end
  end.

Definition set_timers (p : Page) (ts : list Timer) : Page :=
  {| SHOW_NOTIFICATIONS := SHOW_NOTIFICATIONS p;
     messageQueue := messageQueue p;
     isShowingMessage := isShowingMessage p;
     container := container p;
     nextBox := nextBox p;
     timers := ts;
     displayed := displayed p |}.

(** The browser runs one timeout callback, if one is due at [now]. *)
Definition fire_timer (now : Z) (p : Page) : Page :=
  match pick_timer (timers p) with
  | Some (t, rest) =>
      if due t <=? now then run_callback now (callback t) (set_timers p rest) else p
  | None => p
  end.

(** The toast queue alone, driven by its three kinds of event. *)
Inductive UiInput :=
| Publish (msg ty : string)   (* a call of [notifyUser] *)
| Elapse (dt : Z)             (* time passes *)
| TimerFires.                 (* the browser runs a due timeout *)

Definition ui_step (s : Z * Page) (i : UiInput) : Z * Page :=
  match i with
  | Publish msg ty => (fst s, notifyUser msg ty (fst s) (snd s))
  | Elapse dt => (fst s + Z.max 0 dt, snd s)
  | TimerFires => (fst s, fire_timer (fst s) (snd s))
  end.

Definition ui_run (s : Z * Page) (l : list UiInput) : Z * Page :=
  fold_left ui_step l s.

(** The page when the script has just loaded. *)
Definition fresh_page (show : bool) : Page :=
  {| SHOW_NOTIFICATIONS := show;
     messageQueue := [];
     isShowingMessage := false;
     container := None;
     nextBox := 0%nat;
     timers := [];
     displayed := [] |}.

(** The toasts of the [Publish] events of a trace, in order. *)
Fixpoint published (l : list UiInput) : list Toast :=
  match l with
  | [] => []
  | Publish msg ty :: l' => {| message := msg; type := ty |} :: published l'
  | _ :: l' => published l'
  end.

(** Three seconds pass and the browser runs the timeout that is due. *)
Definition tick : list UiInput := [Elapse 3000; TimerFires].

Fixpoint ticks (n : nat) : list UiInput :=
  match n with
  | O => []
  | S n' => tick ++ ticks n'
  end.

(** ** Messages between the service worker and its clients *)

Inductive Message :=
| OFFLINE_REQUEST_SAVED (u m : string)
| OFFLINE_USAGE
| OFFLINE_REQUEST_SYNCED (u m : string)
| SYNC_OFFLINE_REQUESTS
| UnknownType (ty : string).

(** ** The world the two scripts run in

    [net] is the network: what a [fetch] settles to, given the calls made
    before it.  [netlog] lists the calls made, [outbox] the messages the
    service worker posted to its clients.  The cache storage
    [CACHE_NAME] maps a request, identified by method and URL, to the
    request and the response stored for it. *)

Definition Network := list Call -> Call -> Res Response.

Record World := {
  net : Network;
  clock : Z;
  idb : IDB;
  cache : gmap (string * string) (Request * Response);
  netlog : list Call;
  outbox : list Message;
  page : Page;
}.

Definition set_idb (w : World) (db : IDB) : World :=
  {| net := net w; clock := clock w; idb := db; cache := cache w;
     netlog := netlog w; outbox := outbox w; page := page w |}.

Definition set_cache (w : World) (c : gmap (string * string) (Request * Response)) : World :=
  {| net := net w; clock := clock w; idb := idb w; cache := c;
     netlog := netlog w; outbox := outbox w; page := page w |}.

Definition set_netlog (w : World) (l : list Call) : World :=
  {| net := net w; clock := clock w; idb := idb w; cache := cache w;
     netlog := l; outbox := outbox w; page := page w |}.

Definition set_outbox (w : World) (l : list Message) : World :=
  {| net := net w; clock := clock w; idb := idb w; cache := cache w;
     netlog := netlog w; outbox := l; page := page w |}.

Definition set_page (w : World) (p : Page) : World :=
  {| net := net w; clock := clock w; idb := idb w; cache := cache w;
     netlog := netlog w; outbox := outbox w; page := p |}.

Definition set_clock (w : World) (t : Z) : World :=
  {| net := net w; clock := t; idb := idb w; cache := cache w;
     netlog := netlog w; outbox := outbox w; page := page w |}.

Definition cache_key (r : Request) : string * string := (req_method r, req_url r).

(** [cache.put(request, response)] rejects with a [TypeError] when the
    method of the request is not GET or the status of the response is
    206.  (It also rejects a URL that is not http(s) and a response
    with [Vary: *]; requests and responses are taken to have neither.) *)
Definition CachePutError : JsError := {| err_message := "TypeError: Cache.put" |}.

Definition cache_put_rejects (request : Request) (response : Response) : bool :=
  negb (String.eqb (req_method request) "GET") || (status response =? 206).

(** ** Platform calls and asynchronous programs *)

Inductive Op : Type -> Type :=
| Date_now : Op Z
| Fetch (c : Call) : Op (Res Response)
| SaveRequest (requestData : RequestData) : Op (Res unit)
| GetAllRequests : Op (Res (list Stored))
| DeleteRequest (key : Z) : Op (Res unit)
| UpdateRequestRetryCount (key retry : Z) : Op (Res unit)
| CachePut (request : Request) (response : Response) : Op (Res unit)
| CacheMatch (request : Request) : Op (option Response)
| CacheKeys : Op (list Request)
| CloneRequestBody (request : Request) : Op (Res string)
| SendMessageToClients (msg : Message) : Op unit
| NotifyUser (msg ty : string) : Op unit.

(** The calls that return at once; the others are awaited. *)
Definition is_sync {X} (op : Op X) : bool :=
  match op with
  | Date_now | SendMessageToClients _ | NotifyUser _ _ => true
  | _ => false
  end.

(** What a call does to the world and what it answers. *)
Definition exec {X} (op : Op X) (w : World) : X * World :=
  match op in Op X return X * World with
  | Date_now => (clock w, w)
  | Fetch c => (net w (netlog w) c, set_netlog w (netlog w ++ [c]))
  | SaveRequest d => let (r, db) := saveRequest d (idb w) in (r, set_idb w db)
  | GetAllRequests => let (r, db) := getAllRequests (idb w) in (r, set_idb w db)
  | DeleteRequest key => let (r, db) := deleteRequest key (idb w) in (r, set_idb w db)
  | UpdateRequestRetryCount key n =>
      let (r, db) := updateRequestRetryCount key n (idb w) in (r, set_idb w db)
  | CachePut request response =>
      if cache_put_rejects request response then (Err CachePutError, w)
      else (Ok tt, set_cache w (<[cache_key request := (request, response)]> (cache w)))
  | CacheMatch request => (snd <$> cache w !! cache_key request, w)
  | CacheKeys => ((fun kv => fst (snd kv)) <$> map_to_list (cache w), w)
  | CloneRequestBody request => (req_text request, w)
  | SendMessageToClients msg => (tt, set_outbox w (outbox w ++ [msg]))
  | NotifyUser msg ty => (tt, set_page w (notifyUser msg ty (clock w) (page w)))
  end.

Inductive Prog (A : Type) : Type :=
| Ret (a : A)
| Vis {X : Type} (op : Op X) (k : X -> Prog A).
Arguments Ret {A} a.
Arguments Vis {A X} op k.

Fixpoint bind {A B} (p : Prog A) (f : A -> Prog B) : Prog B :=
  match p with
  | Ret a => f a
  | Vis op k => Vis op (fun x => bind (k x) f)
  end.

Definition call {X} (op : Op X) : Prog X := Vis op Ret.

(** [await p] inside an async function: a rejection leaves the function
    (or reaches the enclosing [try]). *)
Definition await {A B} (p : Prog (Res A)) (f : A -> Prog (Res B)) : Prog (Res B) :=
  bind p (fun r => match r with Ok a => f a | Err e => Ret (Err e) end).

(** [try { body } catch (err) { handler }] *)
Definition try_catch {A} (body : Prog (Res A)) (handler : JsError -> Prog (Res A)) : Prog (Res A) :=
  bind body (fun r => match r with Ok a => Ret (Ok a) | Err e => handler e end).

#[global] Instance Prog_ret : MRet Prog := @Ret.
#[global] Instance Prog_bind : MBind Prog := fun A B f p => bind p f.

Notation "x ←? p ; q" := (await p (fun x => q))
  (at level 20, p at level 100, q at level 200, only parsing).
Notation "p ;;? q" := (await p (fun _ => q))
  (at level 100, q at level 200, only parsing, right associativity).

(** A program run alone, from start to end. *)
Fixpoint run {A} (p : Prog A) (w : World) : A * World :=
  match p with
  | Ret a => (a, w)
  | Vis op k => let (x, w') := exec op w in run (k x) w'
  end.

(** ** JavaScript operators on values that may be [undefined] *)

(** [x || 0] on a number or [undefined] *)
Definition or_zero (x : option Z) : Z :=
  match x with
  | Some n => if n =? 0 then 0 else n
  | None => 0
  end.

(** [x >= m]; a comparison with [undefined] is false *)
Definition js_ge (x : option Z) (m : Z) : bool :=
  match x with
  | Some n => m <=? n
  | None => false
  end.

(** [now - t > m]; the difference with [undefined] is [NaN] and the
    comparison false *)
Definition age_exceeds (now : Z) (t : option Z) (m : Z) : bool :=
  match t with
  | Some t0 => m <? now - t0
  | None => false
  end.

(** The double quote, for the JSON texts. *)
Definition dq : string := String (ascii_of_nat 34) EmptyString.

(** ** The service worker ([sw.js]) *)

Module SW.

Definition cachePut (request : Request) (response : Response) : Prog (Res unit) :=
  call (CachePut request response).

Definition cacheMatch (request : Request) : Prog (option Response) :=
  call (CacheMatch request).

Definition cloneRequestBody (request : Request) : Prog (Res string) :=
  call (CloneRequestBody request).

Definition sendMessageToClients (msg : Message) : Prog unit :=
  call (SendMessageToClients msg).

Definition response_503 : Response :=
  {| status := 503; statusText := "Service Unavailable"; resp_headers := [];
     resp_body := "Offline and no cached data" |}.

(** [JSON.stringify({ offline: true, message: 'Request saved for later sync' })] *)
Definition response_202 : Response :=
  {| status := 202; statusText := "";
     resp_headers := [("Content-Type", "application/json")];
     resp_body := "{" +:+ dq +:+ "offline" +:+ dq +:+ ":true," +:+ dq +:+ "message" +:+ dq
                  +:+ ":" +:+ dq +:+ "Request saved for later sync" +:+ dq +:+ "}" |}.

(** [JSON.stringify({ error: 'Failed to save request offline' })] *)
Definition response_500 : Response :=
  {| status := 500; statusText := "";
     resp_headers := [("Content-Type", "application/json")];
     resp_body := "{" +:+ dq +:+ "error" +:+ dq +:+ ":" +:+ dq
                  +:+ "Failed to save request offline" +:+ dq +:+ "}" |}.

(** The object the fetch handler saves for a request that failed. *)
Definition snapshot (request : Request) (bodyText : string) (now : Z) : RequestData :=
  {| url := req_url request;
     method := req_method request;
     headers := serializeHeaders (req_headers request);
     body := Some bodyText;
     contentType := default "" (headers_get "Content-Type" (req_headers request));
     timestamp := Some now;
     retryCount := Some 0 |}.

(** The [fetch] event handler: the promise given to [respondWith]. *)
Definition onfetch (request : Request) : Prog (Res Response) :=
  let method := req_method request in
  if String.eqb method "GET" || String.eqb method "HEAD" then
    r ← call (Fetch (FetchRequest request));
    match r with
    | Ok response =>
        (* not awaited in the source: a rejection of the put is lost *)
        cachePut request response;;
        sendMessageToClients (OFFLINE_REQUEST_SYNCED (req_url request) (req_method request));;
        Ret (Ok response)
    | Err _ =>
        cached ← cacheMatch request;
        match cached with
        | Some c =>
            sendMessageToClients OFFLINE_USAGE;;
            Ret (Ok c)
        | None => Ret (Ok response_503)
        end
    end
  else
    r ← call (Fetch (FetchRequest request));
    match r with
    | Ok response => Ret (Ok response)
    | Err _ =>
        try_catch
          (bodyText ←? cloneRequestBody request;
           now ← call Date_now;
           let requestData := snapshot request bodyText now in
           call (SaveRequest requestData);;?
           sendMessageToClients (OFFLINE_REQUEST_SAVED (req_url request) (req_method request));;
           Ret (Ok response_202))
          (fun err => Ret (Ok response_500))
    end.

(** The options of the replayed [fetch] of [syncStoredPosts]. *)
Definition replay_init (d : RequestData) : FetchInit :=
  let h := new_Headers (headers d) in
  {| init_method := method d;
     init_headers := if String.eqb (contentType d) "" then h
                     else headers_set "Content-Type" (contentType d) h;
     init_body := if String.eqb (method d) "GET" || String.eqb (method d) "HEAD"
                  then None else body d |}.

(** The [try] statement of the loop of [syncStoredPosts]. *)
Definition replay_one (req : Stored) : Prog (Res unit) :=
  let d := data req in
  try_catch
    (response ←? call (Fetch (FetchUrl (url d) (replay_init d)));
     if ok response then
       call (DeleteRequest (id req));;?
       sendMessageToClients (OFFLINE_REQUEST_SYNCED (url d) (method d));;
       Ret (Ok tt)
     else
       call (UpdateRequestRetryCount (id req) (or_zero (retryCount d) + 1));;?
       Ret (Ok tt))
    (fun err =>
       call (UpdateRequestRetryCount (id req) (or_zero (retryCount d) + 1));;?
       Ret (Ok tt)).

(** The [for] loop of [syncStoredPosts]. *)
Fixpoint syncStoredPosts_for (now : Z) (requests : list Stored) : Prog (Res unit) :=
  match requests with
  | [] => Ret (Ok tt)
  | req :: rest =>
      if age_exceeds now (timestamp (data req)) MAX_AGE then
        call (DeleteRequest (id req));;?
        syncStoredPosts_for now rest
      else if MAX_RETRIES <=? or_zero (retryCount (data req)) then
        call (DeleteRequest (id req));;?
        syncStoredPosts_for now rest
      else
        replay_one req;;?
        syncStoredPosts_for now rest
  end.

Definition syncStoredPosts : Prog (Res unit) :=
  requests ←? call GetAllRequests;
  now ← call Date_now;
  syncStoredPosts_for now requests.

(** One callback of the [Promise.all] of [syncOfflineRequests]. *)
Definition refresh_one (request : Request) : Prog (Res unit) :=
  try_catch
    (response ←? call (Fetch (FetchRequest request));
     cachePut request response;;?
     sendMessageToClients (OFFLINE_REQUEST_SYNCED (req_url request) (req_method request));;
     Ret (Ok tt))
    (fun err =>
       cached ← cacheMatch request;
       match cached with
       | Some _ => sendMessageToClients OFFLINE_USAGE;; Ret (Ok tt)
       | None => Ret (Ok tt)
       end).

(** The callbacks of [Promise.all], taken in the order of
    [cache.keys()]: each settles before the next starts. *)
Fixpoint refresh_all (getRequests : list Request) : Prog (Res unit) :=
  match getRequests with
  | [] => Ret (Ok tt)
  | request :: rest => refresh_one request;;? refresh_all rest
  end.

Definition syncOfflineRequests : Prog (Res unit) :=
  syncStoredPosts;;?
  try_catch
    (requests ← call CacheKeys;
     let getRequests :=
       List.filter (fun req => String.eqb (req_method req) "GET"
                               || String.eqb (req_method req) "HEAD") requests in
     refresh_all getRequests)
    (fun err => Ret (Ok tt)).

(** The [message] event handler: the program it starts, if any. *)
Definition onmessage (data : option Message) : option (Prog (Res unit)) :=
  match data with
  | Some SYNC_OFFLINE_REQUESTS => Some syncOfflineRequests
  | _ => None
  end.

End SW.

(** ** The page script ([dist/smart-cache.js]) *)

Module SmartCache.

(** [prepareRequestBody], on a body that is a string or absent. *)
Definition prepareRequestBody (b : option string) : option string :=
  match b with
  | None => None
  | Some s => Some s
  end.

Definition fetchOptions (d : RequestData) : FetchInit :=
  {| init_method := method d;
     init_headers := headers d;
     init_body := prepareRequestBody (body d) |}.

(** The [try] statement of the loop of [syncOfflineRequests]. *)
Definition replay_one (req : Stored) : Prog (Res unit) :=
  let d := data req in
  try_catch
    (response ←? call (Fetch (FetchUrl (url d) (fetchOptions d)));
     if ok response then
       call (DeleteRequest (id req));;?
       call (NotifyUser ("Synced offline request: " +:+ method d +:+ " " +:+ url d) "success");;
       Ret (Ok tt)
     else
       call (UpdateRequestRetryCount (id req) (or_zero (retryCount d) + 1));;?
       call (NotifyUser ("Failed to sync " +:+ method d +:+ " " +:+ url d
                         +:+ " - status " +:+ pretty (status response)) "error");;
       Ret (Ok tt))
    (fun err =>
       call (UpdateRequestRetryCount (id req) (or_zero (retryCount d) + 1));;?
       call (NotifyUser ("Error syncing " +:+ method d +:+ " " +:+ url d
                         +:+ ": " +:+ err_message err) "error");;
       Ret (Ok tt)).

(** The [for] loop of [syncOfflineRequests]. *)
Fixpoint syncOfflineRequests_for (now : Z) (requests : list Stored) : Prog (Res unit) :=
  match requests with
  | [] => Ret (Ok tt)
  | req :: rest =>
      if js_ge (retryCount (data req)) MAX_RETRIES
         || age_exceeds now (timestamp (data req)) MAX_AGE then
        call (DeleteRequest (id req));;?
        syncOfflineRequests_for now rest
      else
        replay_one req;;?
        syncOfflineRequests_for now rest
  end.

Definition syncOfflineRequests : Prog (Res unit) :=
  requests ←? call GetAllRequests;
  now ← call Date_now;
  syncOfflineRequests_for now requests.

(** [window.smartCache.saveOfflineRequest], which is [saveRequest]:
    the caller hands in the object to store.  The object has no [id]
    of its own, as the objects of the fetch handler have none, so that
    the store generates the key. *)
Definition saveOfflineRequest (requestData : RequestData) : Prog (Res unit) :=
  call (SaveRequest requestData).

(** The listener of the service worker's messages. *)
Definition onmessage (data : option Message) : option (Prog (Res unit)) :=
  match data with
  | None => None
  | Some (OFFLINE_REQUEST_SAVED u m) =>
      Some (call (NotifyUser ("Saved " +:+ m +:+ " request to " +:+ u +:+ " for later sync.") "info");;
            Ret (Ok tt))
  | Some OFFLINE_USAGE =>
      Some (call (NotifyUser "You're offline. Loaded from cache." "success");; Ret (Ok tt))
  | Some (OFFLINE_REQUEST_SYNCED u m) =>
      Some (call (NotifyUser ("Synced " +:+ m +:+ " to " +:+ u) "success");; Ret (Ok tt))
  | Some SYNC_OFFLINE_REQUESTS => Some syncOfflineRequests
  | Some (UnknownType _) => None
  end.

End SmartCache.

(** ** The event loop

    Every started handler is a task.  A task runs until it awaits; when
    what it awaits settles it goes on until the next await, and tasks
    take turns in any order.  A [fetch] is issued and settled within the
    step that resumes the task.  The [online] listener posts its
    message only when the page has a controlling service worker; the
    message then arrives there.

    Handlers of both scripts run on the one store of the world
    whenever it is up.  This takes in more than can happen: the page
    asks for version 1 of the database and the service worker for
    version 2, so that a handler of the page that starts after the
    service worker has opened the database rejects at its first
    [openDB] and changes nothing.  What holds in every state reached
    here therefore holds in every state that can be reached. *)

Inductive Task :=
| Handler (p : Prog (Res unit))          (* a message handler *)
| Responding (p : Prog (Res Response)).  (* a promise given to [respondWith] *)

Record Sys := { world : World; tasks : list Task }.

Fixpoint run_sync {A} (p : Prog A) (w : World) : Prog A * World :=
  match p with
  | Ret a => (Ret a, w)
  | Vis op k =>
      if is_sync op then let (x, w') := exec op w in run_sync (k x) w'
      else (Vis op k, w)
  end.

(** The awaited call settles and the program goes on to its next await. *)
Definition resume {A} (p : Prog A) (w : World) : Prog A * World :=
  match p with
  | Ret a => (Ret a, w)
  | Vis op k => let (x, w') := exec op w in run_sync (k x) w'
  end.

Definition start_task (t : Task) (w : World) : Task * World :=
  match t with
  | Handler p => let (p', w') := run_sync p w in (Handler p', w')
  | Responding p => let (p', w') := run_sync p w in (Responding p', w')
  end.

Definition resume_task (t : Task) (w : World) : Task * World :=
  match t with
  | Handler p => let (p', w') := resume p w in (Handler p', w')
  | Responding p => let (p', w') := resume p w in (Responding p', w')
  end.

Definition spawn (t : Task) (s : Sys) : Sys :=
  let (t', w') := start_task t (world s) in
  {| world := w'; tasks := tasks s ++ [t'] |}.

Inductive Input :=
| FetchEvent (request : Request)   (* the page issues a request *)
| ToWorker (data : option Message) (* a message reaches the service worker *)
| ToPage (data : option Message)   (* a message reaches the page *)
| Online (controller : bool)       (* the window's [online] event, with
                                      whether [navigator.serviceWorker.controller]
                                      is set at that moment *)
| Settle (i : nat)                 (* what task [i] awaits settles *)
| Tick (dt : Z)                    (* time passes *)
| Timeout                          (* the page runs a due timeout *)
| SaveOffline (requestData : RequestData).
                                   (* a script of the page calls
                                      [window.smartCache.saveOfflineRequest] *)

Definition deliver (s : Sys) (i : Input) : Sys :=
  match i with
  | FetchEvent request => spawn (Responding (SW.onfetch request)) s
  | ToWorker data =>
      match SW.onmessage data with
      | Some p => spawn (Handler p) s
      | None => s
      end
  | ToPage data =>
      match SmartCache.onmessage data with
      | Some p => spawn (Handler p) s
      | None => s
      end
  | Online controller =>
      if controller then
        match SW.onmessage (Some SYNC_OFFLINE_REQUESTS) with
        | Some p => spawn (Handler p) s
        | None => s
        end
      else s
  | Settle i =>
      match tasks s !! i with
      | Some t =>
          let (t', w') := resume_task t (world s) in
          {| world := w'; tasks := <[i := t']> (tasks s) |}
      | None => s
      end
  | Tick dt => {| world := set_clock (world s) (clock (world s) + Z.max 0 dt); tasks := tasks s |}
  | Timeout =>
      {| world := set_page (world s) (fire_timer (clock (world s)) (page (world s)));
         tasks := tasks s |}
  | SaveOffline requestData => spawn (Handler (SmartCache.saveOfflineRequest requestData)) s
  end.

Definition deliver_all (s : Sys) (l : list Input) : Sys := fold_left deliver l s.

Definition finished (t : Task) : bool :=
  match t with
  | Handler (Ret _) | Responding (Ret _) => true
  | _ => false
  end.

(** The handlers that have started and not yet ended. *)
Definition active (s : Sys) : nat :=
  List.length (List.filter (fun t => negb (finished t)) (tasks s)).

(** ** Opening the database: versions and the upgrade callbacks

    The database of an origin as [indexedDB.open] sees it: its version,
    0 while it does not exist, and its object stores with their key
    path, key generator and index names.  [indexedDB_open] is the
    platform's part: a request for a lower version than the existing
    one fails with a [VersionError]; a request for a higher one runs
    the [onupgradeneeded] callback with the old version inside an
    upgrade transaction, which is aborted when the callback throws;
    a request for the existing version opens it as it is.  The flag
    [up] of the store model stands for the outcome of this open for
    the script at hand. *)

Record ObjectStore := {
  keyPath : string;
  autoIncrement : bool;
  indexNames : list string;
}.

Record Database := { version : Z; objectStores : gmap string ObjectStore }.

Definition no_database : Database := {| version := 0; objectStores := ∅ |}.

Definition STORE_NAME : string := "offline-requests".

Definition VersionError : JsError := {| err_message := "VersionError" |}.
Definition NotFoundError : JsError := {| err_message := "NotFoundError" |}.
Definition AbortError : JsError := {| err_message := "AbortError" |}.

Definition indexedDB_open (requested : Z) (onupgradeneeded : Z -> Database -> Res Database)
    (db : Database) : Res Database * Database :=
  if requested <? version db then (Err VersionError, db)
  else if requested =? version db then (Ok db, db)
  else
    match onupgradeneeded (version db)
            {| version := requested; objectStores := objectStores db |} with
    | Ok db' => (Ok db', db')
    | Err _ => (Err AbortError, db)
    end.

(** [db.createObjectStore(name, { keyPath, autoIncrement })] *)
Definition createObjectStore (name kp : string) (ai : bool) (db : Database) : Database :=
  {| version := version db;
     objectStores := <[name := {| keyPath := kp; autoIncrement := ai; indexNames := [] |}]>
                       (objectStores db) |}.

(** [store.createIndex(name, ...)] on the store [store_name] *)
Definition createIndex (store_name name : string) (store : ObjectStore) (db : Database)
  : Database :=
  {| version := version db;
     objectStores := <[store_name := {| keyPath := keyPath store;
                                        autoIncrement := autoIncrement store;
                                        indexNames := indexNames store ++ [name] |}]>
                       (objectStores db) |}.

(** [contains] of a list of names *)
Definition contains (names : list string) (name : string) : bool :=
  existsb (String.eqb name) names.

(** [openDB] of the page script ([dist/smart-cache.js]) *)
Module PageDB.

Definition DB_VERSION : Z := 1.

Definition onupgradeneeded (oldVersion : Z) (db : Database) : Res Database :=
  let db1 :=
    if oldVersion <? 1 then
      match objectStores db !! STORE_NAME with
      | None => createObjectStore STORE_NAME "id" true db
      | Some _ => db
      end
    else db in
  if oldVersion <? 2 then
    match objectStores db1 !! STORE_NAME with
    | None => Err NotFoundError
    | Some store =>
        if negb (contains (indexNames store) "timestamp")
        then Ok (createIndex STORE_NAME "timestamp" store db1)
        else Ok db1
    end
  else Ok db1.

Definition openDB (db : Database) : Res Database * Database :=
  indexedDB_open DB_VERSION onupgradeneeded db.

End PageDB.

(** [openDB] of the service worker ([sw.js]) *)
Module WorkerDB.

Definition DB_VERSION : Z := 2.

Definition onupgradeneeded (oldVersion : Z) (db : Database) : Res Database :=
  match objectStores db !! STORE_NAME with
  | None =>
      let db1 := createObjectStore STORE_NAME "id" true db in
      Ok (createIndex STORE_NAME "timestamp"
            {| keyPath := "id"; autoIncrement := true; indexNames := [] |} db1)
  | Some _ => Ok db
  end.

Definition openDB (db : Database) : Res Database * Database :=
  indexedDB_open DB_VERSION onupgradeneeded db.

End WorkerDB.

(** The object store both scripts work on. *)
Definition offline_requests : ObjectStore :=
  {| keyPath := "id"; autoIncrement := true; indexNames := ["timestamp"] |}.


(** * Statements: predicates and sample inputs *)

(** ** Well-formed stores

    The keys of an object store with a key generator ascend along
    [rows] and lie below the next generated key. *)
Definition wf_db (db : IDB) : Prop :=
  StronglySorted (fun a b => id a < id b) (rows db) /\
  Forall (fun r => id r < nextKey db) (rows db).

(** The database before anything was saved. *)
Definition empty_db : IDB := {| up := true; rows := []; nextKey := 1 |}.

(** A database that cannot be opened. *)
Definition closed_db : IDB := {| up := false; rows := []; nextKey := 1 |}.

(** ** Sample inputs *)

Definition offline : Network := fun _ _ => Err {| err_message := "Failed to fetch" |}.

Definition answers (code : Z) : Network :=
  fun _ _ => Ok {| status := code; statusText := ""; resp_headers := []; resp_body := "" |}.

Definition world0 (n : Network) (db : IDB) : World :=
  {| net := n; clock := 1700000000000; idb := db; cache := ∅;
     netlog := []; outbox := []; page := fresh_page true |}.

Definition post_orders : Request :=
  {| req_url := "/orders"; req_method := "POST";
     req_headers := [("content-type", "application/json")];
     req_text := Ok "{}" |}.

Definition get_data : Request :=
  {| req_url := "/data"; req_method := "GET"; req_headers := []; req_text := Ok "" |}.

Definition plain_response (code : Z) : Response :=
  {| status := code; statusText := ""; resp_headers := []; resp_body := "" |}.

(** A world whose cache holds a good answer for [get_data]. *)
Definition world_cached (n : Network) : World :=
  set_cache (world0 n empty_db) {[ cache_key get_data := (get_data, plain_response 200) ]}.

(** ** The toast queue: what holds in every state *)

(** Display [a] began at least 3500 ms before display [b]. *)
Definition later (a b : Z * Toast) : Prop := a.1 + 3500 <= b.1.

(** The states the toast queue can be in after the toasts [pubs] were
    published: nothing on screen and nothing pending, or one box on
    screen with one timeout pending for it. *)
Inductive ui_inv (pubs : list Toast) : Z * Page -> Prop :=
| inv_idle (now : Z) (c : option (list Box)) (nb : nat) (d : list (Z * Toast)) :
    c = None \/ c = Some [] ->
    d.*2 = pubs ->
    StronglySorted later d ->
    Forall (fun a => a.1 + 3500 <= now) d ->
    ui_inv pubs
      (now, {| SHOW_NOTIFICATIONS := true; messageQueue := []; isShowingMessage := false;
               container := c; nextBox := nb; timers := []; displayed := d |})
| inv_showing (now : Z) (q : list Toast) (box : Box) (tm : Timer) (nb : nat)
              (d0 : list (Z * Toast)) (ts : Z) (toast : Toast) :
    (d0 ++ [(ts, toast)]).*2 ++ q = pubs ->
    textContent box = message toast ->
    (box_id box < nb)%nat ->
    StronglySorted later d0 ->
    Forall (fun a => a.1 + 3500 <= ts) d0 ->
    ts <= now ->
    (tm = {| due := ts + 3000; callback := FadeOut (box_id box) |} \/
     exists tf, ts + 3000 <= tf /\ tf <= now /\
                tm = {| due := tf + 500; callback := RemoveBox (box_id box) |}) ->
    ui_inv pubs
      (now, {| SHOW_NOTIFICATIONS := true; messageQueue := q; isShowingMessage := true;
               container := Some [box]; nextBox := nb; timers := [tm];
               displayed := d0 ++ [(ts, toast)] |}).

(** The timeouts still to run before the page is idle. *)
Definition phases (p : Page) : nat :=
  (2 * List.length (messageQueue p) +
   match timers p with
   | {| callback := FadeOut _ |} :: _ => 2
   | {| callback := RemoveBox _ |} :: _ => 1
   | [] => 0
   end)%nat.

(** The boxes on screen. *)
Definition on_screen (p : Page) : list Box := default [] (container p).

(** ** Replay passes: what the statements are about *)

(** An entry that a pass drops instead of replaying it. *)
Definition expired (now : Z) (d : RequestData) : bool :=
  age_exceeds now (timestamp d) MAX_AGE || (MAX_RETRIES <=? or_zero (retryCount d)).

Definition sorted_rows (rs : list Stored) : Prop :=
  StronglySorted (fun a b => id a < id b) rs.

(** The database, and the world, without the record under [key]. *)
Definition db_without (key : Z) (db : IDB) : IDB :=
  set_rows db (store_delete key (rows db)).

Definition without (key : Z) (w : World) : World :=
  set_idb w (db_without key (idb w)).

(** The loop that both passes run, with the replay of one entry left
    open. *)
Fixpoint replay_for (one : Stored -> Prog (Res unit)) (now : Z) (requests : list Stored)
  : Prog (Res unit) :=
  match requests with
  | [] => Ret (Ok tt)
  | req :: rest =>
      if expired now (data req) then
        call (DeleteRequest (id req));;? replay_for one now rest
      else
        one req;;? replay_for one now rest
  end.

(** The [fetch] calls of the two passes for a stored request. *)
Definition sw_call (d : RequestData) : Call := FetchUrl (url d) (SW.replay_init d).
Definition page_call (d : RequestData) : Call := FetchUrl (url d) (SmartCache.fetchOptions d).

(** The database after the failed replay of [r]. *)
Definition retried (r : Stored) (db : IDB) : IDB :=
  snd (updateRequestRetryCount (id r) (or_zero (retryCount (data r)) + 1) db).

(** The world after the service worker replayed [r], the database
    being open. *)
Definition sw_after (r : Stored) (w : World) : World :=
  let c := sw_call (data r) in
  let w1 := set_netlog w (netlog w ++ [c]) in
  match net w (netlog w) c with
  | Ok response =>
      if ok response then
        set_outbox (set_idb w1 (db_without (id r) (idb w)))
          (outbox w ++ [OFFLINE_REQUEST_SYNCED (url (data r)) (method (data r))])
      else set_idb w1 (retried r (idb w))
  | Err _ => set_idb w1 (retried r (idb w))
  end.

(** The toasts of the page's pass. *)
Definition synced_text (d : RequestData) : string :=
  "Synced offline request: " +:+ method d +:+ " " +:+ url d.
Definition failed_text (d : RequestData) (response : Response) : string :=
  "Failed to sync " +:+ method d +:+ " " +:+ url d +:+ " - status " +:+ pretty (status response).
Definition error_text (d : RequestData) (e : JsError) : string :=
  "Error syncing " +:+ method d +:+ " " +:+ url d +:+ ": " +:+ err_message e.

(** The world after the page replayed [r], the database being open. *)
Definition page_after (r : Stored) (w : World) : World :=
  let c := page_call (data r) in
  let w1 := set_netlog w (netlog w ++ [c]) in
  match net w (netlog w) c with
  | Ok response =>
      if ok response then
        set_page (set_idb w1 (db_without (id r) (idb w)))
          (notifyUser (synced_text (data r)) "success" (clock w) (page w))
      else
        set_page (set_idb w1 (retried r (idb w)))
          (notifyUser (failed_text (data r) response) "error" (clock w) (page w))
  | Err e =>
      set_page (set_idb w1 (retried r (idb w)))
        (notifyUser (error_text (data r) e) "error" (clock w) (page w))
  end.

(** What the loop lemmas need to know of the replay of one entry [r]:
    with the database open it ends normally in the world [after r w];
    it leaves the network, the clock, the cache and the database's state
    of being open alone, makes the one call [call_of (data r)], deletes
    the record under [id r] or sets its retry count or leaves the store
    as it is, and does the same in a store that lacks another record. *)
Record entry_local (one : Stored -> Prog (Res unit)) (call_of : RequestData -> Call)
    (after : Stored -> World -> World) : Prop := {
  el_run : forall r w, up (idb w) = true -> run (one r) w = (Ok tt, after r w);
  el_env : forall r w,
    net (after r w) = net w /\ clock (after r w) = clock w /\
    up (idb (after r w)) = up (idb w) /\
    nextKey (idb (after r w)) = nextKey (idb w) /\ cache (after r w) = cache w;
  el_netlog : forall r w, netlog (after r w) = netlog w ++ [call_of (data r)];
  el_rows : forall r w,
    idb (after r w) = db_without (id r) (idb w) \/ idb (after r w) = retried r (idb w);
  el_without : forall r w j, j <> id r -> sorted_rows (rows (idb w)) ->
    after r (without j w) = without j (after r w);
}.

(** The world after the loop went through [l], the database being open:
    an expired entry is deleted, another one replayed. *)
Fixpoint replayed (after : Stored -> World -> World) (now : Z) (l : list Stored) (w : World)
  : World :=
  match l with
  | [] => w
  | r :: rest =>
      replayed after now rest (if expired now (data r) then without (id r) w else after r w)
  end.

(** The entries of a snapshot that a pass replays. *)
Definition live (now : Z) (l : list Stored) : list Stored :=
  List.filter (fun r => negb (expired now (data r))) l.

(** The database after the requests [ds] were saved one after the other. *)
Definition save_all (ds : list RequestData) (db : IDB) : IDB :=
  fold_left (fun db d => snd (saveRequest d db)) ds db.

(** A replayed call that did not succeed: a rejection or a response
    that is not [ok]. *)
Definition fetch_failed (res : Res Response) : Prop :=
  match res with
  | Ok response => ok response = false
  | Err _ => True
  end.

(** A saved [POST] to [u], made at time [t], with retry count [n]. *)
Definition saved_post (u : string) (t n : Z) : RequestData :=
  {| url := u; method := "POST"; headers := [("content-type", "application/json")];
     body := Some "{}"; contentType := "application/json";
     timestamp := Some t; retryCount := Some n |}.

Definition order_a : RequestData := saved_post "/orders/a" 1699999990000 0.
Definition order_b : RequestData := saved_post "/orders/b" 1699999991000 0.

(** A database that holds the given requests under the keys 1, 2, ... *)
Definition db_of (ds : list RequestData) : IDB := save_all ds empty_db.

(** A world whose queue holds the given requests. *)
Definition world_queued (n : Network) (ds : list RequestData) : World :=
  world0 n (db_of ds).

(** ** The event loop: sample schedules *)

Definition resume_pair {A} (s : Prog A * World) : Prog A * World := resume (fst s) (snd s).

(** One stored request and a server that answers 200. *)
Definition sys_one_queued : Sys :=
  {| world := world_queued (answers 200) [order_a]; tasks := [] |}.

(** A pass was triggered and has read the queue; its replayed call is
    in flight. *)
Definition sys_pass_running : Sys :=
  deliver_all sys_one_queued [Online true; Settle 0].

(** What the running pass awaits settles, until the pass has ended. *)
Definition finish_first : list Input := [Settle 0; Settle 0; Settle 0].

(** The same with a second pass, started by a second trigger, whose
    steps alternate with those of the first. *)
Definition finish_both : list Input :=
  [Settle 1; Settle 0; Settle 1; Settle 0; Settle 1; Settle 0; Settle 1].

(** ** The invariants of the queue *)

(** The retry count, if there is one, is at most [limit]. *)
Definition bounded (limit : Z) (d : RequestData) : Prop :=
  forall n, retryCount d = Some n -> n <= limit.

(** [d'] is [d] up to the retry count. *)
Definition same_but_retry (d d' : RequestData) : Prop :=
  url d' = url d /\ method d' = method d /\ headers d' = headers d /\
  body d' = body d /\ contentType d' = contentType d /\ timestamp d' = timestamp d.

Definition db_ok (limit : Z) (db : IDB) : Prop :=
  wf_db db /\ Forall (fun r => bounded limit (data r)) (rows db).

(** Every record of [db'] under a key that [db] had generated is a
    record of [db] with, at most, another retry count. *)
Definition descends (db db' : IDB) : Prop :=
  nextKey db <= nextKey db' /\
  forall r', r' ∈ rows db' -> id r' < nextKey db ->
    exists r, r ∈ rows db /\ id r = id r' /\ same_but_retry (data r) (data r').

(** Every record of [db'] under a key that [db] had generated is a
    record of [db] whose retry count was not larger. *)
Definition grows (db db' : IDB) : Prop :=
  forall r', r' ∈ rows db' -> id r' < nextKey db ->
    exists r, r ∈ rows db /\ id r = id r' /\
      or_zero (retryCount (data r)) <= or_zero (retryCount (data r')).

(** A call that keeps retry counts within [limit]. *)
Definition op_ok (limit : Z) {X} (op : Op X) : Prop :=
  match op with
  | SaveRequest d => bounded limit d
  | UpdateRequestRetryCount _ n => n <= limit
  | _ => True
  end.

(** A program all of whose calls do, whatever the calls answer. *)
Fixpoint safe (limit : Z) {A} (p : Prog A) : Prop :=
  match p with
  | Ret _ => True
  | Vis op k => op_ok limit op /\ forall x, safe limit (k x)
  end.




(** ** Operations run one at a time

    The state the two scripts share, and the version of the database:
    the page asks [indexedDB.open] for version 1, the service worker
    for version 2, and a script whose version is below the database's
    cannot open it.  [up] tells here whether the storage works at
    all. *)
Record Site := { site : World; dbVersion : Z }.

Definition set_up (db : IDB) (b : bool) : IDB :=
  {| up := b; rows := rows db; nextKey := nextKey db |}.

Definition set_net (w : World) (n : Network) : World :=
  {| net := n; clock := clock w; idb := idb w; cache := cache w;
     netlog := netlog w; outbox := outbox w; page := page w |}.

(** The calls that open the database. *)
Definition opens_db {X} (op : Op X) : bool :=
  match op with
  | SaveRequest _ | GetAllRequests | DeleteRequest _ | UpdateRequestRetryCount _ _ => true
  | _ => false
  end.

(** Whether the program, run alone in [w], opens the database. *)
Fixpoint opens {A} (p : Prog A) (w : World) : bool :=
  match p with
  | Ret _ => false
  | Vis op k => let (x, w') := exec op w in opens_db op || opens (k x) w'
  end.

(** The world as a script that asks for version [v] finds it. *)
Definition world_for (v : Z) (s : Site) : World :=
  if dbVersion s <=? v then site s
  else set_idb (site s) (set_up (idb (site s)) false).

(** A program of a script that asks for version [v], run alone from
    start to end: the first successful open raises the version of the
    database to [v]. *)
Definition as_script (v : Z) {A} (p : Prog A) (s : Site) : Site :=
  let w := world_for v s in
  let w' := snd (run p w) in
  {| site := set_idb w' (set_up (idb w') (up (idb (site s))));
     dbVersion := if (dbVersion s <=? v) && up (idb (site s)) && opens p w
                  then v else dbVersion s |}.

(** The operations of the system, each run alone from start to end.
    What a [fetch] of the operation answers is what the network of the
    state says; [Answers] stands for a change of that, be it of the
    network or, for the calls of the page, of the service worker's
    fetch handler that they pass through. *)
Inductive Operation :=
| Intercept (request : Request)        (* the service worker's fetch handler *)
| WorkerPass                           (* the service worker's [syncOfflineRequests] *)
| PageSave (requestData : RequestData) (* the page's [saveOfflineRequest] *)
| PagePass                             (* the page's [syncOfflineRequests] *)
| Wait (dt : Z)
| Answers (n : Network).

Definition perform (s : Site) (o : Operation) : Site :=
  match o with
  | Intercept request => as_script WorkerDB.DB_VERSION (SW.onfetch request) s
  | WorkerPass => as_script WorkerDB.DB_VERSION SW.syncOfflineRequests s
  | PageSave d => as_script PageDB.DB_VERSION (SmartCache.saveOfflineRequest d) s
  | PagePass => as_script PageDB.DB_VERSION SmartCache.syncOfflineRequests s
  | Wait dt =>
      {| site := set_clock (site s) (clock (site s) + Z.max 0 dt); dbVersion := dbVersion s |}
  | Answers n => {| site := set_net (site s) n; dbVersion := dbVersion s |}
  end.

Definition perform_all (s : Site) (l : list Operation) : Site := fold_left perform l s.

(** An operation that hands no retry count above [limit] to
    [saveOfflineRequest]. *)
Definition operation_ok (limit : Z) (o : Operation) : Prop :=
  match o with
  | PageSave d => bounded limit d
  | _ => True
  end.

(** The operations of the service worker and of the environment. *)
Definition worker_side (o : Operation) : Prop :=
  match o with
  | PageSave _ | PagePass => False
  | _ => True
  end.

(** The passes of the service worker among a list of operations. *)
Definition worker_passes (l : list Operation) : Z :=
  Z.of_nat (List.length (List.filter (fun o => match o with WorkerPass => true | _ => false end) l)).



Definition retry_counts (s : Sys) : list (Z * option Z) :=
  (fun r => (id r, retryCount (data r))) <$> rows (idb (world s)).

(** * Further statements *)

(** A [Headers] object as the platform builds it: every name in lower
    case and listed once. *)
Definition wf_headers (h : Headers) : Prop :=
  NoDup (fst <$> h) /\ Forall (fun kv => lower (fst kv) = fst kv) h.

(** A network that answers the first call with [r] and fails from then on. *)
Definition up_then_down (r : Response) : Network :=
  fun log _ => match log with
               | [] => Ok r
               | _ => Err {| err_message := "Failed to fetch" |}
               end.

(** A network that answers every call with a success status. *)
Definition always_ok (n : Network) : Prop :=
  forall log c, exists response, n log c = Ok response /\ ok response = true.

(** The messages and the toasts of a pass all of whose replays succeed. *)
Definition synced_messages (l : list Stored) : list Message :=
  (fun r => OFFLINE_REQUEST_SYNCED (url (data r)) (method (data r))) <$> l.

Definition synced_toasts (now : Z) (l : list Stored) (p : Page) : Page :=
  fold_left (fun p r => notifyUser (synced_text (data r)) "success" now p) l p.

(** The records of [db] under a key below [limit] were tried at least
    [k] times. *)
Definition tried (k limit : Z) (db : IDB) : Prop :=
  forall r, r ∈ rows db -> id r < limit -> k <= or_zero (retryCount (data r)).

(** Every entry of the cache is filed under the method and the URL of
    its request, as [cache.put] files it. *)
Definition cache_coherent (c : gmap (string * string) (Request * Response)) : Prop :=
  forall k rq resp, c !! k = Some (rq, resp) -> cache_key rq = k.

(** The GET and HEAD requests among [cache.keys()]. *)
Definition cached_reads (w : World) : list Request :=
  List.filter (fun req => String.eqb (req_method req) "GET" || String.eqb (req_method req) "HEAD")
              ((fun kv => fst (snd kv)) <$> map_to_list (cache w)).

(** The world after the refresh of a cached request. *)
Definition refreshed (rq : Request) (w : World) : World :=
  let w1 := set_netlog w (netlog w ++ [FetchRequest rq]) in
  match net w (netlog w) (FetchRequest rq) with
  | Ok response =>
      if cache_put_rejects rq response then set_outbox w1 (outbox w ++ [OFFLINE_USAGE])
      else
        set_outbox (set_cache w1 (<[cache_key rq := (rq, response)]> (cache w)))
                   (outbox w ++ [OFFLINE_REQUEST_SYNCED (req_url rq) (req_method rq)])
  | Err _ => set_outbox w1 (outbox w ++ [OFFLINE_USAGE])
  end.

(** ** Properties of every call of a program *)

(** Every call the program can make, whatever the calls answer,
    satisfies [P]. *)
Fixpoint all_ops (P : forall X, Op X -> Prop) {A} (p : Prog A) : Prop :=
  match p with
  | Ret _ => True
  | Vis op k => P _ op /\ forall x, all_ops P (k x)
  end.

Definition task_all (P : forall X, Op X -> Prop) (t : Task) : Prop :=
  match t with
  | Handler p => all_ops P p
  | Responding p => all_ops P p
  end.

(** The messages that only make the page show a toast. *)
Definition notice (m : Message) : Prop :=
  match m with
  | OFFLINE_REQUEST_SAVED _ _ | OFFLINE_USAGE | OFFLINE_REQUEST_SYNCED _ _ => True
  | SYNC_OFFLINE_REQUESTS | UnknownType _ => False
  end.

Definition posts_notice (X : Type) (op : Op X) : Prop :=
  match op with
  | SendMessageToClients m => notice m
  | _ => True
  end.




(** ** Installing and activating the service worker

    The cache storage of the origin maps cache names to caches; the
    cache [CACHE_NAME] is the one the fetch handler works on. *)

Definition CACHE_NAME : string := "smart-cache-v1".

Record WorkerScope := {
  caches : gmap string (gmap (string * string) (Request * Response));
  waiting : bool;   (* installed, waiting for the old worker's pages to close *)
  claimed : bool;   (* controls the open pages *)
}.

(** The [install] handler: [self.skipWaiting()]. *)
Definition oninstall (s : WorkerScope) : WorkerScope :=
  {| caches := caches s; waiting := false; claimed := claimed s |}.

(** The [activate] handler: the promise given to [waitUntil], with
    [caches.keys()] in the order of the storage. *)
Definition onactivate (s : WorkerScope) : WorkerScope :=
  let names := (map_to_list (caches s)).*1 in
  {| caches := fold_left (fun cs name =>
                            if negb (String.eqb name CACHE_NAME) then delete name cs else cs)
                         names (caches s);
     waiting := waiting s;
     claimed := true |}.

(** ** The toast on screen

    The states of the toast queue, with what the box on screen looks
    like: it carries the text and the colour of the toast displayed
    last, opaque while its 3000 ms timeout is pending and transparent
    while the 500 ms timeout that removes it is. *)
Inductive ui_look : Z * Page -> Prop :=
| look_idle (now : Z) (c : option (list Box)) (nb : nat) (d : list (Z * Toast)) :
    c = None \/ c = Some [] ->
    ui_look
      (now, {| SHOW_NOTIFICATIONS := true; messageQueue := []; isShowingMessage := false;
               container := c; nextBox := nb; timers := []; displayed := d |})
| look_showing (now : Z) (q : list Toast) (box : Box) (tm : Timer) (nb : nat)
               (d0 : list (Z * Toast)) (ts : Z) (toast : Toast) :
    textContent box = message toast ->
    background box = box_background (type toast) ->
    ts <= now ->
    (tm = {| due := ts + 3000; callback := FadeOut (box_id box) |} /\ opacity box = "1" \/
     exists tf, ts + 3000 <= tf /\ tf <= now /\
                tm = {| due := tf + 500; callback := RemoveBox (box_id box) |} /\
                opacity box = "0") ->
    ui_look
      (now, {| SHOW_NOTIFICATIONS := true; messageQueue := q; isShowingMessage := true;
               container := Some [box]; nextBox := nb; timers := [tm];
               displayed := d0 ++ [(ts, toast)] |}).

(** ** The promise given to [respondWith] *)

(** Whatever its calls answer, the program ends, if it ends, with a
    fulfilled promise. *)
Fixpoint fulfils {A} (p : Prog (Res A)) : Prop :=
  match p with
  | Ret (Ok _) => True
  | Ret (Err _) => False
  | Vis op k => forall x, fulfils (k x)
  end.

(** Whatever its calls answer, the program awaits at most [n] times. *)
Fixpoint awaits_within {A} (n : nat) (p : Prog A) : Prop :=
  match p with
  | Ret _ => True
  | Vis op k =>
      if is_sync op then forall x, awaits_within n (k x)
      else match n with
           | O => False
           | S n' => forall x, awaits_within n' (k x)
           end
  end.

(** The program is at an await or at its end. *)
Definition at_await {A} (p : Prog A) : Prop :=
  match p with
  | Ret _ => True
  | Vis op _ => is_sync op = false
  end.

(** The times what task [i] awaits settles in a schedule. *)
Definition settles_of (i : nat) (l : list Input) : nat :=
  List.length (List.filter (fun x => match x with Settle j => Nat.eqb j i | _ => false end) l).

(** Two worlds that differ at most in the messages posted and in the
    page. *)
Definition same_backend (a b : World) : Prop :=
  net a = net b /\ clock a = clock b /\ idb a = idb b /\ cache a = cache b /\
  netlog a = netlog b.

(** * Proofs *)

(** ** Records and setters *)

Lemma set_idb_same (w : World) : set_idb w (idb w) = w.
Proof. destruct w; reflexivity. Qed.


Lemma store_get_none (key : Z) (rs : list Stored) :
  (forall r, r ∈ rs -> id r <> key) -> store_get key rs = None.
Proof.
  unfold store_get. induction rs as [|x rs IH]; intros H; simpl; [reflexivity|].
  destruct (Z.eqb_spec (id x) key) as [E|_].
  - exfalso. apply (H x); [left | exact E].
  - apply IH. intros r Hr. apply H. right. exact Hr.
Qed.

(** C10: [updateRequestRetryCount] called with a key that no record of
    the store has resolves (the database being open) and changes
    neither the store nor anything else: no record is created, none is
    modified. *)
Theorem updateRequestRetryCount_no_record (key retry : Z) (w : World) :
  up (idb w) = true ->
  (forall r, r ∈ rows (idb w) -> id r <> key) ->
  updateRequestRetryCount key retry (idb w) = (Ok tt, idb w) /\
  run (call (UpdateRequestRetryCount key retry)) w = (Ok tt, w).
Proof.
  intros Hup Hno.
  assert (E : updateRequestRetryCount key retry (idb w) = (Ok tt, idb w)).
  { unfold updateRequestRetryCount, openDB. rewrite Hup, (store_get_none _ _ Hno). reflexivity. }
  split; [exact E|].
  simpl. rewrite E. rewrite set_idb_same. reflexivity.
Qed.

Lemma store_put_fresh (r : Stored) (rs : list Stored) :
  Forall (fun x => id x < id r) rs -> store_put r rs = rs ++ [r].
Proof.
  induction 1 as [|x rs Hx _ IH]; simpl; [reflexivity|].
  destruct (Z.ltb_spec (id r) (id x)); [lia|].
  destruct (Z.eqb_spec (id r) (id x)); [lia|].
  rewrite IH. reflexivity.
Qed.

Lemma saveRequest_appends (d : RequestData) (db : IDB) :
  wf_db db -> up db = true ->
  saveRequest d db =
    (Ok tt, {| up := true;
               rows := rows db ++ [{| id := nextKey db; data := d |}];
               nextKey := nextKey db + 1 |}).
Proof.
  intros [_ Hb] Hup. unfold saveRequest, openDB. rewrite Hup.
  rewrite store_get_none.
  - rewrite store_put_fresh; [reflexivity | exact Hb].
  - rewrite Forall_forall in Hb. intros r Hr. specialize (Hb r Hr). lia.
Qed.

(** ** The fetch handler *)

Lemma is_read_false (m : string) :
  m <> "GET" -> m <> "HEAD" -> (String.eqb m "GET" || String.eqb m "HEAD") = false.
Proof.
  intros H1 H2.
  apply orb_false_intro; apply String.eqb_neq; assumption.
Qed.

Lemma is_read_true (m : string) :
  m = "GET" \/ m = "HEAD" -> (String.eqb m "GET" || String.eqb m "HEAD") = true.
Proof. intros [-> | ->]; reflexivity. Qed.

(** [serializeHeaders] and [new Headers] on a platform [Headers]
    object. *)

Lemma obj_set_fresh (k v : string) (o : list (string * string)) :
  k ∉ fst <$> o -> obj_set k v o = o ++ [(k, v)].
Proof.
  induction o as [|[k' v'] o IH]; intros Hk; simpl; [reflexivity|].
  rewrite fmap_cons in Hk. apply not_elem_of_cons in Hk as [Hne Hk]. simpl in Hne.
  destruct (String.eqb_spec k' k); [congruence|]. rewrite IH by exact Hk. reflexivity.
Qed.

Lemma obj_set_get (k v : string) (o : list (string * string)) :
  obj_get k o = Some v -> obj_set k v o = o.
Proof.
  induction o as [|[k' v'] o IH]; simpl; [discriminate|].
  destruct (String.eqb_spec k' k); intros H.
  - congruence.
  - rewrite IH by exact H. reflexivity.
Qed.

Lemma fold_obj_set_nodup (f : string -> string) (h acc : list (string * string)) :
  NoDup (fst <$> (acc ++ h)) -> Forall (fun kv => f (fst kv) = fst kv) h ->
  fold_left (fun o kv => obj_set (f (fst kv)) (snd kv) o) h acc = acc ++ h.
Proof.
  revert acc. induction h as [|[k v] h IH]; intros acc Hnd Hf; simpl.
  - rewrite app_nil_r. reflexivity.
  - inversion Hf as [|? ? Hk Hf']; subst. simpl in Hk. rewrite Hk.
    rewrite obj_set_fresh.
    + rewrite IH; [rewrite <- app_assoc; reflexivity| rewrite <- app_assoc; exact Hnd | exact Hf'].
    + rewrite fmap_app in Hnd. apply NoDup_app in Hnd as (_ & Hd & _).
      intros Hin. apply (Hd k Hin). rewrite fmap_cons. left.
Qed.

Lemma serializeHeaders_id (h : Headers) : NoDup (fst <$> h) -> serializeHeaders h = h.
Proof.
  intros Hnd. unfold serializeHeaders.
  apply (fold_obj_set_nodup (fun k => k) h []); [exact Hnd|].
  apply Forall_forall. reflexivity.
Qed.

Lemma new_Headers_id (h : Headers) : wf_headers h -> new_Headers h = h.
Proof.
  intros [Hnd Hl]. unfold new_Headers. apply (fold_obj_set_nodup lower h []); assumption.
Qed.

(** C5: a request with a method other than GET and HEAD whose network
    call fails.  If its body can be read and the database is open, the
    handler saves a record (URL, method, headers, body text, content
    type, the current time, retry count 0) at the end of the queue,
    the saved headers being those of the request when these are a
    platform [Headers] object; it
    posts [OFFLINE_REQUEST_SAVED] and answers with status 202 and a JSON
    body that starts with the marker [offline: true]; if the body cannot
    be read or the database is not open, it answers with status 500 and
    saves and posts nothing.  In both cases the promise is fulfilled. *)
Theorem mutating_request_offline (request : Request) (w : World) (e : JsError) :
  req_method request <> "GET" -> req_method request <> "HEAD" ->
  net w (netlog w) (FetchRequest request) = Err e ->
  wf_db (idb w) ->
  let w1 := set_netlog w (netlog w ++ [FetchRequest request]) in
  (forall bodyText, req_text request = Ok bodyText -> up (idb w) = true ->
     exists d,
       run (SW.onfetch request) w =
         (Ok SW.response_202,
          set_outbox
            (set_idb w1 {| up := true;
                           rows := rows (idb w) ++ [{| id := nextKey (idb w); data := d |}];
                           nextKey := nextKey (idb w) + 1 |})
            (outbox w ++ [OFFLINE_REQUEST_SAVED (req_url request) (req_method request)])) /\
       url d = req_url request /\ method d = req_method request /\
       headers d = serializeHeaders (req_headers request) /\
       (wf_headers (req_headers request) -> headers d = req_headers request) /\
       body d = Some bodyText /\
       contentType d = default "" (headers_get "Content-Type" (req_headers request)) /\
       timestamp d = Some (clock w) /\ retryCount d = Some 0) /\
  (((exists e', req_text request = Err e') \/ up (idb w) = false) ->
     run (SW.onfetch request) w = (Ok SW.response_500, w1)) /\
  status SW.response_202 = 202 /\
  String.prefix ("{" +:+ dq +:+ "offline" +:+ dq +:+ ":true") (resp_body SW.response_202) = true /\
  status SW.response_500 = 500.
Proof.
  intros Hg Hh Hnet Hwf w1.
  assert (Hrun : run (SW.onfetch request) w =
    run (try_catch
          (bodyText ←? SW.cloneRequestBody request;
           now ← call Date_now;
           call (SaveRequest (SW.snapshot request bodyText now));;?
           SW.sendMessageToClients
             (OFFLINE_REQUEST_SAVED (req_url request) (req_method request));;
           Ret (Ok SW.response_202))
          (fun _ => Ret (Ok SW.response_500))) w1).
  { unfold SW.onfetch. rewrite (is_read_false _ Hg Hh).
    simpl. rewrite Hnet. reflexivity. }
  split; [|split; [|repeat split; reflexivity]].
  - intros bodyText Hbody Hup.
    exists (SW.snapshot request bodyText (clock w)).
    split; [|repeat split; try reflexivity;
             intros Hwfh; apply serializeHeaders_id, Hwfh].
    rewrite Hrun. simpl. rewrite Hbody. simpl.
    rewrite (saveRequest_appends _ _ Hwf Hup). reflexivity.
  - intros Hfail. rewrite Hrun. simpl.
    destruct (req_text request) as [bodyText|e'] eqn:Hbody; simpl; [|reflexivity].
    destruct Hfail as [[e' He']|Hdown]; [discriminate|].
    unfold saveRequest, openDB. rewrite Hdown. reflexivity.
Qed.

(** C6: a GET or HEAD request whose network call fails.  With a cached
    entry for the request the handler posts [OFFLINE_USAGE] and answers
    with the cached response; without one it answers with the locally
    made response of status 503.  The promise is fulfilled either way. *)
Theorem read_request_offline (request : Request) (w : World) (e : JsError) :
  req_method request = "GET" \/ req_method request = "HEAD" ->
  net w (netlog w) (FetchRequest request) = Err e ->
  let w1 := set_netlog w (netlog w ++ [FetchRequest request]) in
  (forall stored cached, cache w !! cache_key request = Some (stored, cached) ->
     run (SW.onfetch request) w =
       (Ok cached, set_outbox w1 (outbox w ++ [OFFLINE_USAGE]))) /\
  (cache w !! cache_key request = None ->
     run (SW.onfetch request) w = (Ok SW.response_503, w1)) /\
  status SW.response_503 = 503 /\
  statusText SW.response_503 = "Service Unavailable" /\
  exists response, fst (run (SW.onfetch request) w) = Ok response.
Proof.
  intros Hm Hnet w1.
  assert (Hrun : run (SW.onfetch request) w =
    match snd <$> cache w !! cache_key request with
    | Some c => (Ok c, set_outbox w1 (outbox w ++ [OFFLINE_USAGE]))
    | None => (Ok SW.response_503, w1)
    end).
  { unfold SW.onfetch. rewrite (is_read_true _ Hm).
    simpl. rewrite Hnet. simpl.
    destruct (cache w !! cache_key request) as [[? ?]|]; reflexivity. }
  repeat split.
  - intros stored cached Hc. rewrite Hrun, Hc. reflexivity.
  - intros Hc. rewrite Hrun, Hc. reflexivity.
  - rewrite Hrun. destruct (cache w !! cache_key request) as [[? c]|]; simpl; eauto.
Qed.

Lemma wf_empty_db : wf_db empty_db.
Proof. split; constructor. Defined.

Lemma updateRequestRetryCount_no_record_witness :
  up (idb (world0 offline empty_db)) = true /\
  (forall r, r ∈ rows (idb (world0 offline empty_db)) -> id r <> 7) /\
  run (call (UpdateRequestRetryCount 7 3)) (world0 offline empty_db)
    = (Ok tt, world0 offline empty_db).
Proof.
  assert (H1 : up (idb (world0 offline empty_db)) = true) by reflexivity.
  assert (H2 : forall r, r ∈ rows (idb (world0 offline empty_db)) -> id r <> 7).
  { intros r Hr. simpl in Hr. inversion Hr. }
  split; [exact H1|]. split; [exact H2|].
  exact (proj2 (updateRequestRetryCount_no_record 7 3 _ H1 H2)).
Defined.

Lemma mutating_request_offline_witness :
  req_method post_orders <> "GET" /\ req_method post_orders <> "HEAD" /\
  net (world0 offline empty_db) (netlog (world0 offline empty_db)) (FetchRequest post_orders)
    = Err {| err_message := "Failed to fetch" |} /\
  wf_db (idb (world0 offline empty_db)) /\
  fst (run (SW.onfetch post_orders) (world0 offline empty_db)) = Ok SW.response_202 /\
  rows (idb (snd (run (SW.onfetch post_orders) (world0 offline empty_db))))
    = [{| id := 1;
          data := {| url := "/orders"; method := "POST";
                     headers := [("content-type", "application/json")];
                     body := Some "{}"; contentType := "application/json";
                     timestamp := Some 1700000000000; retryCount := Some 0 |} |}] /\
  fst (run (SW.onfetch post_orders) (world0 offline closed_db)) = Ok SW.response_500.
Proof.
  assert (H1 : req_method post_orders <> "GET") by discriminate.
  assert (H2 : req_method post_orders <> "HEAD") by discriminate.
  assert (H3 : net (world0 offline empty_db) (netlog (world0 offline empty_db))
                 (FetchRequest post_orders) = Err {| err_message := "Failed to fetch" |})
    by reflexivity.
  split; [exact H1|]. split; [exact H2|]. split; [exact H3|].
  assert (Hwfh : wf_headers (req_headers post_orders)).
  { split; [|repeat constructor]. simpl. repeat constructor; set_solver. }
  split; [exact wf_empty_db|].
  destruct (mutating_request_offline post_orders _ _ H1 H2 H3 wf_empty_db) as [Hq _].
  destruct (Hq "{}" eq_refl eq_refl)
    as (d & Hrun & Hu & Hm & _ & Hh & Hb & Hc & Ht & Hr).
  split; [rewrite Hrun; reflexivity|]. split.
  - rewrite Hrun. cbn [snd idb set_outbox set_idb rows empty_db world0 nextKey app].
    destruct d as [du dm dh db dc dt dr]. simpl in *.
    rewrite Hu, Hm, (Hh Hwfh), Hb, Hc, Ht, Hr. reflexivity.
  - assert (Hwf : wf_db (idb (world0 offline closed_db))) by (split; constructor).
    destruct (mutating_request_offline post_orders
                (world0 offline closed_db) _ H1 H2 eq_refl Hwf) as (_ & H500 & _).
    rewrite (H500 (or_intror eq_refl)). reflexivity.
Defined.

Lemma read_request_offline_witness :
  (req_method get_data = "GET" \/ req_method get_data = "HEAD") /\
  net (world0 offline empty_db) (netlog (world0 offline empty_db)) (FetchRequest get_data)
    = Err {| err_message := "Failed to fetch" |} /\
  fst (run (SW.onfetch get_data) (world0 offline empty_db)) = Ok SW.response_503.
Proof.
  assert (H1 : req_method get_data = "GET" \/ req_method get_data = "HEAD")
    by (left; reflexivity).
  assert (H2 : net (world0 offline empty_db) (netlog (world0 offline empty_db))
                 (FetchRequest get_data) = Err {| err_message := "Failed to fetch" |})
    by reflexivity.
  split; [exact H1|]. split; [exact H2|].
  destruct (read_request_offline get_data _ _ H1 H2) as [_ [Hmiss _]].
  rewrite (Hmiss eq_refl). reflexivity.
Defined.

(** The GET branch stores whatever response the network gives, short
    of a response of status 206. *)
Lemma onfetch_read_stores (request : Request) (w : World) (response : Response) :
  req_method request = "GET" -> status response <> 206 ->
  net w (netlog w) (FetchRequest request) = Ok response ->
  fst (run (SW.onfetch request) w) = Ok response /\
  cache (snd (run (SW.onfetch request) w)) !! cache_key request = Some (request, response).
Proof.
  intros Hm Hst Hnet. unfold SW.onfetch. rewrite (is_read_true _ (or_introl Hm)).
  simpl. rewrite Hnet. simpl. unfold cache_put_rejects. rewrite Hm.
  destruct (Z.eqb_spec (status response) 206); [contradiction|]. simpl.
  split; [reflexivity|]. apply lookup_insert_eq.
Qed.

(** The refresh of one cached request stores whatever response the
    network gives. *)
Lemma refresh_one_stores (request : Request) (w : World) (response : Response) :
  req_method request = "GET" -> status response <> 206 ->
  net w (netlog w) (FetchRequest request) = Ok response ->
  cache (snd (run (SW.refresh_one request) w)) !! cache_key request = Some (request, response).
Proof.
  intros Hm Hst Hnet. unfold SW.refresh_one. simpl. rewrite Hnet. simpl.
  unfold cache_put_rejects. rewrite Hm.
  destruct (Z.eqb_spec (status response) 206); [contradiction|]. simpl.
  apply lookup_insert_eq.
Qed.

(** C2 (the code at the failing inputs): the handler of [GET /data]
    stores a response of status 404, and the refresh pass replaces the
    cached response of status 200 by a response of status 500. *)
Theorem non_success_response_stored :
  ok (plain_response 404) = false /\
  fst (run (SW.onfetch get_data) (world0 (answers 404) empty_db)) = Ok (plain_response 404) /\
  cache (snd (run (SW.onfetch get_data) (world0 (answers 404) empty_db))) !! cache_key get_data
    = Some (get_data, plain_response 404) /\
  ok (plain_response 500) = false /\
  cache (world_cached (answers 500)) !! cache_key get_data = Some (get_data, plain_response 200) /\
  cache (snd (run SW.syncOfflineRequests (world_cached (answers 500)))) !! cache_key get_data
    = Some (get_data, plain_response 500).
Proof.
  split; [reflexivity|].
  destruct (onfetch_read_stores get_data (world0 (answers 404) empty_db) (plain_response 404))
    as [H1 H2]; [reflexivity | discriminate | reflexivity |].
  split; [exact H1|]. split; [exact H2|].
  split; [reflexivity|].
  split; vm_compute; reflexivity.
Qed.

(** ** The toast queue *)

Lemma later_snoc (d : list (Z * Toast)) (t : Z) (x : Toast) :
  StronglySorted later d ->
  Forall (fun a => a.1 + 3500 <= t) d ->
  StronglySorted later (d ++ [(t, x)]).
Proof.
  induction 1 as [|a d Hd IH Ha]; intros Hall; simpl.
  - repeat constructor.
  - inversion Hall as [|? ? Hat Hall']; subst.
    constructor; [apply IH; exact Hall'|].
    apply Forall_app. split; [exact Ha|].
    constructor; [exact Hat | constructor].
Qed.

Lemma before_snoc (d0 : list (Z * Toast)) (ts now : Z) (toast : Toast) :
  Forall (fun a => a.1 + 3500 <= ts) d0 ->
  ts + 3500 <= now ->
  Forall (fun a => a.1 + 3500 <= now) (d0 ++ [(ts, toast)]).
Proof.
  intros H Hts. apply Forall_app. split.
  - eapply Forall_impl; [exact H|]. simpl. intros a Ha. lia.
  - constructor; [simpl; lia | constructor].
Qed.

Lemma ui_step_inv (pubs : list Toast) (s : Z * Page) (i : UiInput) :
  ui_inv pubs s -> ui_inv (pubs ++ published [i]) (ui_step s i).
Proof.
  intros H. destruct H as [now c nb d Hc Hd Hs Hb | now q box tm nb d0 ts toast Hd Htxt Hid Hs Hb Hts Htm].
  - (* nothing on screen *)
    destruct i as [msg ty | dt |]; simpl.
    + unfold notifyUser, showNextMessage; simpl.
      replace (default [] c) with (@nil Box) by (destruct Hc; subst; reflexivity).
      simpl.
      apply (inv_showing _ now [] {| box_id := nb; textContent := msg;
                                    background := box_background ty; opacity := "1" |}
               _ (S nb) d now {| message := msg; type := ty |}); simpl; try lia; auto.
      rewrite fmap_app, app_nil_r. simpl. rewrite Hd. reflexivity.
    + rewrite app_nil_r. constructor; auto.
      eapply Forall_impl; [exact Hb|]. simpl. intros; lia.
    + rewrite app_nil_r. unfold fire_timer; simpl. constructor; auto.
  - (* one box on screen *)
    destruct i as [msg ty | dt |]; simpl.
    + unfold notifyUser; simpl.
      apply (inv_showing _ now (q ++ [{| message := msg; type := ty |}]) box tm nb d0 ts toast);
        auto.
      rewrite <- Hd. rewrite <- app_assoc. reflexivity.
    + rewrite app_nil_r.
      apply (inv_showing _ _ q box tm nb d0 ts toast); auto; try lia.
      destruct Htm as [->|[tf (H1 & H2 & ->)]]; [left; reflexivity|].
      right. exists tf. repeat split; auto; lia.
    + rewrite app_nil_r. unfold fire_timer; simpl.
      destruct (Z.leb_spec (due tm) now) as [Hdue|Hdue].
      2:{ apply (inv_showing _ _ q box tm nb d0 ts toast); auto. }
      destruct Htm as [->|[tf (H1 & H2 & ->)]]; simpl in *.
      * (* the box fades *)
        unfold set_opacity. rewrite Nat.eqb_refl.
        apply (inv_showing _ _ q {| box_id := box_id box; textContent := textContent box;
                                    background := background box; opacity := "0" |}
                 _ nb d0 ts toast); simpl; auto.
        right. exists now. repeat split; auto; lia.
      * (* the box is removed and the next toast shown *)
        rewrite Nat.eqb_refl. simpl.
        unfold showNextMessage; simpl.
        destruct q as [|t' q']; simpl.
        -- constructor; auto.
           ++ rewrite <- Hd, app_nil_r. reflexivity.
           ++ apply later_snoc; assumption.
           ++ apply before_snoc; [assumption | lia].
        -- apply (inv_showing _ now q' {| box_id := nb; textContent := message t';
                                          background := box_background (type t');
                                          opacity := "1" |}
                    _ (S nb) (d0 ++ [(ts, toast)]) now t'); simpl; auto; try lia.
           ++ rewrite <- Hd. rewrite !fmap_app. simpl. rewrite <- !app_assoc. reflexivity.
           ++ apply later_snoc; assumption.
           ++ apply before_snoc; [assumption | lia].
Qed.

Lemma published_app (l1 l2 : list UiInput) :
  published (l1 ++ l2) = published l1 ++ published l2.
Proof.
  induction l1 as [|i l1 IH]; simpl; [reflexivity|].
  destruct i; simpl; rewrite IH; reflexivity.
Qed.

Lemma ui_run_inv (l : list UiInput) (pubs : list Toast) (s : Z * Page) :
  ui_inv pubs s -> ui_inv (pubs ++ published l) (ui_run s l).
Proof.
  revert pubs s. induction l as [|i l IH]; intros pubs s H.
  - simpl. rewrite app_nil_r. exact H.
  - change (ui_run s (i :: l)) with (ui_run (ui_step s i) l).
    replace (pubs ++ published (i :: l)) with ((pubs ++ published [i]) ++ published l).
    + apply IH. apply ui_step_inv. exact H.
    + rewrite <- app_assoc. f_equal. change (i :: l) with ([i] ++ l).
      rewrite published_app. reflexivity.
Qed.

Lemma ui_inv_fresh (t0 : Z) : ui_inv [] (t0, fresh_page true).
Proof. apply inv_idle; [left; reflexivity | reflexivity | constructor | constructor]. Qed.

Lemma ui_run_app (s : Z * Page) (l1 l2 : list UiInput) :
  ui_run s (l1 ++ l2) = ui_run (ui_run s l1) l2.
Proof. unfold ui_run. apply fold_left_app. Qed.

(** A tick runs the pending timeout, if there is one. *)
Lemma tick_progress (pubs : list Toast) (s : Z * Page) :
  ui_inv pubs s ->
  ui_inv pubs (ui_run s tick) /\
  phases (snd (ui_run s tick)) = Nat.pred (phases (snd s)).
Proof.
  intros H. split.
  - apply (ui_run_inv tick) in H. simpl published in H. rewrite app_nil_r in H. exact H.
  - destruct H as [now c nb d Hc Hd Hs Hb | now q box tm nb d0 ts toast Hd Htxt Hid Hs Hb Hts Htm].
    + reflexivity.
    + unfold tick, ui_run; simpl. unfold fire_timer; simpl.
      change (Z.max 0 3000) with 3000.
      destruct Htm as [->|[tf (H1 & H2 & ->)]]; simpl.
      * destruct (Z.leb_spec (ts + 3000) (now + 3000)); [|lia].
        simpl. unfold phases; simpl. lia.
      * destruct (Z.leb_spec (tf + 500) (now + 3000)); [|lia].
        simpl. rewrite Nat.eqb_refl. simpl.
        destruct q as [|t' q']; unfold phases; simpl; lia.
Qed.

Lemma ticks_settle (n : nat) (pubs : list Toast) (s : Z * Page) :
  ui_inv pubs s -> (phases (snd s) <= n)%nat ->
  ui_inv pubs (ui_run s (ticks n)) /\ phases (snd (ui_run s (ticks n))) = 0%nat.
Proof.
  revert s. induction n as [|n IH]; intros s H Hn.
  - simpl. split; [exact H | lia].
  - change (ticks (S n)) with (tick ++ ticks n). rewrite ui_run_app.
    destruct (tick_progress pubs s H) as [H' Hp].
    apply IH; [exact H' | lia].
Qed.

Lemma ui_inv_settled (pubs : list Toast) (s : Z * Page) :
  ui_inv pubs s -> phases (snd s) = 0%nat ->
  (displayed (snd s)).*2 = pubs /\ messageQueue (snd s) = [] /\
  on_screen (snd s) = [] /\ isShowingMessage (snd s) = false.
Proof.
  intros H Hp.
  destruct H as [now c nb d Hc Hd Hs Hb | now q box tm nb d0 ts toast Hd Htxt Hid Hs Hb Hts Htm].
  - simpl. repeat split; auto. destruct Hc; subst; reflexivity.
  - exfalso. unfold phases in Hp; simpl in Hp.
    destruct Htm as [->|[tf (H1 & H2 & ->)]]; simpl in Hp; lia.
Qed.

Lemma ui_inv_phases (pubs : list Toast) (s : Z * Page) :
  ui_inv pubs s -> (phases (snd s) <= 2 * S (List.length (messageQueue (snd s))))%nat.
Proof.
  intros H.
  destruct H as [now c nb d Hc Hd Hs Hb | now q box tm nb d0 ts toast Hd Htxt Hid Hs Hb Hts Htm].
  - unfold phases; simpl. lia.
  - unfold phases; simpl.
    destruct Htm as [->|[tf (H1 & H2 & ->)]]; simpl; lia.
Qed.

Lemma ui_inv_now (pubs : list Toast) (s : Z * Page) :
  ui_inv pubs s ->
  (List.length (on_screen (snd s)) <= 1)%nat /\
  (displayed (snd s)).*2 ++ messageQueue (snd s) = pubs /\
  StronglySorted later (displayed (snd s)) /\
  SHOW_NOTIFICATIONS (snd s) = true /\
  (isShowingMessage (snd s) = false -> messageQueue (snd s) = [] /\ on_screen (snd s) = []).
Proof.
  intros H.
  destruct H as [now c nb d Hc Hd Hs Hb | now q box tm nb d0 ts toast Hd Htxt Hid Hs Hb Hts Htm];
    simpl.
  - repeat split; auto.
    + destruct Hc; subst; simpl; lia.
    + rewrite app_nil_r. exact Hd.
    + destruct Hc; subst; reflexivity.
  - repeat split; auto; try discriminate.
    apply later_snoc; assumption.
Qed.

(** C9, as amended: with notifications enabled, after any sequence of
    [notifyUser] calls, passing time and fired timeouts
    - at most one box is on screen;
    - the toasts displayed so far followed by the pending ones are the
      published toasts, in publish order, each once;
    - each display began at least 3500 ms after the one before;
    - a call of [notifyUser] while no toast is showing displays its
      toast at once, a call while one is showing appends the toast to
      the pending queue and leaves the screen as it is;
    - once enough timeouts have run, every published toast has been
      displayed, in publish order, and the screen is empty. *)
Theorem toasts_displayed_in_order (t0 : Z) (l : list UiInput) :
  let s := ui_run (t0, fresh_page true) l in
  (List.length (on_screen (snd s)) <= 1)%nat /\
  (displayed (snd s)).*2 ++ messageQueue (snd s) = published l /\
  StronglySorted later (displayed (snd s)) /\
  (forall msg ty,
     let toast := {| message := msg; type := ty |} in
     let s1 := ui_step s (Publish msg ty) in
     if isShowingMessage (snd s)
     then messageQueue (snd s1) = messageQueue (snd s) ++ [toast] /\
          displayed (snd s1) = displayed (snd s) /\
          container (snd s1) = container (snd s)
     else displayed (snd s1) = displayed (snd s) ++ [(fst s, toast)] /\
          textContent <$> on_screen (snd s1) = [msg] /\
          messageQueue (snd s1) = []) /\
  (forall n, (2 * S (List.length (messageQueue (snd s))) <= n)%nat ->
     let s' := ui_run s (ticks n) in
     (displayed (snd s')).*2 = published l /\ messageQueue (snd s') = [] /\
     on_screen (snd s') = [] /\ isShowingMessage (snd s') = false).
Proof.
  intros s.
  assert (H : ui_inv (published l) s).
  { apply (ui_run_inv l [] (t0, fresh_page true)), ui_inv_fresh. }
  destruct (ui_inv_now _ _ H) as (H1 & H2 & H3 & H4 & H5).
  split; [exact H1|]. split; [exact H2|]. split; [exact H3|]. split.
  - intros msg ty toast s1. subst s1. simpl. unfold notifyUser. rewrite H4. simpl.
    destruct (isShowingMessage (snd s)) eqn:Hshow; simpl.
    + repeat split; reflexivity.
    + destruct (H5 eq_refl) as [Hq Hscr]. unfold showNextMessage. simpl.
      rewrite Hq. simpl. unfold on_screen in *. simpl. rewrite Hscr. simpl.
      repeat split; reflexivity.
  - intros n Hn s'.
    destruct (ticks_settle n _ s H) as [H' Hp].
    { pose proof (ui_inv_phases _ _ H). lia. }
    apply ui_inv_settled; assumption.
Qed.

(** C9 as stated fails when [showNotifications] is [false]: the
    published toast is neither queued nor displayed, whatever time
    passes. *)
Lemma toast_dropped_when_disabled :
  published [Publish "Synced POST to /orders" "success"]
    = [{| message := "Synced POST to /orders"; type := "success" |}] /\
  forall n,
    let s := ui_run (0, fresh_page false) (Publish "Synced POST to /orders" "success" :: ticks n) in
    displayed (snd s) = [] /\ messageQueue (snd s) = [].
Proof.
  split; [reflexivity|].
  intros n. simpl.
  change (notifyUser "Synced POST to /orders" "success" 0 (fresh_page false))
    with (fresh_page false).
  generalize 0 at 1 2. induction n as [|n IH]; intros t; simpl.
  - split; reflexivity.
  - apply IH.
Qed.

(** ** Lemmas on the object store *)

Lemma store_get_delete_ne (j k : Z) (rs : list Stored) :
  j <> k -> store_get k (store_delete j rs) = store_get k rs.
Proof.
  intros Hjk. unfold store_get, store_delete.
  induction rs as [|x rs IH]; simpl; [reflexivity|].
  destruct (Z.eqb_spec (id x) j) as [Ej|Ej]; simpl.
  - destruct (Z.eqb_spec (id x) k); [lia | exact IH].
  - destruct (Z.eqb_spec (id x) k); [reflexivity | exact IH].
Qed.

Lemma store_get_delete_eq (j : Z) (rs : list Stored) :
  store_get j (store_delete j rs) = None.
Proof.
  unfold store_get, store_delete.
  induction rs as [|x rs IH]; simpl; [reflexivity|].
  destruct (Z.eqb_spec (id x) j) as [Ej|Ej]; simpl; [exact IH|].
  destruct (Z.eqb_spec (id x) j); [lia | exact IH].
Qed.

Lemma store_delete_comm (j k : Z) (rs : list Stored) :
  store_delete j (store_delete k rs) = store_delete k (store_delete j rs).
Proof.
  unfold store_delete. induction rs as [|x rs IH]; simpl; [reflexivity|].
  destruct (Z.eqb_spec (id x) k), (Z.eqb_spec (id x) j); simpl;
    repeat match goal with
           | |- context [Z.eqb ?a ?b] => destruct (Z.eqb_spec a b); try lia; simpl
           end; rewrite ?IH; reflexivity.
Qed.

Lemma store_get_put_eq (x : Stored) (rs : list Stored) :
  store_get (id x) (store_put x rs) = Some x.
Proof.
  unfold store_get. induction rs as [|y rs IH]; simpl.
  - rewrite Z.eqb_refl. reflexivity.
  - destruct (Z.ltb_spec (id x) (id y)); simpl.
    + rewrite Z.eqb_refl. reflexivity.
    + destruct (Z.eqb_spec (id x) (id y)); simpl.
      * rewrite Z.eqb_refl. reflexivity.
      * destruct (Z.eqb_spec (id y) (id x)); [lia | exact IH].
Qed.

Lemma store_get_put_ne (k : Z) (x : Stored) (rs : list Stored) :
  k <> id x -> store_get k (store_put x rs) = store_get k rs.
Proof.
  intros Hk. unfold store_get. induction rs as [|y rs IH]; simpl.
  - destruct (Z.eqb_spec (id x) k); [lia | reflexivity].
  - destruct (Z.ltb_spec (id x) (id y)); simpl.
    + destruct (Z.eqb_spec (id x) k); [lia | reflexivity].
    + destruct (Z.eqb_spec (id x) (id y)) as [E|E]; simpl.
      * destruct (Z.eqb_spec (id x) k); [lia|].
        destruct (Z.eqb_spec (id y) k); [lia | reflexivity].
      * destruct (Z.eqb_spec (id y) k); [reflexivity | exact IH].
Qed.

Lemma store_get_in (k : Z) (r : Stored) (rs : list Stored) :
  store_get k rs = Some r -> r ∈ rs /\ id r = k.
Proof.
  unfold store_get. intros H. apply find_some in H. destruct H as [Hin Hid].
  split; [apply list_elem_of_In; exact Hin | lia].
Qed.

Lemma elem_of_store_delete (j : Z) (r : Stored) (rs : list Stored) :
  r ∈ store_delete j rs <-> r ∈ rs /\ id r <> j.
Proof.
  unfold store_delete. rewrite !list_elem_of_In, filter_In.
  destruct (Z.eqb_spec (id r) j); simpl; intuition congruence.
Qed.

Lemma elem_of_store_put (x r : Stored) (rs : list Stored) :
  r ∈ store_put x rs -> r = x \/ r ∈ rs.
Proof.
  induction rs as [|y rs IH]; simpl; intros Hin.
  - apply list_elem_of_singleton in Hin. left; exact Hin.
  - destruct (Z.ltb_spec (id x) (id y)) as [Hlt|Hge].
    + apply elem_of_cons in Hin. destruct Hin as [Hin|Hin]; [left | right]; assumption.
    + destruct (Z.eqb_spec (id x) (id y)) as [E|E];
        apply elem_of_cons in Hin; destruct Hin as [Hin|Hin].
      * left; exact Hin.
      * right. right. exact Hin.
      * right. subst. left.
      * destruct (IH Hin) as [H'|H']; [left; assumption | right; right; assumption].
Qed.

Lemma sorted_delete (j : Z) (rs : list Stored) :
  sorted_rows rs -> sorted_rows (store_delete j rs).
Proof.
  unfold sorted_rows, store_delete.
  induction 1 as [|x rs Hrs IH Hx]; simpl; [constructor|].
  destruct (negb (id x =? j)); [|exact IH].
  constructor; [exact IH|].
  rewrite Forall_forall in *. intros y Hy. apply Hx.
  apply list_elem_of_In. apply list_elem_of_In in Hy. apply filter_In in Hy. tauto.
Qed.

Lemma sorted_put (x : Stored) (rs : list Stored) :
  sorted_rows rs -> sorted_rows (store_put x rs).
Proof.
  unfold sorted_rows.
  induction 1 as [|y rs Hrs IH Hy]; simpl; [repeat constructor|].
  destruct (Z.ltb_spec (id x) (id y)).
  - constructor; [constructor; assumption|].
    constructor; [assumption|].
    eapply Forall_impl; [exact Hy|]. simpl. intros; lia.
  - destruct (Z.eqb_spec (id x) (id y)) as [E|E].
    + constructor; [assumption|]. rewrite E. exact Hy.
    + constructor; [exact IH|].
      rewrite Forall_forall in *. intros z Hz.
      destruct (elem_of_store_put _ _ _ Hz) as [->|Hz']; [lia | apply Hy; exact Hz'].
Qed.

Lemma store_delete_absent (j : Z) (rs : list Stored) :
  Forall (fun r => id r <> j) rs -> store_delete j rs = rs.
Proof.
  unfold store_delete. induction 1 as [|x rs Hx _ IH]; simpl; [reflexivity|].
  destruct (Z.eqb_spec (id x) j); [contradiction|]. simpl. rewrite IH. reflexivity.
Qed.

Lemma store_put_delete_comm (j : Z) (x : Stored) (rs : list Stored) :
  sorted_rows rs -> id x <> j ->
  store_delete j (store_put x rs) = store_put x (store_delete j rs).
Proof.
  unfold sorted_rows. intros Hs Hx.
  induction Hs as [|y rs Hrs IH Hy]; simpl.
  - unfold store_delete; simpl. destruct (Z.eqb_spec (id x) j); [lia | reflexivity].
  - assert (Hx' : store_delete j (x :: rs) = x :: store_delete j rs).
    { unfold store_delete; simpl. destruct (Z.eqb_spec (id x) j); [lia | reflexivity]. }
    destruct (Z.ltb_spec (id x) (id y)) as [Hlt|Hge].
    + (* [x] goes before [y] and before all the rest *)
      assert (Hafter : store_put x (store_delete j rs) = x :: store_delete j rs).
      { destruct (store_delete j rs) as [|z zs] eqn:Ez; [reflexivity|].
        simpl. assert (Hz : z ∈ rs).
        { apply (elem_of_store_delete j). rewrite Ez. left. }
        rewrite Forall_forall in Hy. specialize (Hy z Hz).
        destruct (Z.ltb_spec (id x) (id z)); [reflexivity | lia]. }
      unfold store_delete at 1. simpl.
      destruct (Z.eqb_spec (id x) j); [lia|]. simpl.
      unfold store_delete at 2. simpl.
      destruct (Z.eqb_spec (id y) j); simpl.
      * fold (store_delete j rs). rewrite Hafter. reflexivity.
      * fold (store_delete j rs).
        destruct (Z.ltb_spec (id x) (id y)); [reflexivity | lia].
    + destruct (Z.eqb_spec (id x) (id y)) as [E|E].
      * rewrite Hx'. unfold store_delete at 2. simpl.
        destruct (Z.eqb_spec (id y) j); [lia|]. simpl.
        destruct (Z.ltb_spec (id x) (id y)); [lia|].
        destruct (Z.eqb_spec (id x) (id y)); [reflexivity | lia].
      * unfold store_delete at 1 2. simpl.
        destruct (Z.eqb_spec (id y) j); simpl.
        -- exact IH.
        -- destruct (Z.ltb_spec (id x) (id y)); [lia|].
           destruct (Z.eqb_spec (id x) (id y)); [lia|].
           f_equal. exact IH.
Qed.

Lemma sorted_app_middle (l1 l2 : list Stored) (r : Stored) :
  sorted_rows (l1 ++ r :: l2) ->
  Forall (fun x => id x <> id r) l1 /\ Forall (fun x => id x <> id r) l2.
Proof.
  unfold sorted_rows. intros H.
  apply StronglySorted_app in H. destruct H as (H3 & H1 & H2).
  split.
  - rewrite Forall_forall. intros x Hx.
    specialize (H3 x r Hx (list_elem_of_here _ _)). lia.
  - inversion H2 as [|? ? _ Hall]; subst.
    eapply Forall_impl; [exact Hall|]. simpl. intros; lia.
Qed.

Lemma store_delete_middle (l1 l2 : list Stored) (r : Stored) :
  sorted_rows (l1 ++ r :: l2) -> store_delete (id r) (l1 ++ r :: l2) = l1 ++ l2.
Proof.
  intros H. destruct (sorted_app_middle _ _ _ H) as [H1 H2].
  unfold store_delete. rewrite List.filter_app. simpl.
  rewrite Z.eqb_refl. simpl.
  fold (store_delete (id r) l1). fold (store_delete (id r) l2).
  rewrite !store_delete_absent by assumption. reflexivity.
Qed.

Lemma store_get_middle (l1 l2 : list Stored) (r : Stored) :
  sorted_rows (l1 ++ r :: l2) -> store_get (id r) (l1 ++ r :: l2) = Some r.
Proof.
  intros H. destruct (sorted_app_middle _ _ _ H) as [H1 _].
  unfold store_get. induction H1 as [|x l1 Hx _ IH]; simpl.
  - rewrite Z.eqb_refl. reflexivity.
  - destruct (Z.eqb_spec (id x) (id r)); [contradiction|].
    apply IH. inversion H; subst. assumption.
Qed.

(** ** Running programs *)

Lemma run_bind {A B} (p : Prog A) (f : A -> Prog B) (w : World) :
  run (bind p f) w = let (a, w') := run p w in run (f a) w'.
Proof.
  revert w. induction p as [a|X op k IH]; intros w; simpl; [reflexivity|].
  destruct (exec op w) as [x w']. apply IH.
Qed.

Lemma run_await {A B} (p : Prog (Res A)) (f : A -> Prog (Res B)) (w : World) :
  run (await p f) w =
    let (r, w') := run p w in
    match r with Ok a => run (f a) w' | Err e => (Err e, w') end.
Proof.
  unfold await. rewrite run_bind. destruct (run p w) as [[a|e] w']; reflexivity.
Qed.

(** ** The database without one record *)

Lemma retried_up (r : Stored) (db : IDB) : up (retried r db) = up db.
Proof.
  unfold retried, updateRequestRetryCount, openDB.
  destruct (up db) eqn:Hup; simpl; [|exact Hup].
  destruct (store_get (id r) (rows db)); simpl; assumption.
Qed.

Lemma retried_nextKey (r : Stored) (db : IDB) : nextKey (retried r db) = nextKey db.
Proof.
  unfold retried, updateRequestRetryCount, openDB.
  destruct (up db); simpl; [|reflexivity].
  destruct (store_get (id r) (rows db)); reflexivity.
Qed.

Lemma retried_without (j : Z) (r : Stored) (db : IDB) :
  j <> id r -> sorted_rows (rows db) ->
  retried r (db_without j db) = db_without j (retried r db).
Proof.
  intros Hj Hs. unfold retried, updateRequestRetryCount, db_without, openDB. simpl.
  destruct (up db); simpl; [|reflexivity].
  rewrite store_get_delete_ne by exact Hj.
  destruct (store_get (id r) (rows db)) as [r0|] eqn:Hget; simpl; [|reflexivity].
  unfold set_rows; simpl.
  rewrite store_put_delete_comm; [reflexivity | exact Hs |].
  simpl. apply store_get_in in Hget. lia.
Qed.

Lemma db_without_comm (j k : Z) (db : IDB) :
  db_without j (db_without k db) = db_without k (db_without j db).
Proof. unfold db_without, set_rows. simpl. rewrite store_delete_comm. reflexivity. Qed.

Lemma deleteRequest_up (k : Z) (db : IDB) :
  up db = true -> deleteRequest k db = (Ok tt, db_without k db).
Proof. intros Hup. unfold deleteRequest, openDB. rewrite Hup. reflexivity. Qed.

Lemma updateRequestRetryCount_up (r : Stored) (db : IDB) :
  up db = true ->
  updateRequestRetryCount (id r) (or_zero (retryCount (data r)) + 1) db = (Ok tt, retried r db).
Proof.
  intros Hup. unfold retried, updateRequestRetryCount, openDB. rewrite Hup.
  destruct (store_get (id r) (rows db)); reflexivity.
Qed.

(** ** The replay of one entry *)

Ltac unfold_prog :=
  unfold SW.sendMessageToClients, SW.cachePut, SW.cacheMatch, SW.cloneRequestBody,
    await, try_catch, call, mbind, Prog_bind.

Lemma sw_replay_one_local : entry_local SW.replay_one sw_call sw_after.
Proof.
  split.
  - intros r w Hup. unfold SW.replay_one, sw_after, sw_call. unfold_prog.
    simpl.
    destruct (net w _ _) as [response|e]; [destruct (ok response)|]; simpl;
      rewrite ?deleteRequest_up, ?updateRequestRetryCount_up by exact Hup; reflexivity.
  - intros r w. unfold sw_after.
    destruct (net w _ _) as [response|e]; [destruct (ok response)|]; simpl;
      rewrite ?retried_up, ?retried_nextKey; auto.
  - intros r w. unfold sw_after.
    destruct (net w _ _) as [response|e]; [destruct (ok response)|]; reflexivity.
  - intros r w. unfold sw_after.
    destruct (net w _ _) as [response|e]; [destruct (ok response)|]; simpl; auto.
  - intros r w j Hj Hs. unfold sw_after, without. simpl.
    destruct (net w _ _) as [response|e]; [destruct (ok response)|]; simpl;
      unfold set_idb, set_outbox; simpl;
      rewrite ?retried_without, ?(db_without_comm j) by assumption; reflexivity.
Qed.

Lemma page_replay_one_local : entry_local SmartCache.replay_one page_call page_after.
Proof.
  split.
  - intros r w Hup.
    unfold SmartCache.replay_one, page_after, page_call.
    unfold synced_text, failed_text, error_text. unfold_prog.
    simpl.
    destruct (net w _ _) as [response|e]; [destruct (ok response)|]; simpl;
      rewrite ?deleteRequest_up, ?updateRequestRetryCount_up by exact Hup; reflexivity.
  - intros r w. unfold page_after.
    destruct (net w _ _) as [response|e]; [destruct (ok response)|]; simpl;
      rewrite ?retried_up, ?retried_nextKey; auto.
  - intros r w. unfold page_after.
    destruct (net w _ _) as [response|e]; [destruct (ok response)|]; reflexivity.
  - intros r w. unfold page_after.
    destruct (net w _ _) as [response|e]; [destruct (ok response)|]; simpl; auto.
  - intros r w j Hj Hs. unfold page_after, without. simpl.
    destruct (net w _ _) as [response|e]; [destruct (ok response)|]; simpl;
      unfold set_idb, set_page; simpl;
      rewrite ?retried_without, ?(db_without_comm j) by assumption; reflexivity.
Qed.

(** ** The loop of a pass *)

Lemma sw_loop_replay_for (now : Z) (l : list Stored) :
  SW.syncStoredPosts_for now l = replay_for SW.replay_one now l.
Proof.
  induction l as [|r l IH]; simpl; [reflexivity|].
  unfold expired. rewrite IH.
  destruct (age_exceeds now (timestamp (data r)) MAX_AGE); simpl; [reflexivity|].
  destruct (MAX_RETRIES <=? or_zero (retryCount (data r))); reflexivity.
Qed.

Lemma js_ge_or_zero (x : option Z) (m : Z) :
  0 < m -> js_ge x m = (m <=? or_zero x).
Proof.
  intros Hm. destruct x as [n|]; simpl.
  - destruct (Z.eqb_spec n 0); [subst|reflexivity].
    destruct (Z.leb_spec m 0); [lia | reflexivity].
  - destruct (Z.leb_spec m 0); [lia | reflexivity].
Qed.

Lemma page_loop_replay_for (now : Z) (l : list Stored) :
  SmartCache.syncOfflineRequests_for now l = replay_for SmartCache.replay_one now l.
Proof.
  induction l as [|r l IH]; simpl; [reflexivity|].
  unfold expired. rewrite IH, js_ge_or_zero by reflexivity.
  rewrite orb_comm. reflexivity.
Qed.


Lemma retried_rows (r : Stored) (db : IDB) :
  rows (retried r db) = rows db \/
  exists r0, store_get (id r) (rows db) = Some r0 /\
    rows (retried r db) =
      store_put {| id := id r0;
                   data := set_retryCount (data r0) (or_zero (retryCount (data r)) + 1) |}
                (rows db).
Proof.
  unfold retried, updateRequestRetryCount, openDB.
  destruct (up db); simpl; [|left; reflexivity].
  destruct (store_get (id r) (rows db)) as [r0|] eqn:Hget; simpl; [|left; reflexivity].
  right. exists r0. split; reflexivity.
Qed.

Lemma retried_sorted (r : Stored) (db : IDB) :
  sorted_rows (rows db) -> sorted_rows (rows (retried r db)).
Proof.
  intros Hs. destruct (retried_rows r db) as [->|(r0 & _ & ->)]; [exact Hs|].
  apply sorted_put. exact Hs.
Qed.

Lemma retried_get_ne (j : Z) (r : Stored) (db : IDB) :
  j <> id r -> store_get j (rows (retried r db)) = store_get j (rows db).
Proof.
  intros Hj. destruct (retried_rows r db) as [->|(r0 & Hget & ->)]; [reflexivity|].
  apply store_get_put_ne. simpl. apply store_get_in in Hget. lia.
Qed.

Section Loop.

Variable one : Stored -> Prog (Res unit).
Variable call_of : RequestData -> Call.
Variable after : Stored -> World -> World.
Hypothesis local : entry_local one call_of after.

Lemma replay_for_run (now : Z) (l : list Stored) (w : World) :
  up (idb w) = true ->
  run (replay_for one now l) w = (Ok tt, replayed after now l w).
Proof.
  revert w. induction l as [|r l IH]; intros w Hup; simpl; [reflexivity|].
  destruct (expired now (data r)).
  - rewrite run_await. simpl. rewrite deleteRequest_up by exact Hup.
    apply IH. exact Hup.
  - rewrite run_await, (el_run _ _ _ local) by exact Hup.
    apply IH. destruct (el_env _ _ _ local r w) as (_ & _ & -> & _). exact Hup.
Qed.

Lemma replayed_app (now : Z) (l1 l2 : list Stored) (w : World) :
  replayed after now (l1 ++ l2) w = replayed after now l2 (replayed after now l1 w).
Proof. revert w. induction l1 as [|r l1 IH]; intros w; simpl; [reflexivity | apply IH]. Qed.

Lemma replayed_env (now : Z) (l : list Stored) (w : World) :
  let w' := replayed after now l w in
  net w' = net w /\ clock w' = clock w /\ up (idb w') = up (idb w) /\
  nextKey (idb w') = nextKey (idb w) /\ cache w' = cache w.
Proof.
  revert w. induction l as [|r l IH]; intros w; simpl; [repeat split|].
  destruct (IH (if expired now (data r) then without (id r) w else after r w))
    as (H1 & H2 & H3 & H4 & H5).
  destruct (expired now (data r)).
  - repeat split; assumption.
  - destruct (el_env _ _ _ local r w) as (E1 & E2 & E3 & E4 & E5).
    repeat split; congruence.
Qed.


Lemma after_sorted (r : Stored) (w : World) :
  sorted_rows (rows (idb w)) -> sorted_rows (rows (idb (after r w))).
Proof.
  intros Hs. destruct (el_rows _ _ _ local r w) as [-> | ->].
  - apply sorted_delete. exact Hs.
  - apply retried_sorted. exact Hs.
Qed.

Lemma after_get_ne (j : Z) (r : Stored) (w : World) :
  j <> id r -> store_get j (rows (idb (after r w))) = store_get j (rows (idb w)).
Proof.
  intros Hj. destruct (el_rows _ _ _ local r w) as [-> | ->].
  - apply store_get_delete_ne. lia.
  - apply retried_get_ne. exact Hj.
Qed.

Lemma replayed_sorted (now : Z) (l : list Stored) (w : World) :
  sorted_rows (rows (idb w)) -> sorted_rows (rows (idb (replayed after now l w))).
Proof.
  revert w. induction l as [|r l IH]; intros w Hs; simpl; [exact Hs|].
  apply IH. destruct (expired now (data r)).
  - apply sorted_delete. exact Hs.
  - apply after_sorted. exact Hs.
Qed.

(** The loop leaves the records of other keys as they are. *)
Lemma replayed_get_ne (now : Z) (j : Z) (l : list Stored) (w : World) :
  Forall (fun r => id r <> j) l ->
  store_get j (rows (idb (replayed after now l w))) = store_get j (rows (idb w)).
Proof.
  intros Hl. revert w. induction Hl as [|r l Hr _ IH]; intros w; simpl; [reflexivity|].
  rewrite IH. destruct (expired now (data r)).
  - apply store_get_delete_ne. exact Hr.
  - apply after_get_ne. lia.
Qed.

(** The loop does the same in a store that lacks a record of another key. *)
Lemma replayed_without (now : Z) (j : Z) (l : list Stored) (w : World) :
  Forall (fun r => id r <> j) l -> sorted_rows (rows (idb w)) ->
  replayed after now l (without j w) = without j (replayed after now l w).
Proof.
  intros Hl. revert w. induction Hl as [|r l Hr _ IH]; intros w Hs; simpl; [reflexivity|].
  destruct (expired now (data r)).
  - replace (without (id r) (without j w)) with (without j (without (id r) w)).
    + apply IH. apply sorted_delete. exact Hs.
    + unfold without. simpl. unfold set_idb. simpl. rewrite (db_without_comm j). reflexivity.
  - rewrite (el_without _ _ _ local) by (auto; lia).
    apply IH. apply after_sorted. exact Hs.
Qed.

(** An expired entry leaves no trace: the loop over a sorted snapshot
    [l1 ++ r :: l2] of the store ends in the world in which the loop
    over [l1 ++ l2] ends when the store lacks [r] from the start. *)
Lemma replayed_expired (now : Z) (l1 l2 : list Stored) (r : Stored) (w : World) :
  sorted_rows (l1 ++ r :: l2) -> sorted_rows (rows (idb w)) ->
  expired now (data r) = true ->
  replayed after now (l1 ++ r :: l2) w = replayed after now (l1 ++ l2) (without (id r) w).
Proof.
  intros Hl Hs He. destruct (sorted_app_middle _ _ _ Hl) as [H1 _].
  rewrite !replayed_app. simpl. rewrite He.
  rewrite (replayed_without now (id r) l1 w H1 Hs). reflexivity.
Qed.

End Loop.

(** ** A pass run alone *)

Lemma sw_pass_run (w : World) :
  up (idb w) = true ->
  run SW.syncStoredPosts w = (Ok tt, replayed sw_after (clock w) (rows (idb w)) w).
Proof.
  intros Hup. unfold SW.syncStoredPosts. rewrite run_await. simpl.
  unfold getAllRequests, openDB. rewrite Hup, set_idb_same.
  rewrite sw_loop_replay_for.
  apply (replay_for_run _ _ _ sw_replay_one_local). exact Hup.
Qed.

Lemma page_pass_run (w : World) :
  up (idb w) = true ->
  run SmartCache.syncOfflineRequests w =
    (Ok tt, replayed page_after (clock w) (rows (idb w)) w).
Proof.
  intros Hup. unfold SmartCache.syncOfflineRequests. rewrite run_await. simpl.
  unfold getAllRequests, openDB. rewrite Hup, set_idb_same.
  rewrite page_loop_replay_for.
  apply (replay_for_run _ _ _ page_replay_one_local). exact Hup.
Qed.

Lemma sw_full_pass_congr (w w' : World) :
  run SW.syncStoredPosts w = run SW.syncStoredPosts w' ->
  run SW.syncOfflineRequests w = run SW.syncOfflineRequests w'.
Proof.
  intros H. unfold SW.syncOfflineRequests. rewrite !run_await, H. reflexivity.
Qed.

(** ** Saving requests *)

Lemma saveRequest_wf (d : RequestData) (db : IDB) :
  wf_db db -> up db = true ->
  wf_db (snd (saveRequest d db)) /\ up (snd (saveRequest d db)) = true /\
  data <$> rows (snd (saveRequest d db)) = (data <$> rows db) ++ [d].
Proof.
  intros Hwf Hup. rewrite (saveRequest_appends d db Hwf Hup). simpl.
  destruct Hwf as [Hs Hb]. split; [split|split]; simpl.
  - apply StronglySorted_app. split; [|split; [exact Hs | repeat constructor]].
    intros x1 x2 H1 H2. apply list_elem_of_singleton in H2. subst x2. simpl.
    rewrite Forall_forall in Hb. apply Hb. exact H1.
  - apply Forall_app. split.
    + eapply Forall_impl; [exact Hb|]. simpl. intros; lia.
    + constructor; [simpl; lia | constructor].
  - reflexivity.
  - rewrite fmap_app. reflexivity.
Qed.

Lemma save_all_wf (ds : list RequestData) (db : IDB) :
  wf_db db -> up db = true ->
  wf_db (save_all ds db) /\ up (save_all ds db) = true /\
  data <$> rows (save_all ds db) = (data <$> rows db) ++ ds.
Proof.
  revert db. induction ds as [|d ds IH]; intros db Hwf Hup; simpl.
  - rewrite app_nil_r. auto.
  - destruct (saveRequest_wf d db Hwf Hup) as (H1 & H2 & H3).
    destruct (IH _ H1 H2) as (H4 & H5 & H6).
    split; [exact H4|]. split; [exact H5|].
    rewrite H6, H3, <- app_assoc. reflexivity.
Qed.




(** ** Expired entries *)

Lemma sw_pass_expired (w : World) (r : Stored) :
  up (idb w) = true -> sorted_rows (rows (idb w)) -> r ∈ rows (idb w) ->
  expired (clock w) (data r) = true ->
  run SW.syncStoredPosts w = run SW.syncStoredPosts (without (id r) w) /\
  store_get (id r) (rows (idb (snd (run SW.syncStoredPosts w)))) = None.
Proof.
  intros Hup Hs Hin He.
  apply list_elem_of_split in Hin. destruct Hin as (l1 & l2 & Hrows).
  assert (E : run SW.syncStoredPosts w = run SW.syncStoredPosts (without (id r) w)).
  { rewrite !sw_pass_run by exact Hup. f_equal. simpl.
    rewrite Hrows at 2. rewrite store_delete_middle by (rewrite <- Hrows; exact Hs).
    rewrite Hrows. apply (replayed_expired _ _ _ sw_replay_one_local).
    - rewrite <- Hrows. exact Hs.
    - exact Hs.
    - exact He. }
  split; [exact E|].
  rewrite E, sw_pass_run by exact Hup. simpl.
  rewrite (replayed_get_ne _ _ _ sw_replay_one_local).
  - simpl. apply store_get_delete_eq.
  - rewrite Forall_forall. intros x Hx. apply elem_of_store_delete in Hx. tauto.
Qed.

Lemma page_pass_expired (w : World) (r : Stored) :
  up (idb w) = true -> sorted_rows (rows (idb w)) -> r ∈ rows (idb w) ->
  expired (clock w) (data r) = true ->
  run SmartCache.syncOfflineRequests w = run SmartCache.syncOfflineRequests (without (id r) w) /\
  store_get (id r) (rows (idb (snd (run SmartCache.syncOfflineRequests w)))) = None.
Proof.
  intros Hup Hs Hin He.
  apply list_elem_of_split in Hin. destruct Hin as (l1 & l2 & Hrows).
  assert (E : run SmartCache.syncOfflineRequests w
              = run SmartCache.syncOfflineRequests (without (id r) w)).
  { rewrite !page_pass_run by exact Hup. f_equal. simpl.
    rewrite Hrows at 2. rewrite store_delete_middle by (rewrite <- Hrows; exact Hs).
    rewrite Hrows. apply (replayed_expired _ _ _ page_replay_one_local).
    - rewrite <- Hrows. exact Hs.
    - exact Hs.
    - exact He. }
  split; [exact E|].
  rewrite E, page_pass_run by exact Hup. simpl.
  rewrite (replayed_get_ne _ _ _ page_replay_one_local).
  - simpl. apply store_get_delete_eq.
  - rewrite Forall_forall. intros x Hx. apply elem_of_store_delete in Hx. tauto.
Qed.

Lemma expired_by_age (now t : Z) (d : RequestData) :
  timestamp d = Some t -> MAX_AGE < now - t -> expired now d = true.
Proof.
  intros Ht Hage. unfold expired, age_exceeds. rewrite Ht.
  destruct (Z.ltb_spec MAX_AGE (now - t)); [reflexivity | lia].
Qed.

Lemma expired_by_retries (now n : Z) (d : RequestData) :
  retryCount d = Some n -> MAX_RETRIES <= n -> expired now d = true.
Proof.
  intros Hn Hge. unfold expired. rewrite Hn. apply orb_true_iff. right.
  unfold or_zero. destruct (Z.eqb_spec n 0).
  - subst. unfold MAX_RETRIES in Hge. lia.
  - apply Z.leb_le. exact Hge.
Qed.

(** The scenario of the last retry, for a pass given by its loop lemmas. *)
Lemma last_retry_then_dropped
    (one : Stored -> Prog (Res unit)) (call_of : RequestData -> Call)
    (after : Stored -> World -> World) (w : World) (r : Stored) :
  entry_local one call_of after ->
  (forall w', fetch_failed (net w' (netlog w') (call_of (data r))) ->
     idb (after r w') = retried r (idb w')) ->
  up (idb w) = true -> rows (idb w) = [r] ->
  age_exceeds (clock w) (timestamp (data r)) MAX_AGE = false ->
  retryCount (data r) = Some (MAX_RETRIES - 1) ->
  fetch_failed (net w (netlog w) (call_of (data r))) ->
  let w1 := replayed after (clock w) (rows (idb w)) w in
  rows (idb w1) = [{| id := id r; data := set_retryCount (data r) MAX_RETRIES |}] /\
  up (idb w1) = true /\
  forall w2, idb w2 = idb w1 ->
    replayed after (clock w2) (rows (idb w2)) w2 = without (id r) w2 /\
    rows (idb (without (id r) w2)) = [].
Proof.
  intros Hloc Hfail Hup Hrows Hage Hrc Hnet w1.
  assert (Hlive : expired (clock w) (data r) = false).
  { unfold expired. rewrite Hage, Hrc. reflexivity. }
  assert (Hw1 : idb w1 = retried r (idb w)).
  { subst w1. rewrite Hrows. simpl. rewrite Hlive. apply Hfail. exact Hnet. }
  assert (Hrows1 : rows (idb w1)
                   = [{| id := id r; data := set_retryCount (data r) MAX_RETRIES |}]).
  { rewrite Hw1. unfold retried, updateRequestRetryCount, openDB. rewrite Hup, Hrows. simpl.
    rewrite Z.eqb_refl. simpl. rewrite Z.ltb_irrefl, Z.eqb_refl.
    rewrite Hrc. reflexivity. }
  split; [exact Hrows1|]. split.
  { rewrite Hw1, retried_up. exact Hup. }
  intros w2 Hw2. rewrite Hw2, Hrows1. simpl.
  rewrite (expired_by_retries _ MAX_RETRIES) by (reflexivity || lia). simpl.
  split; [reflexivity|].
  rewrite Hw2, Hrows1. unfold store_delete. simpl. rewrite Z.eqb_refl. reflexivity.
Qed.

Lemma sw_after_failed (r : Stored) (w : World) :
  fetch_failed (net w (netlog w) (sw_call (data r))) ->
  sw_after r w = set_idb (set_netlog w (netlog w ++ [sw_call (data r)])) (retried r (idb w)).
Proof.
  unfold sw_after, fetch_failed.
  destruct (net w (netlog w) (sw_call (data r))) as [response|e]; [|reflexivity].
  intros ->. reflexivity.
Qed.

Lemma page_after_failed (r : Stored) (w : World) :
  fetch_failed (net w (netlog w) (page_call (data r))) ->
  exists text,
    page_after r w =
      set_page (set_idb (set_netlog w (netlog w ++ [page_call (data r)])) (retried r (idb w)))
               (notifyUser text "error" (clock w) (page w)) /\
    match net w (netlog w) (page_call (data r)) with
    | Ok response => text = failed_text (data r) response
    | Err e => text = error_text (data r) e
    end.
Proof.
  unfold page_after, fetch_failed.
  destruct (net w (netlog w) (page_call (data r))) as [response|e].
  - intros ->. eexists. split; reflexivity.
  - intros _. eexists. split; reflexivity.
Qed.

(** C4: an entry older than [MAX_AGE], or with a retry count that has
    reached [MAX_RETRIES], is dropped by the next pass and leaves no
    other trace: the pass ends exactly as it ends on the store without
    the entry (same result, same calls, same messages and toasts, same
    store), and the entry is not in the store afterwards.  In
    particular an entry with retry count [MAX_RETRIES - 1] whose replay
    fails has retry count [MAX_RETRIES] after the pass, and the pass
    after that, at whatever time and on whatever network, empties the
    store without a call, a message or a toast.  Both hold for the pass
    of the service worker and for the pass of the page. *)
Theorem expired_entry_dropped :
  (forall (w : World) (r : Stored),
     up (idb w) = true -> sorted_rows (rows (idb w)) -> r ∈ rows (idb w) ->
     (exists t, timestamp (data r) = Some t /\ MAX_AGE < clock w - t) \/
     (exists n, retryCount (data r) = Some n /\ MAX_RETRIES <= n) ->
     run SW.syncStoredPosts w = run SW.syncStoredPosts (without (id r) w) /\
     run SW.syncOfflineRequests w = run SW.syncOfflineRequests (without (id r) w) /\
     run SmartCache.syncOfflineRequests w
       = run SmartCache.syncOfflineRequests (without (id r) w) /\
     store_get (id r) (rows (idb (snd (run SW.syncStoredPosts w)))) = None /\
     store_get (id r) (rows (idb (snd (run SmartCache.syncOfflineRequests w)))) = None) /\
  (forall (w : World) (r : Stored),
     up (idb w) = true -> rows (idb w) = [r] ->
     age_exceeds (clock w) (timestamp (data r)) MAX_AGE = false ->
     retryCount (data r) = Some (MAX_RETRIES - 1) ->
     (fetch_failed (net w (netlog w) (sw_call (data r))) ->
      let w1 := snd (run SW.syncStoredPosts w) in
      rows (idb w1) = [{| id := id r; data := set_retryCount (data r) MAX_RETRIES |}] /\
      forall w2, idb w2 = idb w1 ->
        let w3 := snd (run SW.syncStoredPosts w2) in
        rows (idb w3) = [] /\ netlog w3 = netlog w2 /\ outbox w3 = outbox w2 /\
        page w3 = page w2) /\
     (fetch_failed (net w (netlog w) (page_call (data r))) ->
      let w1 := snd (run SmartCache.syncOfflineRequests w) in
      rows (idb w1) = [{| id := id r; data := set_retryCount (data r) MAX_RETRIES |}] /\
      forall w2, idb w2 = idb w1 ->
        let w3 := snd (run SmartCache.syncOfflineRequests w2) in
        rows (idb w3) = [] /\ netlog w3 = netlog w2 /\ outbox w3 = outbox w2 /\
        page w3 = page w2)).
Proof.
  split.
  - intros w r Hup Hs Hin Hexp.
    assert (He : expired (clock w) (data r) = true).
    { destruct Hexp as [(t & Ht & Hage)|(n & Hn & Hge)].
      - eapply expired_by_age; eassumption.
      - eapply expired_by_retries; eassumption. }
    destruct (sw_pass_expired w r Hup Hs Hin He) as [E1 G1].
    destruct (page_pass_expired w r Hup Hs Hin He) as [E2 G2].
    repeat split; try assumption.
    apply sw_full_pass_congr. exact E1.
  - intros w r Hup Hrows Hage Hrc. split.
    + intros Hnet w1. subst w1. rewrite sw_pass_run by exact Hup. cbn [snd].
      destruct (last_retry_then_dropped _ _ _ w r sw_replay_one_local) as (H1 & H2 & H3);
        try assumption.
      { intros w' Hf. rewrite sw_after_failed by exact Hf. reflexivity. }
      split; [exact H1|].
      intros w2 Hw2. cbv zeta.
      rewrite sw_pass_run by (rewrite Hw2; exact H2). cbn [snd].
      destruct (H3 w2 Hw2) as [-> ->]. repeat split.
    + intros Hnet w1. subst w1. rewrite page_pass_run by exact Hup. cbn [snd].
      destruct (last_retry_then_dropped _ _ _ w r page_replay_one_local) as (H1 & H2 & H3);
        try assumption.
      { intros w' Hf. destruct (page_after_failed r w' Hf) as (text & -> & _). reflexivity. }
      split; [exact H1|].
      intros w2 Hw2. cbv zeta.
      rewrite page_pass_run by (rewrite Hw2; exact H2). cbn [snd].
      destruct (H3 w2 Hw2) as [-> ->]. repeat split.
Qed.

Lemma expired_entry_dropped_witness :
  let w := world_queued offline [saved_post "/orders/a" 1699999990000 5] in
  let r := {| id := 1; data := saved_post "/orders/a" 1699999990000 5 |} in
  let w4 := world_queued offline [saved_post "/orders/a" 1699999990000 4] in
  let r4 := {| id := 1; data := saved_post "/orders/a" 1699999990000 4 |} in
  up (idb w) = true /\ sorted_rows (rows (idb w)) /\ r ∈ rows (idb w) /\
  (exists n, retryCount (data r) = Some n /\ MAX_RETRIES <= n) /\
  store_get 1 (rows (idb (snd (run SW.syncStoredPosts w)))) = None /\
  up (idb w4) = true /\ rows (idb w4) = [r4] /\
  age_exceeds (clock w4) (timestamp (data r4)) MAX_AGE = false /\
  retryCount (data r4) = Some (MAX_RETRIES - 1) /\
  fetch_failed (net w4 (netlog w4) (sw_call (data r4))) /\
  rows (idb (snd (run SW.syncStoredPosts w4)))
    = [{| id := 1; data := saved_post "/orders/a" 1699999990000 5 |}].
Proof.
  intros w r w4 r4.
  assert (H1 : up (idb w) = true) by reflexivity.
  assert (H2 : sorted_rows (rows (idb w))) by (repeat constructor).
  assert (H3 : r ∈ rows (idb w)) by (apply list_elem_of_here).
  assert (H4 : exists n, retryCount (data r) = Some n /\ MAX_RETRIES <= n).
  { exists 5. split; [reflexivity | unfold MAX_RETRIES; lia]. }
  split; [exact H1|]. split; [exact H2|]. split; [exact H3|]. split; [exact H4|].
  split.
  { destruct (proj1 expired_entry_dropped w r H1 H2 H3 (or_intror H4)) as (_ & _ & _ & H & _).
    exact H. }
  assert (G1 : up (idb w4) = true) by reflexivity.
  assert (G2 : rows (idb w4) = [r4]) by reflexivity.
  assert (G3 : age_exceeds (clock w4) (timestamp (data r4)) MAX_AGE = false) by reflexivity.
  assert (G4 : retryCount (data r4) = Some (MAX_RETRIES - 1)) by reflexivity.
  split; [exact G1|]. split; [exact G2|]. split; [exact G3|]. split; [exact G4|].
  split; [exact I|].
  exact (proj1 (proj1 (proj2 expired_entry_dropped w4 r4 G1 G2 G3 G4) I)).
Defined.

(** ** Failed replays *)

Lemma retried_present (r : Stored) (db : IDB) :
  up db = true -> store_get (id r) (rows db) = Some r ->
  retried r db =
    set_rows db (store_put {| id := id r;
                              data := set_retryCount (data r) (or_zero (retryCount (data r)) + 1) |}
                           (rows db)).
Proof.
  intros Hup Hget. unfold retried, updateRequestRetryCount, openDB. rewrite Hup, Hget. reflexivity.
Qed.

(** The world in which a pass reaches the entry [r] of its snapshot
    [l1 ++ r :: l2]. *)
Lemma replayed_reaches (one : Stored -> Prog (Res unit)) (call_of : RequestData -> Call)
    (after : Stored -> World -> World) (now : Z) (w : World) (l1 l2 : list Stored) (r : Stored) :
  entry_local one call_of after ->
  up (idb w) = true -> sorted_rows (rows (idb w)) -> rows (idb w) = l1 ++ r :: l2 ->
  let w1 := replayed after now l1 w in
  up (idb w1) = true /\ clock w1 = clock w /\ store_get (id r) (rows (idb w1)) = Some r.
Proof.
  intros Hloc Hup Hs Hrows w1.
  destruct (replayed_env _ _ _ Hloc now l1 w) as (_ & Hc & Hu & _).
  split; [subst w1; rewrite Hu; exact Hup|]. split; [exact Hc|].
  subst w1. rewrite (replayed_get_ne _ _ _ Hloc).
  - rewrite Hrows. apply store_get_middle. rewrite <- Hrows. exact Hs.
  - rewrite Hrows in Hs. apply (sorted_app_middle _ _ _ Hs).
Qed.

(** C7, as amended: when a pass reaches an entry that is not expired
    and the replayed call fails (a rejection or a response that is not
    [ok]), the record of the entry gets the retry count
    [(retryCount || 0) + 1] and the pass goes on with the entries
    behind it, from the world so changed, and ends normally.  The pass
    of the page also calls [notifyUser] with an error text; the pass of
    the service worker posts no message and makes no toast. *)
Theorem failed_replay_retried (w : World) (l1 l2 : list Stored) (r : Stored) :
  up (idb w) = true -> sorted_rows (rows (idb w)) -> rows (idb w) = l1 ++ r :: l2 ->
  expired (clock w) (data r) = false ->
  let now := clock w in
  let r' := {| id := id r;
               data := set_retryCount (data r) (or_zero (retryCount (data r)) + 1) |} in
  (let w1 := snd (run (SW.syncStoredPosts_for now l1) w) in
   fetch_failed (net w1 (netlog w1) (sw_call (data r))) ->
   let w2 := set_idb (set_netlog w1 (netlog w1 ++ [sw_call (data r)]))
                     (set_rows (idb w1) (store_put r' (rows (idb w1)))) in
   store_get (id r) (rows (idb w1)) = Some r /\
   store_get (id r) (rows (idb w2)) = Some r' /\
   outbox w2 = outbox w1 /\ page w2 = page w1 /\
   run SW.syncStoredPosts w = run (SW.syncStoredPosts_for now l2) w2 /\
   fst (run SW.syncStoredPosts w) = Ok tt) /\
  (let w1 := snd (run (SmartCache.syncOfflineRequests_for now l1) w) in
   fetch_failed (net w1 (netlog w1) (page_call (data r))) ->
   exists text,
     let w2 := set_page (set_idb (set_netlog w1 (netlog w1 ++ [page_call (data r)]))
                                 (set_rows (idb w1) (store_put r' (rows (idb w1)))))
                        (notifyUser text "error" now (page w1)) in
     match net w1 (netlog w1) (page_call (data r)) with
     | Ok response => text = failed_text (data r) response
     | Err e => text = error_text (data r) e
     end /\
     store_get (id r) (rows (idb w1)) = Some r /\
     store_get (id r) (rows (idb w2)) = Some r' /\
     run SmartCache.syncOfflineRequests w
       = run (SmartCache.syncOfflineRequests_for now l2) w2 /\
     fst (run SmartCache.syncOfflineRequests w) = Ok tt).
Proof.
  intros Hup Hs Hrows Hlive now r'. split.
  - intros w1.
    assert (Hw1 : w1 = replayed sw_after now l1 w).
    { subst w1. rewrite sw_loop_replay_for, (replay_for_run _ _ _ sw_replay_one_local)
        by exact Hup. reflexivity. }
    clearbody w1. intros Hfail w2.
    destruct (replayed_reaches _ _ _ now w l1 l2 r sw_replay_one_local Hup Hs Hrows)
      as (Hup1 & Hc1 & Hget1). rewrite <- Hw1 in Hup1, Hc1, Hget1.
    split; [exact Hget1|]. split; [exact (store_get_put_eq r' _)|].
    split; [reflexivity|]. split; [reflexivity|].
    assert (E : run SW.syncStoredPosts w = run (SW.syncStoredPosts_for now l2) w2).
    { rewrite sw_pass_run by exact Hup.
      rewrite sw_loop_replay_for, (replay_for_run _ _ _ sw_replay_one_local) by exact Hup1.
      f_equal. rewrite Hrows, (replayed_app _ (clock w) l1 (r :: l2) w). simpl.
      fold now. rewrite <- Hw1. change (expired now (data r) = false) in Hlive. rewrite Hlive.
      rewrite sw_after_failed by exact Hfail.
      rewrite retried_present by assumption. reflexivity. }
    split; [exact E|]. rewrite sw_pass_run by exact Hup. reflexivity.
  - intros w1.
    assert (Hw1 : w1 = replayed page_after now l1 w).
    { subst w1. rewrite page_loop_replay_for, (replay_for_run _ _ _ page_replay_one_local)
        by exact Hup. reflexivity. }
    clearbody w1. intros Hfail.
    destruct (replayed_reaches _ _ _ now w l1 l2 r page_replay_one_local Hup Hs Hrows)
      as (Hup1 & Hc1 & Hget1). rewrite <- Hw1 in Hup1, Hc1, Hget1.
    destruct (page_after_failed r w1 Hfail) as (text & Hafter & Htext).
    exists text. cbv zeta.
    split; [exact Htext|]. split; [exact Hget1|]. split; [exact (store_get_put_eq r' _)|].
    assert (E : run SmartCache.syncOfflineRequests w
                = run (SmartCache.syncOfflineRequests_for now l2)
                    (set_page (set_idb (set_netlog w1 (netlog w1 ++ [page_call (data r)]))
                                       (set_rows (idb w1) (store_put r' (rows (idb w1)))))
                              (notifyUser text "error" now (page w1)))).
    { rewrite page_pass_run by exact Hup.
      rewrite page_loop_replay_for, (replay_for_run _ _ _ page_replay_one_local) by exact Hup1.
      f_equal. rewrite Hrows, (replayed_app _ (clock w) l1 (r :: l2) w). simpl.
      fold now. rewrite <- Hw1. change (expired now (data r) = false) in Hlive. rewrite Hlive.
      rewrite Hafter, Hc1.
      rewrite retried_present by assumption. reflexivity. }
    split; [exact E|]. rewrite page_pass_run by exact Hup. reflexivity.
Qed.

Lemma failed_replay_retried_witness :
  let w := world_queued offline [order_a; order_b] in
  let r := {| id := 1; data := order_a |} in
  up (idb w) = true /\ sorted_rows (rows (idb w)) /\
  rows (idb w) = [] ++ r :: [{| id := 2; data := order_b |}] /\
  expired (clock w) (data r) = false /\
  fetch_failed (net w (netlog w) (sw_call (data r))) /\
  fst (run SW.syncStoredPosts w) = Ok tt /\
  fst (run SmartCache.syncOfflineRequests w) = Ok tt.
Proof.
  intros w r.
  assert (H1 : up (idb w) = true) by reflexivity.
  assert (H2 : sorted_rows (rows (idb w))).
  { repeat constructor. }
  assert (H3 : rows (idb w) = [] ++ r :: [{| id := 2; data := order_b |}]) by reflexivity.
  assert (H4 : expired (clock w) (data r) = false) by reflexivity.
  split; [exact H1|]. split; [exact H2|]. split; [exact H3|]. split; [exact H4|].
  split; [exact I|].
  destruct (failed_replay_retried w [] [{| id := 2; data := order_b |}] r H1 H2 H3 H4)
    as [Hsw Hpage].
  split.
  - exact (proj2 (proj2 (proj2 (proj2 (proj2 (Hsw I)))))).
  - destruct (Hpage I) as (text & _ & _ & _ & _ & H). exact H.
Defined.

(** C7 as stated fails for the pass of the service worker: both stored
    requests are replayed and fail, both retry counts go from 0 to 1,
    and the pass ends without a message to the clients and without a
    toast. *)
Lemma failed_replay_without_notice :
  let w := world_queued offline [order_a; order_b] in
  let w' := snd (run SW.syncOfflineRequests w) in
  fetch_failed (net w (netlog w) (sw_call order_a)) /\
  netlog w' = [sw_call order_a; sw_call order_b] /\
  (fun r => retryCount (data r)) <$> rows (idb w) = [Some 0; Some 0] /\
  (fun r => retryCount (data r)) <$> rows (idb w') = [Some 1; Some 1] /\
  outbox w' = outbox w /\ page w' = page w.
Proof. vm_compute. repeat split. Qed.

(** ** The event loop *)


(** A program resumed often enough has run to its end. *)
Lemma resume_reaches_end {A} (p : Prog A) (w : World) :
  exists n, Nat.iter n resume_pair (run_sync p w) = (Ret (fst (run p w)), snd (run p w)).
Proof.
  revert w. induction p as [a|X op k IH]; intros w.
  - exists 0%nat. reflexivity.
  - simpl. destruct (is_sync op).
    + destruct (exec op w) as [x w']. apply IH.
    + destruct (exec op w) as [x w'] eqn:Hex.
      destruct (IH x w') as [n Hn]. exists (S n).
      rewrite Nat.iter_succ_r. unfold resume_pair at 2. simpl. rewrite Hex. exact Hn.
Qed.

Lemma settle_last (ts : list Task) (p : Prog (Res unit)) (w : World) :
  deliver {| world := w; tasks := ts ++ [Handler p] |} (Settle (List.length ts)) =
    {| world := snd (resume p w); tasks := ts ++ [Handler (fst (resume p w))] |}.
Proof.
  simpl. rewrite list_lookup_middle by reflexivity. simpl.
  destruct (resume p w) as [p' w']. simpl.
  rewrite insert_app_r_alt by reflexivity. rewrite Nat.sub_diag. reflexivity.
Qed.

Lemma deliver_all_cons (s : Sys) (i : Input) (l : list Input) :
  deliver_all s (i :: l) = deliver_all (deliver s i) l.
Proof. reflexivity. Qed.

Lemma settle_last_iter (n : nat) (ts : list Task) (p : Prog (Res unit)) (w : World) :
  deliver_all {| world := w; tasks := ts ++ [Handler p] |}
              (replicate n (Settle (List.length ts))) =
    {| world := snd (Nat.iter n resume_pair (p, w));
       tasks := ts ++ [Handler (fst (Nat.iter n resume_pair (p, w)))] |}.
Proof.
  revert p w. induction n as [|n IH]; intros p w; [reflexivity|].
  rewrite Nat.iter_succ_r. cbn [replicate]. rewrite deliver_all_cons, settle_last.
  rewrite IH. change (resume_pair (p, w)) with (resume p w).
  destruct (resume p w); reflexivity.
Qed.

(** A handler started in any state and then resumed alone ends as the
    program run alone ends. *)
Lemma spawned_handler_runs (p : Prog (Res unit)) (s : Sys) :
  exists n,
    deliver_all (spawn (Handler p) s) (replicate n (Settle (List.length (tasks s)))) =
      {| world := snd (run p (world s));
         tasks := tasks s ++ [Handler (Ret (fst (run p (world s))))] |}.
Proof.
  destruct (resume_reaches_end p (world s)) as [n Hn]. exists n.
  unfold spawn. simpl. destruct (run_sync p (world s)) as [p0 w0] eqn:Hs.
  rewrite settle_last_iter, Hn. reflexivity.
Qed.

Lemma active_snoc (w w' : World) (ts : list Task) (t : Task) :
  finished t = false ->
  active {| world := w; tasks := ts ++ [t] |} = S (active {| world := w'; tasks := ts |}).
Proof.
  intros Ht. unfold active. cbn [tasks].
  rewrite List.filter_app, List.length_app. cbn [List.filter]. rewrite Ht.
  cbn [negb List.length]. lia.
Qed.

(** C1, as amended: the handlers have no gate.  In every state, with
    or without passes under way, a [SYNC_OFFLINE_REQUESTS] message to
    the service worker starts one more pass, and so does the window's
    [online] event on a page that has a controlling service worker (on
    a page without one the event does nothing); the same message to
    the page starts one more pass of the page; the trigger itself
    changes nothing else; and the new pass, resumed until it ends, does
    what the pass run alone from that state does: it replays the queue
    it finds and then refreshes the cache. *)
Theorem every_trigger_starts_a_pass (s : Sys) :
  let s1 := deliver s (ToWorker (Some SYNC_OFFLINE_REQUESTS)) in
  let s2 := deliver s (ToPage (Some SYNC_OFFLINE_REQUESTS)) in
  deliver s (Online true) = s1 /\
  deliver s (Online false) = s /\
  world s1 = world s /\
  tasks s1 = tasks s ++ [Handler SW.syncOfflineRequests] /\
  active s1 = S (active s) /\
  (exists n,
     deliver_all s1 (replicate n (Settle (List.length (tasks s)))) =
       {| world := snd (run SW.syncOfflineRequests (world s));
          tasks := tasks s ++ [Handler (Ret (fst (run SW.syncOfflineRequests (world s))))] |}) /\
  world s2 = world s /\
  tasks s2 = tasks s ++ [Handler SmartCache.syncOfflineRequests] /\
  active s2 = S (active s) /\
  (exists n,
     deliver_all s2 (replicate n (Settle (List.length (tasks s)))) =
       {| world := snd (run SmartCache.syncOfflineRequests (world s));
          tasks := tasks s ++
                   [Handler (Ret (fst (run SmartCache.syncOfflineRequests (world s))))] |}).
Proof.
  intros s1 s2. destruct s as [w ts].
  split; [reflexivity|]. split; [reflexivity|].
  split; [reflexivity|]. split; [reflexivity|].
  split; [apply active_snoc; reflexivity|].
  split; [apply (spawned_handler_runs SW.syncOfflineRequests)|].
  split; [reflexivity|]. split; [reflexivity|].
  split; [apply active_snoc; reflexivity|].
  apply (spawned_handler_runs SmartCache.syncOfflineRequests).
Qed.

(** C1 as stated fails.  A pass is under way (it has read the queue
    and its replayed call is in flight) when the window's [online]
    event arrives on the controlled page: a second pass starts, and when both have ended the
    stored request has been sent twice and announced twice, where the
    first pass alone sends and announces it once. *)
Lemma second_trigger_starts_second_pass :
  let s := sys_pass_running in
  let s' := deliver s (Online true) in
  active s = 1%nat /\
  active s' = 2%nat /\
  active (deliver_all s finish_first) = 0%nat /\
  netlog (world (deliver_all s finish_first)) = [sw_call order_a] /\
  outbox (world (deliver_all s finish_first)) = [OFFLINE_REQUEST_SYNCED "/orders/a" "POST"] /\
  active (deliver_all s' finish_both) = 0%nat /\
  netlog (world (deliver_all s' finish_both)) = [sw_call order_a; sw_call order_a] /\
  outbox (world (deliver_all s' finish_both))
    = [OFFLINE_REQUEST_SYNCED "/orders/a" "POST"; OFFLINE_REQUEST_SYNCED "/orders/a" "POST"].
Proof. vm_compute. repeat split. Qed.

(** ** The invariants of the queue, under any interleaving *)

Lemma descends_refl (db : IDB) : descends db db.
Proof.
  split; [lia|]. intros r' Hin _. exists r'. repeat split; auto.
Qed.

Lemma same_but_retry_trans (d1 d2 d3 : RequestData) :
  same_but_retry d1 d2 -> same_but_retry d2 d3 -> same_but_retry d1 d3.
Proof. unfold same_but_retry. intuition congruence. Qed.

Lemma descends_trans (db1 db2 db3 : IDB) :
  descends db1 db2 -> descends db2 db3 -> descends db1 db3.
Proof.
  intros [Hk12 H12] [Hk23 H23]. split; [lia|].
  intros r3 Hin3 Hid3.
  destruct (H23 r3 Hin3 ltac:(lia)) as (r2 & Hin2 & Hid2 & Hs2).
  destruct (H12 r2 Hin2 ltac:(lia)) as (r1 & Hin1 & Hid1 & Hs1).
  exists r1. split; [exact Hin1|]. split; [lia|].
  eapply same_but_retry_trans; eassumption.
Qed.

Lemma db_ok_delete (lim key : Z) (db : IDB) :
  db_ok lim db -> db_ok lim (db_without key db) /\ descends db (db_without key db).
Proof.
  intros [[Hs Hb] Hbd]. split; [split; [split|]|split]; simpl.
  - apply sorted_delete. exact Hs.
  - rewrite Forall_forall in *. intros x Hx. apply elem_of_store_delete in Hx. apply Hb, Hx.
  - rewrite Forall_forall in *. intros x Hx. apply elem_of_store_delete in Hx. apply Hbd, Hx.
  - lia.
  - intros r' Hin _. apply elem_of_store_delete in Hin. exists r'. repeat split; tauto.
Qed.

Lemma db_ok_update (lim key n : Z) (db : IDB) :
  n <= lim -> db_ok lim db ->
  db_ok lim (snd (updateRequestRetryCount key n db)) /\
  descends db (snd (updateRequestRetryCount key n db)).
Proof.
  intros Hn Hok. unfold updateRequestRetryCount, openDB.
  destruct (up db); simpl; [|split; [exact Hok | apply descends_refl]].
  destruct (store_get key (rows db)) as [r0|] eqn:Hget; simpl;
    [|split; [exact Hok | apply descends_refl]].
  destruct Hok as [[Hs Hb] Hbd]. apply store_get_in in Hget. destruct Hget as [Hin0 Hid0].
  split; [split; [split|]|split]; simpl.
  - apply sorted_put. exact Hs.
  - rewrite Forall_forall in *. intros x Hx.
    destruct (elem_of_store_put _ _ _ Hx) as [->|Hx']; [simpl; apply Hb, Hin0 | apply Hb, Hx'].
  - rewrite Forall_forall in *. intros x Hx.
    destruct (elem_of_store_put _ _ _ Hx) as [->|Hx']; [|apply Hbd, Hx'].
    simpl. intros m Hm. inversion Hm. lia.
  - lia.
  - intros r' Hin _. destruct (elem_of_store_put _ _ _ Hin) as [->|Hin'].
    + exists r0. repeat split; auto.
    + exists r'. repeat split; auto.
Qed.

Lemma db_ok_save (lim : Z) (d : RequestData) (db : IDB) :
  bounded lim d -> db_ok lim db ->
  db_ok lim (snd (saveRequest d db)) /\ descends db (snd (saveRequest d db)).
Proof.
  intros Hd [Hwf Hbd]. destruct (up db) eqn:Hup.
  - destruct (saveRequest_wf d db Hwf Hup) as (Hwf' & _ & _).
    rewrite (saveRequest_appends d db Hwf Hup) in *. simpl in *.
    split; [split; [exact Hwf'|]|split]; simpl.
    + apply Forall_app. split; [exact Hbd|]. constructor; [exact Hd | constructor].
    + lia.
    + intros r' Hin Hid. apply elem_of_app in Hin. destruct Hin as [Hin|Hin].
      * exists r'. repeat split; auto.
      * apply list_elem_of_singleton in Hin. subst r'. simpl in Hid. lia.
  - unfold saveRequest, openDB. rewrite Hup. simpl. split; [split; assumption | apply descends_refl].
Qed.

Lemma exec_db_ok (lim : Z) {X} (op : Op X) (w : World) :
  op_ok lim op -> db_ok lim (idb w) ->
  db_ok lim (idb (snd (exec op w))) /\ descends (idb w) (idb (snd (exec op w))).
Proof.
  intros Hop Hok.
  destruct op; simpl in *; try (split; [exact Hok | apply descends_refl]).
  - destruct (saveRequest requestData (idb w)) as [res db'] eqn:E. simpl.
    replace db' with (snd (saveRequest requestData (idb w))) by (rewrite E; reflexivity).
    apply db_ok_save; assumption.
  - unfold getAllRequests, openDB. destruct (up (idb w)); simpl;
      (split; [exact Hok | apply descends_refl]).
  - unfold deleteRequest, openDB. destruct (up (idb w)); simpl.
    + apply db_ok_delete. exact Hok.
    + split; [exact Hok | apply descends_refl].
  - destruct (updateRequestRetryCount key retry (idb w)) as [res db'] eqn:E. simpl.
    replace db' with (snd (updateRequestRetryCount key retry (idb w))) by (rewrite E; reflexivity).
    apply db_ok_update; assumption.
  - destruct (cache_put_rejects request response); simpl;
      (split; [exact Hok | apply descends_refl]).
Qed.



Lemma run_ok (lim : Z) {A} (p : Prog A) (w : World) :
  safe lim p -> db_ok lim (idb w) ->
  db_ok lim (idb (snd (run p w))) /\ descends (idb w) (idb (snd (run p w))).
Proof.
  revert w. induction p as [a|X op k IH]; intros w Hp Hok; simpl.
  - split; [exact Hok | apply descends_refl].
  - destruct Hp as [Hop Hk].
    destruct (exec_db_ok lim op w Hop Hok) as [Hok' Hd].
    destruct (exec op w) as [x w']. simpl in *.
    destruct (IH x w' (Hk x) Hok') as (H2 & H3).
    split; [exact H2|]. eapply descends_trans; eassumption.
Qed.

Lemma safe_bind (lim : Z) {A B} (p : Prog A) (f : A -> Prog B) :
  safe lim p -> (forall a, safe lim (f a)) -> safe lim (bind p f).
Proof.
  intros Hp Hf. induction p as [a|X op k IH]; simpl; [apply Hf|].
  destruct Hp as [Hop Hk]. split; [exact Hop|]. intros x. apply IH. apply Hk.
Qed.

Lemma safe_await (lim : Z) {A B} (p : Prog (Res A)) (f : A -> Prog (Res B)) :
  safe lim p -> (forall a, safe lim (f a)) -> safe lim (await p f).
Proof.
  intros Hp Hf. apply safe_bind; [exact Hp|]. intros [a|e]; [apply Hf | exact I].
Qed.

Lemma safe_try_catch (lim : Z) {A} (p : Prog (Res A)) (h : JsError -> Prog (Res A)) :
  safe lim p -> (forall e, safe lim (h e)) -> safe lim (try_catch p h).
Proof.
  intros Hp Hh. apply safe_bind; [exact Hp|]. intros [a|e]; [exact I | apply Hh].
Qed.

Lemma safe_call (lim : Z) {X} (op : Op X) : op_ok lim op -> safe lim (call op).
Proof. intros H. split; [exact H | intros; exact I]. Qed.

Lemma bounded_snapshot (lim : Z) (request : Request) (bodyText : string) (now : Z) :
  MAX_RETRIES <= lim -> bounded lim (SW.snapshot request bodyText now).
Proof. intros Hl n Hn. inversion Hn. unfold MAX_RETRIES in Hl. lia. Qed.

Ltac safe_step :=
  match goal with
  | |- safe _ (await _ _) => apply safe_await
  | |- safe _ (try_catch _ _) => apply safe_try_catch
  | |- safe _ (bind _ _) => apply safe_bind
  | |- safe _ (mbind _ _) => apply safe_bind
  | |- safe _ (call _) => apply safe_call
  | |- safe _ (Ret _) => exact I
  | |- safe _ (match ?x with _ => _ end) => destruct x
  | |- safe _ (if ?b then _ else _) => destruct b
  | |- forall _, _ => intro
  | |- op_ok _ _ => exact I
  end.

Lemma safe_onfetch (lim : Z) (request : Request) :
  MAX_RETRIES <= lim -> safe lim (SW.onfetch request).
Proof.
  intros Hl.
  unfold SW.onfetch, SW.cachePut, SW.cacheMatch, SW.sendMessageToClients, SW.cloneRequestBody.
  repeat safe_step. apply bounded_snapshot, Hl.
Qed.

Lemma retry_within_limit (x : option Z) :
  (MAX_RETRIES <=? or_zero x) = false -> or_zero x + 1 <= MAX_RETRIES.
Proof. intros H. apply Z.leb_gt in H. lia. Qed.

Lemma safe_sw_replay_one (lim : Z) (r : Stored) :
  MAX_RETRIES <= lim ->
  (MAX_RETRIES <=? or_zero (retryCount (data r))) = false -> safe lim (SW.replay_one r).
Proof.
  intros Hl H. apply retry_within_limit in H.
  assert (H' : or_zero (retryCount (data r)) + 1 <= lim) by lia.
  unfold SW.replay_one, SW.sendMessageToClients.
  repeat safe_step; exact H'.
Qed.

Lemma safe_page_replay_one (lim : Z) (r : Stored) :
  MAX_RETRIES <= lim ->
  (MAX_RETRIES <=? or_zero (retryCount (data r))) = false ->
  safe lim (SmartCache.replay_one r).
Proof.
  intros Hl H. apply retry_within_limit in H.
  assert (H' : or_zero (retryCount (data r)) + 1 <= lim) by lia.
  unfold SmartCache.replay_one.
  repeat safe_step; exact H'.
Qed.

Lemma safe_replay_for (lim : Z) (one : Stored -> Prog (Res unit)) (now : Z)
    (l : list Stored) :
  (forall r, (MAX_RETRIES <=? or_zero (retryCount (data r))) = false -> safe lim (one r)) ->
  safe lim (replay_for one now l).
Proof.
  intros Hone. induction l as [|r l IH]; simpl; [exact I|].
  destruct (expired now (data r)) eqn:He.
  - apply safe_await; [apply safe_call; exact I | intros; exact IH].
  - apply safe_await; [|intros; exact IH].
    apply Hone. unfold expired in He. apply orb_false_iff in He. tauto.
Qed.

Lemma safe_sw_pass (lim : Z) : MAX_RETRIES <= lim -> safe lim SW.syncOfflineRequests.
Proof.
  intros Hl.
  unfold SW.syncOfflineRequests, SW.syncStoredPosts.
  repeat safe_step.
  - rewrite sw_loop_replay_for. apply safe_replay_for. intros r. apply safe_sw_replay_one, Hl.
  - match goal with |- safe _ (SW.refresh_all ?l) => generalize l end.
    intros l. induction l as [|request l IH].
    + exact I.
    + change (safe lim (await (SW.refresh_one request) (fun _ => SW.refresh_all l))).
      apply safe_await; [|intros; exact IH].
      unfold SW.refresh_one, SW.cachePut, SW.cacheMatch, SW.sendMessageToClients.
      repeat safe_step.
Qed.

Lemma safe_page_pass (lim : Z) : MAX_RETRIES <= lim -> safe lim SmartCache.syncOfflineRequests.
Proof.
  intros Hl.
  unfold SmartCache.syncOfflineRequests.
  repeat safe_step.
  rewrite page_loop_replay_for. apply safe_replay_for. intros r.
  apply safe_page_replay_one, Hl.
Qed.








(** ** Retry counts when operations do not overlap *)


Lemma store_get_elem (r : Stored) (rs : list Stored) :
  sorted_rows rs -> r ∈ rs -> store_get (id r) rs = Some r.
Proof.
  intros Hs Hin. apply list_elem_of_split in Hin. destruct Hin as (l1 & l2 & ->).
  apply store_get_middle. exact Hs.
Qed.

Section Growth.

Variable one : Stored -> Prog (Res unit).
Variable call_of : RequestData -> Call.
Variable after : Stored -> World -> World.
Hypothesis local : entry_local one call_of after.

(** A pass whose snapshot agrees with the store only raises retry
    counts. *)
Lemma replayed_grows (now : Z) (l : list Stored) (w : World) :
  sorted_rows (rows (idb w)) -> sorted_rows l ->
  (forall r, r ∈ l -> store_get (id r) (rows (idb w)) = Some r) ->
  forall j x', store_get j (rows (idb (replayed after now l w))) = Some x' ->
    exists x, store_get j (rows (idb w)) = Some x /\
      or_zero (retryCount (data x)) <= or_zero (retryCount (data x')).
Proof.
  revert w. induction l as [|r l IH]; intros w Hs Hl Hsnap j x' Hget; simpl in Hget.
  - exists x'. split; [exact Hget | lia].
  - assert (Hne : Forall (fun x => id x <> id r) l).
    { apply (sorted_app_middle [] l r) in Hl. apply Hl. }
    assert (Hl' : sorted_rows l) by (inversion Hl; assumption).
    set (w_mid := if expired now (data r) then without (id r) w else after r w) in *.
    assert (Hs_mid : sorted_rows (rows (idb w_mid))).
    { subst w_mid. destruct (expired now (data r)).
      - apply sorted_delete. exact Hs.
      - apply (after_sorted _ _ _ local). exact Hs. }
    assert (Hframe : forall k, k <> id r ->
                       store_get k (rows (idb w_mid)) = store_get k (rows (idb w))).
    { intros k Hk. subst w_mid. destruct (expired now (data r)).
      - apply store_get_delete_ne. lia.
      - apply (after_get_ne _ _ _ local). exact Hk. }
    assert (Hsnap_mid : forall r2, r2 ∈ l -> store_get (id r2) (rows (idb w_mid)) = Some r2).
    { intros r2 Hr2. rewrite Hframe.
      - apply Hsnap. right. exact Hr2.
      - rewrite Forall_forall in Hne. apply Hne. exact Hr2. }
    destruct (IH w_mid Hs_mid Hl' Hsnap_mid j x' Hget) as (x_mid & Hget_mid & Hle).
    destruct (Z.eq_dec j (id r)) as [->|Hj].
    + (* the record of [r] itself *)
      exists r. split; [apply Hsnap; left|].
      assert (Hmid : or_zero (retryCount (data r)) <= or_zero (retryCount (data x_mid)));
        [|lia].
      subst w_mid. destruct (expired now (data r)).
      * simpl in Hget_mid. rewrite store_get_delete_eq in Hget_mid. discriminate.
      * destruct (el_rows _ _ _ local r w) as [E|E]; rewrite E in Hget_mid.
        -- simpl in Hget_mid. rewrite store_get_delete_eq in Hget_mid. discriminate.
        -- destruct (retried_rows r (idb w)) as [E'|(r0 & Hr0 & E')]; rewrite E' in Hget_mid.
           ++ rewrite (Hsnap r) in Hget_mid by left. inversion Hget_mid. lia.
           ++ rewrite (Hsnap r) in Hr0 by left. inversion Hr0; subst r0.
              change (id r) with
                (id {| id := id r;
                       data := set_retryCount (data r) (or_zero (retryCount (data r)) + 1) |})
                in Hget_mid at 1.
              rewrite store_get_put_eq in Hget_mid. inversion Hget_mid. simpl.
              destruct (Z.eqb_spec (or_zero (retryCount (data r)) + 1) 0); lia.
    + exists x_mid. split; [|exact Hle]. rewrite <- Hframe by exact Hj. exact Hget_mid.
Qed.

End Growth.

Lemma grows_refl (db : IDB) : grows db db.
Proof. intros r' Hin _. exists r'. repeat split; [exact Hin | lia]. Qed.

Lemma grows_trans (db1 db2 db3 : IDB) :
  nextKey db1 <= nextKey db2 -> grows db1 db2 -> grows db2 db3 -> grows db1 db3.
Proof.
  intros Hk H12 H23 r3 Hin3 Hid3.
  destruct (H23 r3 Hin3 ltac:(lia)) as (r2 & Hin2 & Hid2 & Hle2).
  destruct (H12 r2 Hin2 ltac:(lia)) as (r1 & Hin1 & Hid1 & Hle1).
  exists r1. repeat split; [exact Hin1 | lia | lia].
Qed.

Lemma replayed_pass_grows (one : Stored -> Prog (Res unit)) (call_of : RequestData -> Call)
    (after : Stored -> World -> World) (w : World) :
  entry_local one call_of after -> sorted_rows (rows (idb w)) ->
  grows (idb w) (idb (replayed after (clock w) (rows (idb w)) w)).
Proof.
  intros Hloc Hs r' Hin _.
  assert (Hs' : sorted_rows (rows (idb (replayed after (clock w) (rows (idb w)) w)))).
  { apply (replayed_sorted _ _ _ Hloc). exact Hs. }
  destruct (replayed_grows _ _ _ Hloc (clock w) (rows (idb w)) w Hs Hs
              (fun r Hr => store_get_elem r _ Hs Hr) (id r') r'
              (store_get_elem r' _ Hs' Hin)) as (x & Hx & Hle).
  apply store_get_in in Hx. exists x. tauto.
Qed.

Lemma sw_pass_down (w : World) :
  up (idb w) = false -> snd (run SW.syncStoredPosts w) = w.
Proof.
  intros Hup. unfold SW.syncStoredPosts. rewrite run_await. simpl.
  unfold getAllRequests, openDB. rewrite Hup. simpl. apply set_idb_same.
Qed.

Lemma page_pass_down (w : World) :
  up (idb w) = false -> snd (run SmartCache.syncOfflineRequests w) = w.
Proof.
  intros Hup. unfold SmartCache.syncOfflineRequests. rewrite run_await. simpl.
  unfold getAllRequests, openDB. rewrite Hup. simpl. apply set_idb_same.
Qed.

Lemma refresh_all_idb (l : list Request) (w : World) :
  idb (snd (run (SW.refresh_all l) w)) = idb w.
Proof.
  revert w. induction l as [|request l IH]; intros w; [reflexivity|].
  change (SW.refresh_all (request :: l))
    with (await (SW.refresh_one request) (fun _ => SW.refresh_all l)).
  rewrite run_await.
  assert (H : idb (snd (run (SW.refresh_one request) w)) = idb w).
  { unfold SW.refresh_one, SW.cachePut, SW.cacheMatch, SW.sendMessageToClients. simpl.
    destruct (net w (netlog w) (FetchRequest request)) as [response|e]; simpl.
    - destruct (cache_put_rejects request response); simpl; [|reflexivity].
      destruct (cache w !! cache_key request) as [[? ?]|]; reflexivity.
    - destruct (cache w !! cache_key request) as [[? ?]|]; reflexivity. }
  destruct (run (SW.refresh_one request) w) as [[[]|e] w1]; simpl in *.
  - rewrite IH. exact H.
  - exact H.
Qed.

Lemma sw_full_pass_idb (w : World) :
  idb (snd (run SW.syncOfflineRequests w)) = idb (snd (run SW.syncStoredPosts w)).
Proof.
  unfold SW.syncOfflineRequests. rewrite run_await.
  destruct (run SW.syncStoredPosts w) as [[[]|e] w1]; [|reflexivity].
  unfold try_catch. rewrite run_bind. simpl.
  match goal with |- context [run (SW.refresh_all ?l) w1] =>
    pose proof (refresh_all_idb l w1) as H; destruct (run (SW.refresh_all l) w1) as [[[]|e] w2]
  end; exact H.
Qed.

Lemma onfetch_grows (request : Request) (w : World) :
  wf_db (idb w) -> grows (idb w) (idb (snd (run (SW.onfetch request) w))).
Proof.
  intros Hwf.
  assert (H : rows (idb (snd (run (SW.onfetch request) w))) = rows (idb w) \/
              exists d, rows (idb (snd (run (SW.onfetch request) w)))
                        = rows (idb w) ++ [{| id := nextKey (idb w); data := d |}]).
  { unfold SW.onfetch, SW.cachePut, SW.cacheMatch, SW.sendMessageToClients,
      SW.cloneRequestBody, try_catch, await.
    destruct (String.eqb (req_method request) "GET" || String.eqb (req_method request) "HEAD");
      simpl.
    - destruct (net w (netlog w) (FetchRequest request)) as [response|e]; simpl.
      + destruct (cache_put_rejects request response); left; reflexivity.
      + destruct (cache w !! cache_key request) as [[? ?]|]; left; reflexivity.
    - destruct (net w (netlog w) (FetchRequest request)); simpl; [left; reflexivity|].
      destruct (req_text request) as [bodyText|e']; simpl; [|left; reflexivity].
      destruct (up (idb w)) eqn:Hup.
      + rewrite (saveRequest_appends _ _ Hwf Hup). simpl. right. eexists. reflexivity.
      + unfold saveRequest, openDB. rewrite Hup. simpl. left. reflexivity. }
  intros r' Hin Hid. destruct H as [E|[d E]]; rewrite E in Hin.
  - exists r'. repeat split; [exact Hin | lia].
  - apply elem_of_app in Hin. destruct Hin as [Hin|Hin].
    + exists r'. repeat split; [exact Hin | lia].
    + apply list_elem_of_singleton in Hin. subst r'. simpl in Hid. lia.
Qed.

(** The invariants depend on the records and the key generator only. *)
Lemma db_ok_rows (lim : Z) (db db' : IDB) :
  rows db' = rows db -> nextKey db' = nextKey db -> db_ok lim db -> db_ok lim db'.
Proof.
  intros Hr Hk [[Hs Hb] Hbd]. unfold db_ok, wf_db. rewrite Hr, Hk. auto.
Qed.

Lemma descends_rows (db1 db1' db2 db2' : IDB) :
  rows db1' = rows db1 -> nextKey db1' = nextKey db1 ->
  rows db2' = rows db2 -> nextKey db2' = nextKey db2 ->
  descends db1 db2 -> descends db1' db2'.
Proof. intros H1 H2 H3 H4. unfold descends. rewrite H1, H2, H3, H4. auto. Qed.

Lemma grows_rows (db1 db1' db2 db2' : IDB) :
  rows db1' = rows db1 -> nextKey db1' = nextKey db1 ->
  rows db2' = rows db2 ->
  grows db1 db2 -> grows db1' db2'.
Proof. intros H1 H2 H3. unfold grows. rewrite H1, H2, H3. auto. Qed.

Lemma sw_pass_grows (w : World) :
  wf_db (idb w) -> grows (idb w) (idb (snd (run SW.syncOfflineRequests w))).
Proof.
  intros Hwf. rewrite sw_full_pass_idb. destruct (up (idb w)) eqn:Hup.
  - rewrite sw_pass_run by exact Hup.
    apply (replayed_pass_grows _ _ _ w sw_replay_one_local), Hwf.
  - rewrite sw_pass_down by exact Hup. apply grows_refl.
Qed.

Lemma page_pass_grows (w : World) :
  wf_db (idb w) -> grows (idb w) (idb (snd (run SmartCache.syncOfflineRequests w))).
Proof.
  intros Hwf. destruct (up (idb w)) eqn:Hup.
  - rewrite page_pass_run by exact Hup.
    apply (replayed_pass_grows _ _ _ w page_replay_one_local), Hwf.
  - rewrite page_pass_down by exact Hup. apply grows_refl.
Qed.

Lemma page_save_grows (d : RequestData) (w : World) :
  wf_db (idb w) -> grows (idb w) (idb (snd (run (SmartCache.saveOfflineRequest d) w))).
Proof.
  intros Hwf. unfold SmartCache.saveOfflineRequest. simpl.
  destruct (up (idb w)) eqn:Hup.
  - rewrite (saveRequest_appends d _ Hwf Hup). simpl.
    intros r' Hin Hid. apply elem_of_app in Hin. destruct Hin as [Hin|Hin].
    + exists r'. repeat split; [exact Hin | lia].
    + apply list_elem_of_singleton in Hin. subst r'. simpl in Hid. lia.
  - unfold saveRequest, openDB. rewrite Hup. simpl. apply grows_refl.
Qed.

Lemma world_for_store (v : Z) (s : Site) :
  rows (idb (world_for v s)) = rows (idb (site s)) /\
  nextKey (idb (world_for v s)) = nextKey (idb (site s)).
Proof. unfold world_for. destruct (dbVersion s <=? v); split; reflexivity. Qed.

(** A program of one script, run alone on the database as the script
    finds it. *)
Lemma as_script_ok (lim v : Z) {A} (p : Prog A) (s : Site) :
  safe lim p ->
  (forall w, wf_db (idb w) -> grows (idb w) (idb (snd (run p w)))) ->
  db_ok lim (idb (site s)) ->
  db_ok lim (idb (site (as_script v p s))) /\
  descends (idb (site s)) (idb (site (as_script v p s))) /\
  grows (idb (site s)) (idb (site (as_script v p s))).
Proof.
  intros Hp Hg Hok. destruct (world_for_store v s) as [Hr Hk].
  assert (Hok0 : db_ok lim (idb (world_for v s))) by (exact (db_ok_rows _ _ _ Hr Hk Hok)).
  destruct (run_ok lim p _ Hp Hok0) as [H1 H2].
  pose proof (Hg _ (proj1 Hok0)) as H3.
  unfold as_script. cbn [site idb set_idb].
  split; [|split].
  - exact (db_ok_rows _ _ _ eq_refl eq_refl H1).
  - exact (descends_rows _ _ _ _ (eq_sym Hr) (eq_sym Hk) eq_refl eq_refl H2).
  - exact (grows_rows _ _ _ _ (eq_sym Hr) (eq_sym Hk) eq_refl H3).
Qed.

Lemma perform_ok (lim : Z) (s : Site) (o : Operation) :
  MAX_RETRIES <= lim -> operation_ok lim o -> db_ok lim (idb (site s)) ->
  db_ok lim (idb (site (perform s o))) /\
  descends (idb (site s)) (idb (site (perform s o))) /\
  grows (idb (site s)) (idb (site (perform s o))).
Proof.
  intros Hl Ho Hok. destruct o as [request| |d| |dt|n]; cbn [perform].
  - apply as_script_ok; [apply safe_onfetch, Hl | apply onfetch_grows | exact Hok].
  - apply as_script_ok; [apply safe_sw_pass, Hl | apply sw_pass_grows | exact Hok].
  - apply as_script_ok; [apply safe_call; exact Ho | apply page_save_grows | exact Hok].
  - apply as_script_ok; [apply safe_page_pass, Hl | apply page_pass_grows | exact Hok].
  - split; [exact Hok|]. split; [apply descends_refl | apply grows_refl].
  - split; [exact Hok|]. split; [apply descends_refl | apply grows_refl].
Qed.

Lemma perform_all_ok (lim : Z) (l : list Operation) (s : Site) :
  MAX_RETRIES <= lim -> Forall (operation_ok lim) l -> db_ok lim (idb (site s)) ->
  db_ok lim (idb (site (perform_all s l))) /\
  descends (idb (site s)) (idb (site (perform_all s l))) /\
  grows (idb (site s)) (idb (site (perform_all s l))).
Proof.
  intros Hl Hall. revert s. induction Hall as [|o l Ho Hall IH]; intros s Hok.
  - split; [exact Hok|]. split; [apply descends_refl | apply grows_refl].
  - change (perform_all s (o :: l)) with (perform_all (perform s o) l).
    destruct (perform_ok lim s o Hl Ho Hok) as (H1 & H2 & H3).
    destruct (IH _ H1) as (H4 & H5 & H6).
    split; [exact H4|]. split; [eapply descends_trans; eassumption|].
    eapply grows_trans; [apply H2 | exact H3 | exact H6].
Qed.








(** Nor is [MAX_RETRIES] a bound on what the store holds: a request
    handed to [saveOfflineRequest] with a retry count of 9 is stored
    with it; the next pass of the page deletes it unsent. *)
Lemma retry_count_above_limit_when_handed_in :
  let s := deliver_all {| world := world0 offline empty_db; tasks := [] |}
             [SaveOffline (saved_post "/orders/a" 1699999990000 9); Settle 0] in
  let s' := deliver_all s [ToPage (Some SYNC_OFFLINE_REQUESTS); Settle 1; Settle 1] in
  retry_counts s = [(1, Some 9)] /\ retry_counts s' = [] /\ netlog (world s') = [].
Proof. vm_compute. repeat split. Qed.


(** * Further properties of the code *)

(** ** The IndexedDB helpers *)

Lemma store_put_same_keys (x r : Stored) (rs : list Stored) :
  sorted_rows rs -> store_get (id x) rs = Some r -> id <$> store_put x rs = id <$> rs.
Proof.
  unfold sorted_rows. induction 1 as [|y rs Hs IH Hy]; intros Hget; [discriminate|].
  simpl. unfold store_get in Hget. simpl in Hget.
  destruct (Z.eqb_spec (id y) (id x)) as [E|E].
  - destruct (Z.ltb_spec (id x) (id y)); [lia|].
    destruct (Z.eqb_spec (id x) (id y)); [|lia].
    rewrite !fmap_cons. rewrite E. reflexivity.
  - assert (Hin : r ∈ rs /\ id r = id x) by (apply store_get_in; exact Hget).
    rewrite Forall_forall in Hy. pose proof (Hy r (proj1 Hin)) as Hlt.
    destruct (Z.ltb_spec (id x) (id y)); [lia|].
    destruct (Z.eqb_spec (id x) (id y)); [lia|].
    rewrite !fmap_cons. rewrite IH by exact Hget. reflexivity.
Qed.

Lemma wf_db_without (key : Z) (db : IDB) : wf_db db -> wf_db (db_without key db).
Proof.
  intros [Hs Hb]. split; simpl.
  - apply sorted_delete. exact Hs.
  - rewrite Forall_forall in *. intros x Hx. apply elem_of_store_delete in Hx. apply Hb, Hx.
Qed.

(** X1: saving a request resolves, files the request under the key of
    the generator behind all older records, and [getAllRequests] and a
    lookup of that key return it; deleting that key again restores the
    old records, but the generator has moved on: the next request saved
    gets the next key, not the key of the deleted record. *)
Theorem save_lookup_delete (d d' : RequestData) (db : IDB) :
  wf_db db -> up db = true ->
  let key := nextKey db in
  let db1 := snd (saveRequest d db) in
  let db2 := snd (deleteRequest key db1) in
  let db3 := snd (saveRequest d' db2) in
  fst (saveRequest d db) = Ok tt /\
  fst (getAllRequests db1) = Ok (rows db ++ [{| id := key; data := d |}]) /\
  store_get key (rows db1) = Some {| id := key; data := d |} /\
  (forall k, k <> key -> store_get k (rows db1) = store_get k (rows db)) /\
  wf_db db1 /\
  rows db2 = rows db /\ nextKey db2 = key + 1 /\
  rows db3 = rows db ++ [{| id := key + 1; data := d' |}].
Proof.
  intros Hwf Hup key db1 db2 db3.
  assert (E1 : saveRequest d db
               = (Ok tt, {| up := true; rows := rows db ++ [{| id := key; data := d |}];
                            nextKey := key + 1 |})) by (apply saveRequest_appends; assumption).
  assert (Hno : forall r, r ∈ rows db -> id r <> key).
  { destruct Hwf as [_ Hb]. rewrite Forall_forall in Hb. intros r Hr.
    specialize (Hb r Hr). unfold key. lia. }
  assert (Hdel : store_delete key (rows db ++ [{| id := key; data := d |}]) = rows db).
  { unfold store_delete. rewrite List.filter_app. simpl. rewrite Z.eqb_refl. simpl.
    rewrite app_nil_r. apply store_delete_absent. rewrite Forall_forall. exact Hno. }
  assert (Hwf1 : wf_db db1) by (apply saveRequest_wf; assumption).
  subst db3 db2 db1. rewrite E1 in *. cbn [snd fst] in *.
  split; [reflexivity|]. split; [reflexivity|]. split.
  { cbn [rows]. change key with (id {| id := key; data := d |}) at 1.
    rewrite <- (store_put_fresh {| id := key; data := d |} (rows db)).
    - apply store_get_put_eq.
    - destruct Hwf as [_ Hb]. exact Hb. }
  split.
  { intros k Hk. cbn [rows].
    rewrite <- (store_put_fresh {| id := key; data := d |} (rows db)).
    - apply store_get_put_ne. simpl. exact Hk.
    - destruct Hwf as [_ Hb]. exact Hb. }
  split; [exact Hwf1|].
  unfold deleteRequest, openDB. cbn [up snd rows set_rows nextKey].
  rewrite Hdel. split; [reflexivity|]. split; [reflexivity|].
  rewrite saveRequest_appends.
  - reflexivity.
  - destruct Hwf as [Hs Hb]. split; simpl; [exact Hs|].
    eapply Forall_impl; [exact Hb|]. simpl. intros; unfold key; lia.
  - reflexivity.
Qed.

Lemma save_lookup_delete_witness :
  wf_db empty_db /\ up empty_db = true /\
  rows (snd (saveRequest order_b (snd (deleteRequest 1 (snd (saveRequest order_a empty_db))))))
    = [{| id := 2; data := order_b |}].
Proof.
  split; [exact wf_empty_db|]. split; [reflexivity|].
  exact (proj2 (proj2 (proj2 (proj2 (proj2 (proj2 (proj2
           (save_lookup_delete order_a order_b empty_db wf_empty_db eq_refl)))))))).
Defined.

(** X2: [deleteRequest] resolves, removes the record under the key and
    no other, leaves the order of the others and the key generator as
    they are; deleting a key that has no record changes nothing, so a
    second deletion is harmless. *)
Theorem deleteRequest_removes_one (key : Z) (db : IDB) :
  up db = true ->
  let db' := snd (deleteRequest key db) in
  fst (deleteRequest key db) = Ok tt /\
  store_get key (rows db') = None /\
  (forall k, k <> key -> store_get k (rows db') = store_get k (rows db)) /\
  (forall r, r ∈ rows db' <-> r ∈ rows db /\ id r <> key) /\
  (sorted_rows (rows db) -> sorted_rows (rows db')) /\
  nextKey db' = nextKey db /\
  ((forall r, r ∈ rows db -> id r <> key) -> db' = db) /\
  deleteRequest key db' = (Ok tt, db').
Proof.
  intros Hup db'. subst db'. rewrite deleteRequest_up by exact Hup. cbn [fst snd].
  split; [reflexivity|]. split; [apply store_get_delete_eq|].
  split; [intros k Hk; apply store_get_delete_ne; lia|].
  split; [intros r; apply elem_of_store_delete|].
  split; [apply sorted_delete|]. split; [reflexivity|]. split.
  - intros Hno. unfold db_without. rewrite store_delete_absent.
    + destruct db; reflexivity.
    + rewrite Forall_forall. exact Hno.
  - rewrite deleteRequest_up by exact Hup. f_equal.
    unfold db_without, set_rows. simpl. f_equal.
    apply store_delete_absent. rewrite Forall_forall.
    intros x Hx. apply elem_of_store_delete in Hx. tauto.
Qed.

Lemma deleteRequest_removes_one_witness :
  up (db_of [order_a; order_b]) = true /\
  store_get 1 (rows (snd (deleteRequest 1 (db_of [order_a; order_b])))) = None.
Proof.
  split; [reflexivity|].
  exact (proj1 (proj2 (deleteRequest_removes_one 1 (db_of [order_a; order_b]) eq_refl))).
Defined.

Lemma store_put_put (x y : Stored) (rs : list Stored) :
  id x = id y -> store_put x (store_put y rs) = store_put x rs.
Proof.
  intros E. induction rs as [|z rs IH]; simpl.
  - rewrite E, Z.ltb_irrefl, Z.eqb_refl. reflexivity.
  - rewrite E. destruct (Z.ltb_spec (id y) (id z)); simpl.
    + rewrite E, Z.ltb_irrefl, Z.eqb_refl. reflexivity.
    + destruct (Z.eqb_spec (id y) (id z)) as [E'|E']; simpl.
      * rewrite E, Z.ltb_irrefl, Z.eqb_refl. reflexivity.
      * rewrite E. destruct (Z.ltb_spec (id y) (id z)); [lia|].
        destruct (Z.eqb_spec (id y) (id z)); [lia|]. rewrite IH. reflexivity.
Qed.

(** X3: on a record that exists, [updateRequestRetryCount] resolves and
    puts the record back under its key with the new retry count and
    every other field as it was; no other record, the order of the keys
    and the key generator change, and of two updates the later count
    stays. *)
Theorem updateRequestRetryCount_existing (key retry retry' : Z) (db : IDB) (r : Stored) :
  up db = true -> sorted_rows (rows db) -> store_get key (rows db) = Some r ->
  let db' := snd (updateRequestRetryCount key retry db) in
  fst (updateRequestRetryCount key retry db) = Ok tt /\
  store_get key (rows db') = Some {| id := key; data := set_retryCount (data r) retry |} /\
  same_but_retry (data r) (set_retryCount (data r) retry) /\
  (forall k, k <> key -> store_get k (rows db') = store_get k (rows db)) /\
  id <$> rows db' = id <$> rows db /\
  sorted_rows (rows db') /\ nextKey db' = nextKey db /\ up db' = true /\
  snd (updateRequestRetryCount key retry' db') = snd (updateRequestRetryCount key retry' db).
Proof.
  intros Hup Hs Hget db'.
  assert (Hid : id r = key) by (apply (store_get_in key r (rows db)), Hget).
  set (x := {| id := key; data := set_retryCount (data r) retry |}).
  assert (E : updateRequestRetryCount key retry db = (Ok tt, set_rows db (store_put x (rows db)))).
  { unfold updateRequestRetryCount, openDB. rewrite Hup, Hget, Hid. reflexivity. }
  subst db'. rewrite E. cbn [fst snd rows set_rows nextKey up].
  assert (Hx : store_get key (store_put x (rows db)) = Some x)
    by exact (store_get_put_eq x (rows db)).
  split; [reflexivity|]. split; [exact Hx|].
  split; [unfold same_but_retry; simpl; tauto|].
  split; [intros k Hk; apply store_get_put_ne; simpl; exact Hk|].
  split; [apply (store_put_same_keys x r); assumption|].
  split; [apply sorted_put; exact Hs|]. split; [reflexivity|]. split; [exact Hup|].
  unfold updateRequestRetryCount, openDB. cbn [up rows set_rows]. rewrite Hup, Hx, Hget.
  cbn [snd set_rows up rows nextKey id data]. rewrite Hid.
  rewrite store_put_put by reflexivity. reflexivity.
Qed.

Lemma updateRequestRetryCount_existing_witness :
  up (db_of [order_a; order_b]) = true /\ sorted_rows (rows (db_of [order_a; order_b])) /\
  store_get 2 (rows (db_of [order_a; order_b])) = Some {| id := 2; data := order_b |} /\
  store_get 2 (rows (snd (updateRequestRetryCount 2 4 (db_of [order_a; order_b]))))
    = Some {| id := 2; data := set_retryCount order_b 4 |}.
Proof.
  assert (Hs : sorted_rows (rows (db_of [order_a; order_b]))).
  { apply (save_all_wf [order_a; order_b] empty_db wf_empty_db eq_refl). }
  split; [reflexivity|]. split; [exact Hs|]. split; [reflexivity|].
  exact (proj1 (proj2 (updateRequestRetryCount_existing 2 4 0 (db_of [order_a; order_b])
                         {| id := 2; data := order_b |} eq_refl Hs eq_refl))).
Defined.

(** X4: while the database cannot be opened, each of the four helpers
    rejects with the error of the failed request and stores nothing;
    the pass of the service worker and the pass of the page then reject
    before any request is sent, and the service worker's
    [syncOfflineRequests] rejects without refreshing its cache.  In
    each case the world stays as it was. *)
Theorem closed_database_rejects (w : World) (d : RequestData) (key retry : Z) :
  up (idb w) = false ->
  saveRequest d (idb w) = (Err StorageError, idb w) /\
  getAllRequests (idb w) = (Err StorageError, idb w) /\
  deleteRequest key (idb w) = (Err StorageError, idb w) /\
  updateRequestRetryCount key retry (idb w) = (Err StorageError, idb w) /\
  run SW.syncStoredPosts w = (Err StorageError, w) /\
  run SW.syncOfflineRequests w = (Err StorageError, w) /\
  run SmartCache.syncOfflineRequests w = (Err StorageError, w).
Proof.
  intros Hup.
  assert (G : getAllRequests (idb w) = (Err StorageError, idb w))
    by (unfold getAllRequests, openDB; rewrite Hup; reflexivity).
  assert (S1 : run SW.syncStoredPosts w = (Err StorageError, w)).
  { unfold SW.syncStoredPosts. rewrite run_await. simpl. rewrite G, set_idb_same. reflexivity. }
  split; [unfold saveRequest, openDB; rewrite Hup; reflexivity|].
  split; [exact G|].
  split; [unfold deleteRequest, openDB; rewrite Hup; reflexivity|].
  split; [unfold updateRequestRetryCount, openDB; rewrite Hup; reflexivity|].
  split; [exact S1|]. split.
  - unfold SW.syncOfflineRequests. rewrite run_await, S1. reflexivity.
  - unfold SmartCache.syncOfflineRequests. rewrite run_await. simpl.
    rewrite G, set_idb_same. reflexivity.
Qed.

Lemma closed_database_rejects_witness :
  up (idb (world_cached offline)) = true /\
  up (idb (set_idb (world_cached offline) closed_db)) = false /\
  run SW.syncOfflineRequests (set_idb (world_cached offline) closed_db)
    = (Err StorageError, set_idb (world_cached offline) closed_db).
Proof.
  split; [reflexivity|]. split; [reflexivity|].
  exact (proj1 (proj2 (proj2 (proj2 (proj2 (proj2
    (closed_database_rejects (set_idb (world_cached offline) closed_db) order_a 1 1 eq_refl))))))).
Defined.

(** ** Headers and the replayed request *)

Lemma replay_init_snapshot (request : Request) (bodyText : string) (now : Z) :
  wf_headers (req_headers request) ->
  req_method request <> "GET" -> req_method request <> "HEAD" ->
  SW.replay_init (SW.snapshot request bodyText now)
    = {| init_method := req_method request;
         init_headers := req_headers request;
         init_body := Some bodyText |}.
Proof.
  intros Hwf Hg Hh. unfold SW.replay_init.
  cbn [headers method SW.snapshot body contentType].
  rewrite (serializeHeaders_id _ (proj1 Hwf)), (new_Headers_id _ Hwf).
  rewrite (is_read_false _ Hg Hh).
  f_equal. unfold headers_get, headers_set.
  destruct (obj_get (lower "Content-Type") (req_headers request)) as [v|] eqn:Hct;
    cbn [default from_option Datatypes.id]; [|reflexivity].
  destruct (String.eqb v ""); [reflexivity|]. apply obj_set_get. exact Hct.
Qed.

(** X5: for an intercepted request whose headers are a platform
    [Headers] object and whose method is neither GET nor HEAD, the
    object the fetch handler saves leads both passes to the same
    [fetch] call, with the url, the method, the headers and the body
    text of the intercepted request: [serializeHeaders], [new Headers]
    and the [Content-Type] step change nothing. *)
Theorem replay_reproduces_request (request : Request) (bodyText : string) (now : Z) :
  wf_headers (req_headers request) ->
  req_method request <> "GET" -> req_method request <> "HEAD" ->
  let d := SW.snapshot request bodyText now in
  headers d = req_headers request /\
  sw_call d = FetchUrl (req_url request)
                {| init_method := req_method request;
                   init_headers := req_headers request;
                   init_body := Some bodyText |} /\
  page_call d = sw_call d.
Proof.
  intros Hwf Hg Hh d.
  assert (Hser : headers d = req_headers request).
  { subst d. cbn [headers SW.snapshot]. apply serializeHeaders_id, Hwf. }
  split; [exact Hser|].
  unfold sw_call, page_call. subst d.
  rewrite (replay_init_snapshot request bodyText now Hwf Hg Hh).
  split; [reflexivity|].
  unfold SmartCache.fetchOptions. rewrite Hser.
  cbn [url method body SW.snapshot SmartCache.prepareRequestBody]. reflexivity.
Qed.

Lemma replay_reproduces_request_witness :
  wf_headers (req_headers post_orders) /\
  req_method post_orders <> "GET" /\ req_method post_orders <> "HEAD" /\
  page_call (SW.snapshot post_orders "{}" 0) = sw_call (SW.snapshot post_orders "{}" 0).
Proof.
  assert (Hwf : wf_headers (req_headers post_orders)).
  { split; [|repeat constructor]. simpl. repeat constructor; set_solver. }
  assert (Hg : req_method post_orders <> "GET") by discriminate.
  assert (Hh : req_method post_orders <> "HEAD") by discriminate.
  split; [exact Hwf|]. split; [exact Hg|]. split; [exact Hh|].
  exact (proj2 (proj2 (replay_reproduces_request post_orders "{}" 0 Hwf Hg Hh))).
Defined.

(** ** The fetch handler *)

Ltac handler_frame msgs :=
  split; [eexists; reflexivity|];
  do 4 (split; [reflexivity|]);
  split; [exists msgs; split; [rewrite ?app_nil_r; reflexivity|simpl; lia]|];
  split; intros; try reflexivity; tauto.

(** X6: whatever the network, the cache, the body of the request and
    the database do, the promise the fetch handler gives to
    [respondWith] is fulfilled with a response, never rejected; the
    handler makes exactly one network call, the one for the intercepted
    request, and posts at most one message.  For a GET or HEAD request
    it leaves the queue of saved requests untouched, for any other
    method it leaves the cache untouched. *)
Theorem onfetch_always_answers (request : Request) (w : World) :
  let w' := snd (run (SW.onfetch request) w) in
  (exists response, fst (run (SW.onfetch request) w) = Ok response) /\
  netlog w' = netlog w ++ [FetchRequest request] /\
  net w' = net w /\ clock w' = clock w /\ page w' = page w /\
  (exists msgs, outbox w' = outbox w ++ msgs /\ (List.length msgs <= 1)%nat) /\
  (req_method request = "GET" \/ req_method request = "HEAD" -> idb w' = idb w) /\
  (req_method request <> "GET" -> req_method request <> "HEAD" -> cache w' = cache w).
Proof.
  unfold SW.onfetch.
  destruct (String.eqb (req_method request) "GET" || String.eqb (req_method request) "HEAD")
    eqn:Hm.
  - assert (Hne : ~ (req_method request <> "GET" /\ req_method request <> "HEAD")).
    { intros [Hg Hh]. rewrite (is_read_false _ Hg Hh) in Hm. discriminate. }
    simpl. destruct (net w (netlog w) (FetchRequest request)) as [response|e]; simpl.
    + destruct (cache_put_rejects request response); simpl;
        handler_frame [OFFLINE_REQUEST_SYNCED (req_url request) (req_method request)].
    + destruct (cache w !! cache_key request) as [[rq c]|]; simpl.
      * handler_frame [OFFLINE_USAGE].
      * handler_frame (@nil Message).
  - assert (Hne : ~ (req_method request = "GET" \/ req_method request = "HEAD")).
    { intros H. rewrite (is_read_true _ H) in Hm. discriminate. }
    simpl. destruct (net w (netlog w) (FetchRequest request)) as [response|e]; simpl.
    + handler_frame (@nil Message).
    + destruct (req_text request) as [b|e']; simpl.
      * destruct (saveRequest _ (idb w)) as [[[]|e''] db]; simpl.
        -- handler_frame [OFFLINE_REQUEST_SAVED (req_url request) (req_method request)].
        -- handler_frame (@nil Message).
      * handler_frame (@nil Message).
Qed.

(** X7: while the network answers, a request of any method but GET and
    HEAD is passed through: the handler returns the network's response
    whatever its status, an error status included, and saves nothing,
    caches nothing and posts nothing. *)
Theorem mutating_request_online (request : Request) (w : World) (response : Response) :
  req_method request <> "GET" -> req_method request <> "HEAD" ->
  net w (netlog w) (FetchRequest request) = Ok response ->
  run (SW.onfetch request) w
    = (Ok response, set_netlog w (netlog w ++ [FetchRequest request])).
Proof.
  intros Hg Hh Hnet. unfold SW.onfetch. rewrite (is_read_false _ Hg Hh).
  simpl. rewrite Hnet. reflexivity.
Qed.

Lemma mutating_request_online_witness :
  req_method post_orders <> "GET" /\ req_method post_orders <> "HEAD" /\
  net (world0 (answers 500) empty_db) (netlog (world0 (answers 500) empty_db))
      (FetchRequest post_orders) = Ok (plain_response 500) /\
  idb (snd (run (SW.onfetch post_orders) (world0 (answers 500) empty_db))) = empty_db.
Proof.
  assert (Hg : req_method post_orders <> "GET") by discriminate.
  assert (Hh : req_method post_orders <> "HEAD") by discriminate.
  split; [exact Hg|]. split; [exact Hh|]. split; [reflexivity|].
  rewrite (mutating_request_online post_orders (world0 (answers 500) empty_db)
             (plain_response 500) Hg Hh eq_refl).
  reflexivity.
Defined.

(** X8: a GET request that the network answers with another status
    than 206 is returned to the page, stored in the cache under its
    method and URL in place of any older entry, and announced with one
    OFFLINE_REQUEST_SYNCED message; when the same request is intercepted
    next and the network fails, the handler returns that very response
    from the cache and posts OFFLINE_USAGE.  A HEAD request that the
    network answers is returned and announced alike, but the cache
    refuses it and stays as it is: if the cache held nothing for it,
    the next HEAD request that fails is answered with status 503. *)
Theorem read_through (request : Request) (w : World) (response : Response) :
  net w (netlog w) (FetchRequest request) = Ok response ->
  let w0 := set_netlog w (netlog w ++ [FetchRequest request]) in
  let synced := OFFLINE_REQUEST_SYNCED (req_url request) (req_method request) in
  let w1 := snd (run (SW.onfetch request) w) in
  (req_method request = "GET" -> status response <> 206 ->
   fst (run (SW.onfetch request) w) = Ok response /\
   w1 = set_outbox
          (set_cache w0 (<[cache_key request := (request, response)]> (cache w)))
          (outbox w ++ [synced]) /\
   forall e, net w1 (netlog w1) (FetchRequest request) = Err e ->
     run (SW.onfetch request) w1
       = (Ok response,
          set_outbox (set_netlog w1 (netlog w1 ++ [FetchRequest request]))
                     (outbox w1 ++ [OFFLINE_USAGE]))) /\
  (req_method request = "HEAD" ->
   fst (run (SW.onfetch request) w) = Ok response /\
   w1 = set_outbox w0 (outbox w ++ [synced]) /\
   forall e, net w1 (netlog w1) (FetchRequest request) = Err e ->
     cache w !! cache_key request = None ->
     run (SW.onfetch request) w1
       = (Ok SW.response_503, set_netlog w1 (netlog w1 ++ [FetchRequest request]))).
Proof.
  intros Hnet w0 synced w1. split.
  - intros Hm Hst.
    assert (Hput : cache_put_rejects request response = false).
    { unfold cache_put_rejects. rewrite Hm.
      destruct (Z.eqb_spec (status response) 206); [contradiction|reflexivity]. }
    assert (E : run (SW.onfetch request) w
                = (Ok response,
                   set_outbox
                     (set_cache w0 (<[cache_key request := (request, response)]> (cache w)))
                     (outbox w ++ [synced]))).
    { unfold SW.onfetch. rewrite (is_read_true _ (or_introl Hm)). simpl.
      rewrite Hnet. simpl. rewrite Hput. reflexivity. }
    subst w1. rewrite E. cbn [fst snd]. split; [reflexivity|]. split; [reflexivity|].
    intros e Hdown. unfold SW.onfetch. rewrite (is_read_true _ (or_introl Hm)).
    cbn [run bind mbind Prog_bind exec call]. simpl in Hdown |- *. rewrite Hdown. simpl.
    rewrite lookup_insert_eq. reflexivity.
  - intros Hm.
    assert (Hput : cache_put_rejects request response = true).
    { unfold cache_put_rejects. rewrite Hm. reflexivity. }
    assert (E : run (SW.onfetch request) w = (Ok response, set_outbox w0 (outbox w ++ [synced]))).
    { unfold SW.onfetch. rewrite (is_read_true _ (or_intror Hm)). simpl.
      rewrite Hnet. simpl. rewrite Hput. reflexivity. }
    subst w1. rewrite E. cbn [fst snd]. split; [reflexivity|]. split; [reflexivity|].
    intros e Hdown Hnone. unfold SW.onfetch. rewrite (is_read_true _ (or_intror Hm)).
    cbn [run bind mbind Prog_bind exec call]. simpl in Hdown |- *. rewrite Hdown. simpl.
    rewrite Hnone. reflexivity.
Qed.

Lemma read_through_witness :
  let w := world0 (up_then_down (plain_response 200)) empty_db in
  net w (netlog w) (FetchRequest get_data) = Ok (plain_response 200) /\
  req_method get_data = "GET" /\ status (plain_response 200) <> 206 /\
  fst (run (SW.onfetch get_data) (snd (run (SW.onfetch get_data) w)))
    = Ok (plain_response 200).
Proof.
  intros w.
  assert (Hst : status (plain_response 200) <> 206) by discriminate.
  split; [reflexivity|]. split; [reflexivity|]. split; [exact Hst|].
  rewrite (proj2 (proj2 (proj1 (read_through get_data w (plain_response 200) eq_refl)
                           eq_refl Hst))
             {| err_message := "Failed to fetch" |} eq_refl).
  reflexivity.
Defined.

(** ** The replay passes *)

Lemma sw_after_ok (r : Stored) (w : World) (response : Response) :
  net w (netlog w) (sw_call (data r)) = Ok response -> ok response = true ->
  sw_after r w =
    set_outbox (set_idb (set_netlog w (netlog w ++ [sw_call (data r)]))
                        (db_without (id r) (idb w)))
               (outbox w ++ [OFFLINE_REQUEST_SYNCED (url (data r)) (method (data r))]).
Proof. intros Hnet Hok. unfold sw_after. cbv zeta. rewrite Hnet, Hok. reflexivity. Qed.

Lemma page_after_ok (r : Stored) (w : World) (response : Response) :
  net w (netlog w) (page_call (data r)) = Ok response -> ok response = true ->
  page_after r w =
    set_page (set_idb (set_netlog w (netlog w ++ [page_call (data r)]))
                      (db_without (id r) (idb w)))
             (notifyUser (synced_text (data r)) "success" (clock w) (page w)).
Proof. intros Hnet Hok. unfold page_after. cbv zeta. rewrite Hnet, Hok. reflexivity. Qed.

(** X9: when a pass reaches a saved request that is not expired and the
    network answers its replay with a status from 200 to 299, the pass
    deletes the request from the store and goes on with the requests
    behind it; the service worker posts OFFLINE_REQUEST_SYNCED with the
    url and the method, the page shows the toast
    [Synced offline request: <method> <url>] of type success.  At the
    end of the pass the request is not in the store. *)
Theorem successful_replay_removed (w : World) (l1 l2 : list Stored) (r : Stored) :
  up (idb w) = true -> sorted_rows (rows (idb w)) -> rows (idb w) = l1 ++ r :: l2 ->
  expired (clock w) (data r) = false ->
  let now := clock w in
  (let w1 := snd (run (SW.syncStoredPosts_for now l1) w) in
   forall response,
   net w1 (netlog w1) (sw_call (data r)) = Ok response -> ok response = true ->
   let w2 := set_outbox (set_idb (set_netlog w1 (netlog w1 ++ [sw_call (data r)]))
                                 (db_without (id r) (idb w1)))
               (outbox w1 ++ [OFFLINE_REQUEST_SYNCED (url (data r)) (method (data r))]) in
   store_get (id r) (rows (idb w1)) = Some r /\
   run SW.syncStoredPosts w = run (SW.syncStoredPosts_for now l2) w2 /\
   fst (run SW.syncStoredPosts w) = Ok tt /\
   store_get (id r) (rows (idb (snd (run SW.syncStoredPosts w)))) = None) /\
  (let w1 := snd (run (SmartCache.syncOfflineRequests_for now l1) w) in
   forall response,
   net w1 (netlog w1) (page_call (data r)) = Ok response -> ok response = true ->
   let w2 := set_page (set_idb (set_netlog w1 (netlog w1 ++ [page_call (data r)]))
                               (db_without (id r) (idb w1)))
               (notifyUser ("Synced offline request: " +:+ method (data r) +:+ " "
                            +:+ url (data r)) "success" now (page w1)) in
   store_get (id r) (rows (idb w1)) = Some r /\
   run SmartCache.syncOfflineRequests w
     = run (SmartCache.syncOfflineRequests_for now l2) w2 /\
   fst (run SmartCache.syncOfflineRequests w) = Ok tt /\
   store_get (id r) (rows (idb (snd (run SmartCache.syncOfflineRequests w)))) = None).
Proof.
  intros Hup Hs Hrows Hlive now.
  assert (Hne2 : Forall (fun x => id x <> id r) l2).
  { rewrite Hrows in Hs. apply (sorted_app_middle _ _ _ Hs). }
  split.
  - intros w1.
    assert (Hw1 : w1 = replayed sw_after now l1 w).
    { subst w1. rewrite sw_loop_replay_for, (replay_for_run _ _ _ sw_replay_one_local)
        by exact Hup. reflexivity. }
    clearbody w1. intros response Hnet Hok w2.
    destruct (replayed_reaches _ _ _ now w l1 l2 r sw_replay_one_local Hup Hs Hrows)
      as (Hup1 & Hc1 & Hget1). rewrite <- Hw1 in Hup1, Hc1, Hget1.
    assert (Hall : replayed sw_after now (rows (idb w)) w = replayed sw_after now l2 w2).
    { rewrite Hrows, (replayed_app _ now l1 (r :: l2) w). simpl. rewrite <- Hw1.
      change (expired now (data r) = false) in Hlive. rewrite Hlive.
      rewrite (sw_after_ok r w1 response Hnet Hok). reflexivity. }
    split; [exact Hget1|]. rewrite sw_pass_run by exact Hup. fold now. rewrite Hall.
    split.
    { rewrite sw_loop_replay_for, (replay_for_run _ _ _ sw_replay_one_local) by exact Hup1.
      reflexivity. }
    split; [reflexivity|]. cbn [snd].
    rewrite (replayed_get_ne _ _ _ sw_replay_one_local) by exact Hne2.
    apply store_get_delete_eq.
  - intros w1.
    assert (Hw1 : w1 = replayed page_after now l1 w).
    { subst w1. rewrite page_loop_replay_for, (replay_for_run _ _ _ page_replay_one_local)
        by exact Hup. reflexivity. }
    clearbody w1. intros response Hnet Hok w2.
    destruct (replayed_reaches _ _ _ now w l1 l2 r page_replay_one_local Hup Hs Hrows)
      as (Hup1 & Hc1 & Hget1). rewrite <- Hw1 in Hup1, Hc1, Hget1.
    assert (Hall : replayed page_after now (rows (idb w)) w = replayed page_after now l2 w2).
    { rewrite Hrows, (replayed_app _ now l1 (r :: l2) w). simpl. rewrite <- Hw1.
      change (expired now (data r) = false) in Hlive. rewrite Hlive.
      rewrite (page_after_ok r w1 response Hnet Hok), Hc1. reflexivity. }
    split; [exact Hget1|]. rewrite page_pass_run by exact Hup. fold now. rewrite Hall.
    split.
    { rewrite page_loop_replay_for, (replay_for_run _ _ _ page_replay_one_local) by exact Hup1.
      reflexivity. }
    split; [reflexivity|]. cbn [snd].
    rewrite (replayed_get_ne _ _ _ page_replay_one_local) by exact Hne2.
    apply store_get_delete_eq.
Qed.

Lemma successful_replay_removed_witness :
  let w := world_queued (answers 201) [order_a; order_b] in
  let r := {| id := 1; data := order_a |} in
  up (idb w) = true /\ sorted_rows (rows (idb w)) /\
  rows (idb w) = [] ++ r :: [{| id := 2; data := order_b |}] /\
  expired (clock w) (data r) = false /\
  net w (netlog w) (sw_call (data r)) = Ok (plain_response 201) /\
  ok (plain_response 201) = true /\
  store_get 1 (rows (idb (snd (run SW.syncStoredPosts w)))) = None.
Proof.
  intros w r.
  assert (Hs : sorted_rows (rows (idb w))).
  { apply (save_all_wf [order_a; order_b] empty_db wf_empty_db eq_refl). }
  split; [reflexivity|]. split; [exact Hs|]. split; [reflexivity|]. split; [reflexivity|].
  split; [reflexivity|]. split; [reflexivity|].
  exact (proj2 (proj2 (proj2
    (proj1 (successful_replay_removed w [] [{| id := 2; data := order_b |}] r
              eq_refl Hs eq_refl eq_refl)
       (plain_response 201) eq_refl eq_refl)))).
Defined.

Lemma store_delete_head (r : Stored) (l : list Stored) :
  sorted_rows (r :: l) -> store_delete (id r) (r :: l) = l.
Proof. intros Hs. exact (store_delete_middle [] l r Hs). Qed.

Lemma sw_replayed_all_ok (now : Z) (l : list Stored) (w : World) :
  always_ok (net w) -> sorted_rows l -> rows (idb w) = l ->
  let w' := replayed sw_after now l w in
  rows (idb w') = [] /\ outbox w' = outbox w ++ synced_messages (live now l) /\
  page w' = page w.
Proof.
  revert w. induction l as [|r l IH]; intros w Hnet Hs Hrows; simpl.
  - rewrite app_nil_r. auto.
  - assert (Hs' : sorted_rows l) by (inversion Hs; assumption).
    assert (Hdel : store_delete (id r) (rows (idb w)) = l)
      by (rewrite Hrows; apply store_delete_head; exact Hs).
    destruct (expired now (data r)) eqn:He; simpl.
    + apply (IH (without (id r) w)); [exact Hnet|exact Hs'|exact Hdel].
    + destruct (Hnet (netlog w) (sw_call (data r))) as (response & Hr & Hok).
      rewrite (sw_after_ok r w response Hr Hok).
      match goal with |- context [replayed sw_after now l ?w1] =>
        destruct (IH w1 Hnet Hs' Hdel) as (H1 & H2 & H3) end.
      rewrite H1, H2, H3. simpl. rewrite <- app_assoc. auto.
Qed.

Lemma page_replayed_all_ok (now : Z) (l : list Stored) (w : World) :
  always_ok (net w) -> sorted_rows l -> rows (idb w) = l -> clock w = now ->
  let w' := replayed page_after now l w in
  rows (idb w') = [] /\ outbox w' = outbox w /\
  page w' = synced_toasts now (live now l) (page w).
Proof.
  revert w. induction l as [|r l IH]; intros w Hnet Hs Hrows Hc; simpl.
  - auto.
  - assert (Hs' : sorted_rows l) by (inversion Hs; assumption).
    assert (Hdel : store_delete (id r) (rows (idb w)) = l)
      by (rewrite Hrows; apply store_delete_head; exact Hs).
    destruct (expired now (data r)) eqn:He; simpl.
    + apply (IH (without (id r) w)); [exact Hnet|exact Hs'|exact Hdel|exact Hc].
    + destruct (Hnet (netlog w) (page_call (data r))) as (response & Hr & Hok).
      rewrite (page_after_ok r w response Hr Hok).
      match goal with |- context [replayed page_after now l ?w1] =>
        destruct (IH w1 Hnet Hs' Hdel Hc) as (H1 & H2 & H3) end.
      rewrite H1, H2, H3. simpl. rewrite Hc. auto.
Qed.

(** X10: while the network answers every replay with a success status,
    one pass empties the queue: the service worker's pass posts one
    OFFLINE_REQUEST_SYNCED per request that was not expired, in the
    order of the queue, and shows nothing; the page's pass publishes
    one success toast per such request, in that order, and posts
    nothing.  Expired requests go without a message. *)
Theorem pass_empties_queue_when_online (w : World) :
  up (idb w) = true -> sorted_rows (rows (idb w)) -> always_ok (net w) ->
  let replayed_now := live (clock w) (rows (idb w)) in
  (let w' := snd (run SW.syncStoredPosts w) in
   fst (run SW.syncStoredPosts w) = Ok tt /\ rows (idb w') = [] /\
   outbox w' = outbox w ++ synced_messages replayed_now /\ page w' = page w) /\
  (let w' := snd (run SmartCache.syncOfflineRequests w) in
   fst (run SmartCache.syncOfflineRequests w) = Ok tt /\ rows (idb w') = [] /\
   outbox w' = outbox w /\ page w' = synced_toasts (clock w) replayed_now (page w)).
Proof.
  intros Hup Hs Hnet. cbv zeta. split.
  - rewrite sw_pass_run by exact Hup. cbn [fst snd]. split; [reflexivity|].
    apply sw_replayed_all_ok; [exact Hnet|exact Hs|reflexivity].
  - rewrite page_pass_run by exact Hup. cbn [fst snd]. split; [reflexivity|].
    apply page_replayed_all_ok; [exact Hnet|exact Hs|reflexivity|reflexivity].
Qed.

Lemma pass_empties_queue_when_online_witness :
  let w := world_queued (answers 200) [order_a; order_b] in
  up (idb w) = true /\ sorted_rows (rows (idb w)) /\ always_ok (net w) /\
  outbox (snd (run SW.syncStoredPosts w))
    = [OFFLINE_REQUEST_SYNCED "/orders/a" "POST"; OFFLINE_REQUEST_SYNCED "/orders/b" "POST"].
Proof.
  intros w.
  assert (Hs : sorted_rows (rows (idb w))).
  { apply (save_all_wf [order_a; order_b] empty_db wf_empty_db eq_refl). }
  assert (Hnet : always_ok (net w)).
  { intros log c. eexists. split; reflexivity. }
  split; [reflexivity|]. split; [exact Hs|]. split; [exact Hnet|].
  rewrite (proj1 (proj2 (proj2 (proj1 (pass_empties_queue_when_online w eq_refl Hs Hnet))))).
  reflexivity.
Defined.

Section Survivors.

Variable one : Stored -> Prog (Res unit).
Variable call_of : RequestData -> Call.
Variable after : Stored -> World -> World.
Hypothesis local : entry_local one call_of after.

(** A record that a pass leaves in the store was replayed, not dropped,
    and carries one retry more. *)
Lemma replayed_survivor (now : Z) (l : list Stored) (w : World) :
  up (idb w) = true -> sorted_rows (rows (idb w)) -> sorted_rows l ->
  (forall r, r ∈ l -> store_get (id r) (rows (idb w)) = Some r) ->
  forall r x', r ∈ l -> store_get (id r) (rows (idb (replayed after now l w))) = Some x' ->
    expired now (data r) = false /\
    x' = {| id := id r;
            data := set_retryCount (data r) (or_zero (retryCount (data r)) + 1) |}.
Proof.
  revert w. induction l as [|r0 l IH]; intros w Hup Hs Hl Hsnap r x' Hr Hget.
  - inversion Hr.
  - simpl in Hget.
    assert (Hne : Forall (fun x => id x <> id r0) l).
    { apply (sorted_app_middle [] l r0) in Hl. apply Hl. }
    assert (Hl' : sorted_rows l) by (inversion Hl; assumption).
    set (w_mid := if expired now (data r0) then without (id r0) w else after r0 w) in *.
    assert (Hup_mid : up (idb w_mid) = true).
    { subst w_mid. destruct (expired now (data r0)); [exact Hup|].
      destruct (el_env _ _ _ local r0 w) as (_ & _ & Hu & _). rewrite Hu. exact Hup. }
    assert (Hs_mid : sorted_rows (rows (idb w_mid))).
    { subst w_mid. destruct (expired now (data r0)).
      - apply sorted_delete. exact Hs.
      - apply (after_sorted _ _ _ local). exact Hs. }
    assert (Hframe : forall k, k <> id r0 ->
                       store_get k (rows (idb w_mid)) = store_get k (rows (idb w))).
    { intros k Hk. subst w_mid. destruct (expired now (data r0)).
      - apply store_get_delete_ne. lia.
      - apply (after_get_ne _ _ _ local). exact Hk. }
    assert (Hsnap_mid : forall r2, r2 ∈ l -> store_get (id r2) (rows (idb w_mid)) = Some r2).
    { intros r2 Hr2. rewrite Hframe.
      - apply Hsnap. right. exact Hr2.
      - rewrite Forall_forall in Hne. apply Hne. exact Hr2. }
    apply elem_of_cons in Hr as [->|Hr].
    + rewrite (replayed_get_ne _ _ _ local) in Hget by exact Hne.
      subst w_mid. destruct (expired now (data r0)).
      * simpl in Hget. rewrite store_get_delete_eq in Hget. discriminate.
      * split; [reflexivity|].
        destruct (el_rows _ _ _ local r0 w) as [E|E]; rewrite E in Hget.
        -- simpl in Hget. rewrite store_get_delete_eq in Hget. discriminate.
        -- rewrite retried_present in Hget; [|exact Hup|apply Hsnap; left].
           cbn [rows set_rows] in Hget.
           change (id r0) with
             (id {| id := id r0;
                    data := set_retryCount (data r0) (or_zero (retryCount (data r0)) + 1) |})
             in Hget at 1.
           rewrite store_get_put_eq in Hget. inversion Hget. reflexivity.
    + exact (IH w_mid Hup_mid Hs_mid Hl' Hsnap_mid r x' Hr Hget).
Qed.

(** After a pass over the whole store, every record left was in the
    store before, was not expired, and has one retry more. *)
Lemma pass_survivor (w : World) (x' : Stored) :
  up (idb w) = true -> sorted_rows (rows (idb w)) ->
  x' ∈ rows (idb (replayed after (clock w) (rows (idb w)) w)) ->
  exists r, r ∈ rows (idb w) /\ expired (clock w) (data r) = false /\
    x' = {| id := id r;
            data := set_retryCount (data r) (or_zero (retryCount (data r)) + 1) |}.
Proof.
  intros Hup Hs Hx.
  assert (Hsnap : forall r, r ∈ rows (idb w) -> store_get (id r) (rows (idb w)) = Some r)
    by (intros r Hr; apply store_get_elem; assumption).
  assert (Hget : store_get (id x') (rows (idb (replayed after (clock w) (rows (idb w)) w)))
                 = Some x').
  { apply store_get_elem; [|exact Hx]. apply (replayed_sorted _ _ _ local). exact Hs. }
  destruct (replayed_grows _ _ _ local (clock w) (rows (idb w)) w Hs Hs Hsnap _ _ Hget)
    as (x & Hgx & _).
  apply store_get_in in Hgx as [Hin Hid].
  exists x. split; [exact Hin|]. rewrite <- Hid in Hget.
  exact (replayed_survivor (clock w) (rows (idb w)) w Hup Hs Hs Hsnap x x' Hin Hget).
Qed.

End Survivors.

Lemma onfetch_idb (request : Request) (w : World) :
  idb (snd (run (SW.onfetch request) w)) = idb w \/
  exists d, saveRequest d (idb w) = (Ok tt, idb (snd (run (SW.onfetch request) w))).
Proof.
  unfold SW.onfetch.
  destruct (String.eqb (req_method request) "GET" || String.eqb (req_method request) "HEAD").
  - simpl. destruct (net w (netlog w) (FetchRequest request)) as [response|e]; simpl.
    + destruct (cache_put_rejects request response); left; reflexivity.
    + destruct (cache w !! cache_key request) as [[rq c]|]; simpl; left; reflexivity.
  - simpl. destruct (net w (netlog w) (FetchRequest request)); simpl; [left; reflexivity|].
    destruct (req_text request) as [b|e']; simpl; [|left; reflexivity].
    destruct (saveRequest (SW.snapshot request b (clock w)) (idb w)) as [[[]|e''] db] eqn:E;
      simpl.
    + right. exists (SW.snapshot request b (clock w)). exact E.
    + left. unfold saveRequest in E. destruct (openDB (idb w)); [|congruence].
      destruct (store_get (nextKey (idb w)) (rows (idb w))); congruence.
Qed.

(** What an operation of the service worker does to the records under
    the keys below [limit]. *)
Lemma perform_tried (k limit : Z) (s : Site) (o : Operation) :
  worker_side o ->
  up (idb (site s)) = true -> dbVersion s <= WorkerDB.DB_VERSION ->
  wf_db (idb (site s)) -> limit <= nextKey (idb (site s)) ->
  tried k limit (idb (site s)) ->
  let s' := perform s o in
  up (idb (site s')) = true /\ dbVersion s' <= WorkerDB.DB_VERSION /\
  limit <= nextKey (idb (site s')) /\
  tried (k + match o with WorkerPass => 1 | _ => 0 end) limit (idb (site s')).
Proof.
  intros Ho Hup Hv Hwf Hlim Htr.
  assert (Hs : sorted_rows (rows (idb (site s)))) by apply Hwf.
  assert (Hfor : world_for WorkerDB.DB_VERSION s = site s).
  { unfold world_for. destruct (Z.leb_spec (dbVersion s) WorkerDB.DB_VERSION); [reflexivity|lia]. }
  assert (Hver : forall (A : Type) (p : Prog A),
            dbVersion (as_script WorkerDB.DB_VERSION p s) <= WorkerDB.DB_VERSION).
  { intros A p. unfold as_script. cbn [dbVersion].
    destruct (_ && _ && _); [lia|exact Hv]. }
  destruct o as [request| |d| |dt|n]; cbn [perform]; cbv zeta;
    try contradiction.
  - rewrite Z.add_0_r. split; [exact Hup|]. split; [apply Hver|].
    unfold as_script. rewrite Hfor. cbn [site idb set_idb set_up rows nextKey].
    destruct (onfetch_idb request (site s)) as [E|(d & E)].
    + rewrite E. auto.
    + rewrite (saveRequest_appends d _ Hwf Hup) in E. inversion E as [E'].
      cbn [nextKey rows]. split; [lia|].
      intros r Hr Hid. cbn [rows] in Hr. apply elem_of_app in Hr as [Hr|Hr].
      * apply Htr; assumption.
      * apply list_elem_of_singleton in Hr. subst r. simpl in Hid. lia.
  - split; [exact Hup|]. split; [apply Hver|].
    unfold as_script. rewrite Hfor. cbn [site idb set_idb set_up rows nextKey].
    rewrite sw_full_pass_idb, sw_pass_run by exact Hup. cbn [snd].
    destruct (replayed_env _ _ _ sw_replay_one_local (clock (site s))
                (rows (idb (site s))) (site s)) as (_ & _ & _ & Hn & _).
    rewrite Hn. split; [exact Hlim|].
    intros x' Hx' Hid. cbn [rows] in Hx'.
    destruct (pass_survivor _ _ _ sw_replay_one_local (site s) x' Hup Hs Hx')
      as (r & Hr & _ & ->).
    simpl in Hid |- *. specialize (Htr r Hr Hid).
    destruct (Z.eqb_spec (or_zero (retryCount (data r)) + 1) 0); lia.
  - rewrite Z.add_0_r. simpl. auto.
  - rewrite Z.add_0_r. simpl. auto.
Qed.

Lemma perform_all_tried (l : list Operation) (k limit : Z) (s : Site) :
  Forall worker_side l ->
  up (idb (site s)) = true -> dbVersion s <= WorkerDB.DB_VERSION ->
  db_ok MAX_RETRIES (idb (site s)) -> limit <= nextKey (idb (site s)) ->
  tried k limit (idb (site s)) ->
  tried (k + worker_passes l) limit (idb (site (perform_all s l))).
Proof.
  intros Hall. revert k s.
  induction Hall as [|o l Ho Hall IH]; intros k s Hup Hv Hok Hlim Htr.
  - unfold worker_passes. simpl. rewrite Z.add_0_r. exact Htr.
  - destruct (perform_tried k limit s o Ho Hup Hv (proj1 Hok) Hlim Htr)
      as (Hup' & Hv' & Hlim' & Htr').
    assert (Hop : operation_ok MAX_RETRIES o) by (destruct o; try exact I; contradiction).
    assert (Hok' : db_ok MAX_RETRIES (idb (site (perform s o))))
      by (apply perform_ok; [lia | exact Hop | exact Hok]).
    specialize (IH _ _ Hup' Hv' Hok' Hlim' Htr').
    change (perform_all s (o :: l)) with (perform_all (perform s o) l).
    replace (k + worker_passes (o :: l))
      with (k + match o with WorkerPass => 1 | _ => 0 end + worker_passes l); [exact IH|].
    unfold worker_passes. simpl. destruct o; simpl List.length; lia.
Qed.

(** X11: the service worker retries no saved request for ever.  From
    an open store that the service worker can open and whose retry
    counts lie between 0 and MAX_RETRIES, once the service worker has
    run more than MAX_RETRIES passes, each to its end, every request
    that was in the queue at the start is out of it, whatever the
    network answered and whatever the service worker intercepted in
    between: the records left are under keys generated later. *)
Theorem retries_are_bounded (s : Site) (l : list Operation) :
  up (idb (site s)) = true -> dbVersion s <= WorkerDB.DB_VERSION ->
  db_ok MAX_RETRIES (idb (site s)) ->
  tried 0 (nextKey (idb (site s))) (idb (site s)) ->
  Forall worker_side l -> MAX_RETRIES < worker_passes l ->
  forall r', r' ∈ rows (idb (site (perform_all s l))) -> nextKey (idb (site s)) <= id r'.
Proof.
  intros Hup Hv Hok Htr Hall Hn r' Hr'.
  destruct (Z.le_gt_cases (nextKey (idb (site s))) (id r')) as [H|H]; [exact H|exfalso].
  pose proof (perform_all_tried l 0 (nextKey (idb (site s))) s Hall Hup Hv Hok
                (Z.le_refl _) Htr r' Hr' ltac:(lia)) as Hk.
  assert (Hops : Forall (operation_ok MAX_RETRIES) l).
  { eapply Forall_impl; [exact Hall|]. intros o Ho. destruct o; try exact I; contradiction. }
  assert (Hb : db_ok MAX_RETRIES (idb (site (perform_all s l))))
    by (apply perform_all_ok; [lia | exact Hops | exact Hok]).
  destruct Hb as [_ Hb]. rewrite Forall_forall in Hb. specialize (Hb r' Hr').
  unfold bounded in Hb. destruct (retryCount (data r')) as [n|] eqn:En; simpl in Hk.
  - specialize (Hb n eq_refl). destruct (Z.eqb_spec n 0); unfold MAX_RETRIES in *; lia.
  - unfold MAX_RETRIES in *. lia.
Qed.

Lemma retries_are_bounded_witness :
  let s := {| site := world_queued offline [order_a; order_b]; dbVersion := 1 |} in
  let l := [WorkerPass; Intercept post_orders; WorkerPass; WorkerPass; Wait 1000;
            WorkerPass; WorkerPass; WorkerPass] in
  up (idb (site s)) = true /\ dbVersion s <= WorkerDB.DB_VERSION /\
  db_ok MAX_RETRIES (idb (site s)) /\
  tried 0 (nextKey (idb (site s))) (idb (site s)) /\
  Forall worker_side l /\ MAX_RETRIES < worker_passes l /\
  forall r', r' ∈ rows (idb (site (perform_all s l))) -> 3 <= id r'.
Proof.
  intros s l.
  assert (Hwf : wf_db (idb (site s))).
  { apply (save_all_wf [order_a; order_b] empty_db wf_empty_db eq_refl). }
  assert (Hok : db_ok MAX_RETRIES (idb (site s))).
  { split; [exact Hwf|]. repeat constructor; intros n Hn; inversion Hn; unfold MAX_RETRIES; lia. }
  assert (Htr : tried 0 (nextKey (idb (site s))) (idb (site s))).
  { intros r Hr _. simpl in Hr. set_unfold in Hr. destruct Hr as [->| [->|[]]]; simpl; lia. }
  assert (Hv : dbVersion s <= WorkerDB.DB_VERSION) by (vm_compute; discriminate).
  assert (Hall : Forall worker_side l) by (repeat constructor).
  assert (Hn : MAX_RETRIES < worker_passes l) by (vm_compute; reflexivity).
  split; [reflexivity|]. split; [exact Hv|]. split; [exact Hok|]. split; [exact Htr|].
  split; [exact Hall|]. split; [exact Hn|].
  exact (retries_are_bounded s l eq_refl Hv Hok Htr Hall Hn).
Defined.

(** ** The refresh of the cache *)

Lemma refresh_one_run (rq : Request) (w : World) (stored : Response) :
  cache w !! cache_key rq = Some (rq, stored) ->
  run (SW.refresh_one rq) w = (Ok tt, refreshed rq w).
Proof.
  intros Hc. unfold SW.refresh_one, refreshed. simpl.
  destruct (net w (netlog w) (FetchRequest rq)) as [response|e]; simpl.
  - destruct (cache_put_rejects rq response); simpl; [|reflexivity].
    rewrite Hc. reflexivity.
  - rewrite Hc. reflexivity.
Qed.

Lemma refresh_all_run (l : list Request) (w : World) :
  (forall rq, rq ∈ l -> exists stored, cache w !! cache_key rq = Some (rq, stored)) ->
  let w' := snd (run (SW.refresh_all l) w) in
  fst (run (SW.refresh_all l) w) = Ok tt /\
  net w' = net w /\ clock w' = clock w /\ idb w' = idb w /\ page w' = page w /\
  netlog w' = netlog w ++ (FetchRequest <$> l) /\
  (exists msgs, outbox w' = outbox w ++ msgs /\ List.length msgs = List.length l) /\
  (forall k rq resp, cache w !! k = Some (rq, resp) ->
     exists resp', cache w' !! k = Some (rq, resp') /\
       (resp' = resp \/ rq ∈ l /\ exists log, net w log (FetchRequest rq) = Ok resp')) /\
  (forall k, cache w !! k = None -> cache w' !! k = None).
Proof.
  revert w. induction l as [|rq0 l IH]; intros w Hl; cbn [SW.refresh_all].
  - simpl. repeat split; try reflexivity.
    + rewrite app_nil_r. reflexivity.
    + exists []. rewrite app_nil_r. split; reflexivity.
    + intros k rq resp H. exists resp. split; [exact H|left; reflexivity].
    + intros k H. exact H.
  - destruct (Hl rq0 ltac:(left)) as (stored0 & H0).
    rewrite run_await, (refresh_one_run rq0 w stored0 H0).
    set (w_mid := refreshed rq0 w).
    assert (Hframe : net w_mid = net w /\ clock w_mid = clock w /\ idb w_mid = idb w /\
                     page w_mid = page w /\ netlog w_mid = netlog w ++ [FetchRequest rq0] /\
                     exists m, outbox w_mid = outbox w ++ [m]).
    { subst w_mid. unfold refreshed. cbv zeta.
      destruct (net w (netlog w) (FetchRequest rq0)) as [response|e];
        [destruct (cache_put_rejects rq0 response)|]; simpl; repeat split; eauto. }
    assert (Hcache : forall k rq resp, cache w !! k = Some (rq, resp) ->
              exists resp', cache w_mid !! k = Some (rq, resp') /\
                (resp' = resp \/ rq = rq0 /\ exists log, net w log (FetchRequest rq) = Ok resp')).
    { intros k rq resp Hk. subst w_mid. unfold refreshed. cbv zeta.
      destruct (net w (netlog w) (FetchRequest rq0)) as [response|e] eqn:Hn;
        [destruct (cache_put_rejects rq0 response)|]; simpl.
      - exists resp. auto.
      - destruct (decide (cache_key rq0 = k)) as [<-|Hne].
        + rewrite lookup_insert_eq. rewrite H0 in Hk. inversion Hk; subst.
          exists response. split; [reflexivity|]. right. split; [reflexivity|]. eauto.
        + rewrite lookup_insert_ne by exact Hne. exists resp. auto.
      - exists resp. auto. }
    assert (Hnone : forall k, cache w !! k = None -> cache w_mid !! k = None).
    { intros k Hk. subst w_mid. unfold refreshed. cbv zeta.
      destruct (net w (netlog w) (FetchRequest rq0)) as [response|e];
        [destruct (cache_put_rejects rq0 response)|]; simpl; try exact Hk.
      rewrite lookup_insert_ne; [exact Hk|]. intros <-. congruence. }
    assert (Hl_mid : forall rq, rq ∈ l ->
              exists stored, cache w_mid !! cache_key rq = Some (rq, stored)).
    { intros rq Hrq. destruct (Hl rq ltac:(right; exact Hrq)) as (stored & Hst).
      destruct (Hcache _ _ _ Hst) as (resp' & Hr & _). eauto. }
    destruct Hframe as (Hn & Hck & Hdb & Hpg & Hlog & m & Hout).
    destruct (IH w_mid Hl_mid) as (R & Rn & Rc & Rdb & Rpg & Rlog & (msgs & Rout & Rlen) & Rcache & Rnone).
    cbv zeta. split; [exact R|]. cbn [snd] in *.
    destruct (run (SW.refresh_all l) w_mid) as [res w'] eqn:Erun. cbn [fst snd] in *.
    subst res. cbn [snd].
    split; [congruence|]. split; [congruence|]. split; [congruence|]. split; [congruence|].
    split; [rewrite Rlog, Hlog, fmap_cons, <- app_assoc; reflexivity|].
    split.
    { exists (m :: msgs). split; [rewrite Rout, Hout, <- app_assoc; reflexivity|].
      simpl. rewrite Rlen. reflexivity. }
    split.
    + intros k rq resp Hk. destruct (Hcache _ _ _ Hk) as (r1 & H1 & Hor1).
      destruct (Rcache _ _ _ H1) as (r2 & H2 & Hor2).
      exists r2. split; [exact H2|].
      destruct Hor2 as [->|(Hin & log & Hlg)].
      * destruct Hor1 as [->|(-> & log & Hlg)]; [left; reflexivity|].
        right. split; [left|eauto].
      * right. split; [right; exact Hin|]. exists log. rewrite <- Hn. exact Hlg.
    + intros k Hk. apply Rnone, Hnone, Hk.
Qed.

Lemma cached_reads_stored (w : World) (rq : Request) :
  cache_coherent (cache w) -> rq ∈ cached_reads w ->
  (req_method rq = "GET" \/ req_method rq = "HEAD") /\
  exists stored, cache w !! cache_key rq = Some (rq, stored).
Proof.
  intros Hco Hin. unfold cached_reads in Hin.
  apply list_elem_of_In, filter_In in Hin as [Hin Hm]. apply list_elem_of_In in Hin.
  apply list_elem_of_fmap in Hin as ([k [rq' resp]] & -> & Hin). simpl in *.
  apply elem_of_map_to_list in Hin. split.
  - apply orb_prop in Hm. destruct Hm as [Hm|Hm]; apply String.eqb_eq in Hm; auto.
  - exists resp. rewrite (Hco _ _ _ Hin). exact Hin.
Qed.

Lemma sw_replayed_page (now : Z) (l : list Stored) (w : World) :
  page (replayed sw_after now l w) = page w.
Proof.
  revert w. induction l as [|r l IH]; intros w; [reflexivity|]. simpl. rewrite IH.
  destruct (expired now (data r)); [reflexivity|].
  unfold sw_after. cbv zeta. destruct (net w (netlog w) (sw_call (data r))) as [resp|e];
    [destruct (ok resp)|]; reflexivity.
Qed.

(** X12: with the database open, the service worker's
    [syncOfflineRequests] resolves whatever the network does.  Its
    refresh of the cache leaves the queue and the page alone, makes one
    call and posts one message for each cached GET or HEAD request,
    and neither adds nor drops a cache entry: every entry keeps its
    request, and its response either stays or is replaced by an answer
    of the network to that request, which must be a GET or HEAD. *)
Theorem refresh_keeps_cache_entries (w : World) :
  up (idb w) = true -> cache_coherent (cache w) ->
  let w1 := snd (run SW.syncStoredPosts w) in
  let w' := snd (run SW.syncOfflineRequests w) in
  fst (run SW.syncOfflineRequests w) = Ok tt /\
  idb w' = idb w1 /\ page w' = page w /\
  netlog w' = netlog w1 ++ (FetchRequest <$> cached_reads w) /\
  (exists msgs, outbox w' = outbox w1 ++ msgs /\
                List.length msgs = List.length (cached_reads w)) /\
  (forall k rq resp, cache w !! k = Some (rq, resp) ->
     exists resp', cache w' !! k = Some (rq, resp') /\
       (resp' = resp \/
        (req_method rq = "GET" \/ req_method rq = "HEAD") /\
        exists log, net w log (FetchRequest rq) = Ok resp')) /\
  (forall k, cache w !! k = None -> cache w' !! k = None).
Proof.
  intros Hup Hco w1 w'.
  assert (E1 : run SW.syncStoredPosts w = (Ok tt, w1)).
  { subst w1. rewrite sw_pass_run by exact Hup. reflexivity. }
  assert (Henv : net w1 = net w /\ cache w1 = cache w /\ page w1 = page w).
  { subst w1. rewrite sw_pass_run by exact Hup. cbn [snd].
    destruct (replayed_env _ _ _ sw_replay_one_local (clock w) (rows (idb w)) w)
      as (Hn & _ & _ & _ & Hc).
    split; [exact Hn|]. split; [exact Hc|]. apply sw_replayed_page. }
  destruct Henv as (Hn1 & Hc1 & Hp1).
  assert (Hreads : cached_reads w1 = cached_reads w)
    by (unfold cached_reads; rewrite Hc1; reflexivity).
  assert (E : run SW.syncOfflineRequests w = run (SW.refresh_all (cached_reads w)) w1).
  { unfold SW.syncOfflineRequests. rewrite run_await, E1.
    unfold try_catch. rewrite run_bind. cbn [mbind Prog_bind bind run exec call].
    fold (cached_reads w1). rewrite Hreads.
    destruct (run (SW.refresh_all (cached_reads w)) w1) as [[[]|e] w2] eqn:E2;
      [reflexivity|].
    exfalso.
    assert (Hst : forall rq, rq ∈ cached_reads w ->
              exists stored, cache w1 !! cache_key rq = Some (rq, stored)).
    { intros rq Hrq. rewrite Hc1. apply cached_reads_stored; assumption. }
    pose proof (proj1 (refresh_all_run (cached_reads w) w1 Hst)) as Hfst.
    rewrite E2 in Hfst. discriminate. }
  assert (Hst : forall rq, rq ∈ cached_reads w ->
            exists stored, cache w1 !! cache_key rq = Some (rq, stored)).
  { intros rq Hrq. rewrite Hc1. apply cached_reads_stored; assumption. }
  destruct (refresh_all_run (cached_reads w) w1 Hst)
    as (R & Rn & Rc & Rdb & Rpg & Rlog & Rout & Rcache & Rnone).
  subst w'. rewrite E. split; [exact R|]. split; [exact Rdb|].
  split; [rewrite Rpg; exact Hp1|]. split; [exact Rlog|]. split; [exact Rout|]. split.
  - intros k rq resp Hk. rewrite <- Hc1 in Hk.
    destruct (Rcache k rq resp Hk) as (resp' & Hk' & [->|(Hin & log & Hlg)]).
    + exists resp. auto.
    + exists resp'. split; [exact Hk'|]. right.
      split; [apply (cached_reads_stored w rq Hco Hin)|].
      exists log. rewrite <- Hn1. exact Hlg.
  - intros k Hk. apply Rnone. rewrite Hc1. exact Hk.
Qed.

Lemma refresh_keeps_cache_entries_witness :
  up (idb (world_cached (answers 500))) = true /\
  cache_coherent (cache (world_cached (answers 500))) /\
  netlog (snd (run SW.syncOfflineRequests (world_cached (answers 500))))
    = [FetchRequest get_data].
Proof.
  assert (Hco : cache_coherent (cache (world_cached (answers 500)))).
  { intros k rq resp Hk. simpl in Hk. apply lookup_singleton_Some in Hk as [<- Hk].
    inversion Hk. reflexivity. }
  split; [reflexivity|]. split; [exact Hco|].
  rewrite (proj1 (proj2 (proj2 (proj2
             (refresh_keeps_cache_entries (world_cached (answers 500)) eq_refl Hco))))).
  vm_compute. reflexivity.
Defined.

(** ** What holds under every interleaving of the handlers *)

Section Calls.

Variable P : forall X, Op X -> Prop.

Lemma all_ops_bind {A B} (p : Prog A) (f : A -> Prog B) :
  all_ops P p -> (forall a, all_ops P (f a)) -> all_ops P (bind p f).
Proof.
  intros Hp Hf. induction p as [a|X op k IH]; simpl; [apply Hf|].
  destruct Hp as [Hop Hk]. split; [exact Hop|]. intros x. apply IH. apply Hk.
Qed.

Lemma all_ops_await {A B} (p : Prog (Res A)) (f : A -> Prog (Res B)) :
  all_ops P p -> (forall a, all_ops P (f a)) -> all_ops P (await p f).
Proof.
  intros Hp Hf. apply all_ops_bind; [exact Hp|]. intros [a|e]; [apply Hf | exact I].
Qed.

Lemma all_ops_try_catch {A} (p : Prog (Res A)) (h : JsError -> Prog (Res A)) :
  all_ops P p -> (forall e, all_ops P (h e)) -> all_ops P (try_catch p h).
Proof.
  intros Hp Hh. apply all_ops_bind; [exact Hp|]. intros [a|e]; [exact I | apply Hh].
Qed.

Lemma all_ops_call {X} (op : Op X) : P X op -> all_ops P (call op).
Proof. intros H. split; [exact H | intros; exact I]. Qed.

Lemma all_ops_replay_for (one : Stored -> Prog (Res unit)) (now : Z) (l : list Stored) :
  (forall key, P _ (DeleteRequest key)) -> (forall r, all_ops P (one r)) ->
  all_ops P (replay_for one now l).
Proof.
  intros Hdel Hone. induction l as [|r l IH]; simpl; [exact I|].
  destruct (expired now (data r)).
  - apply all_ops_await; [apply all_ops_call, Hdel | intros; exact IH].
  - apply all_ops_await; [apply Hone | intros; exact IH].
Qed.

(** The handlers keep a property [Inv] of the world that each of their
    calls keeps, however the event loop interleaves them. *)
Variable Inv : World -> Prop.
Hypothesis exec_keeps : forall X (op : Op X) w, P X op -> Inv w -> Inv (snd (exec op w)).
Hypothesis clock_keeps : forall w t, Inv w -> Inv (set_clock w t).
Hypothesis page_keeps : forall w p, Inv w -> Inv (set_page w p).
Hypothesis onfetch_calls : forall request, all_ops P (SW.onfetch request).
Hypothesis worker_calls : all_ops P SW.syncOfflineRequests.
Hypothesis page_calls : forall data p, SmartCache.onmessage data = Some p -> all_ops P p.
Hypothesis save_calls : forall d, all_ops P (SmartCache.saveOfflineRequest d).

Lemma run_sync_keeps {A} (p : Prog A) (w : World) :
  all_ops P p -> Inv w -> all_ops P (fst (run_sync p w)) /\ Inv (snd (run_sync p w)).
Proof.
  revert w. induction p as [a|X op k IH]; intros w Hp Hw; simpl; [auto|].
  destruct Hp as [Hop Hk]. destruct (is_sync op); [|simpl; auto].
  pose proof (exec_keeps X op w Hop Hw) as Hw'.
  destruct (exec op w) as [x w']. apply IH; [apply Hk | exact Hw'].
Qed.

Lemma resume_keeps {A} (p : Prog A) (w : World) :
  all_ops P p -> Inv w -> all_ops P (fst (resume p w)) /\ Inv (snd (resume p w)).
Proof.
  destruct p as [a|X op k]; intros Hp Hw; simpl; [auto|].
  destruct Hp as [Hop Hk]. pose proof (exec_keeps X op w Hop Hw) as Hw'.
  destruct (exec op w) as [x w']. apply run_sync_keeps; [apply Hk | exact Hw'].
Qed.

Lemma spawn_keeps (t : Task) (s : Sys) :
  task_all P t -> Inv (world s) -> Forall (task_all P) (tasks s) ->
  Inv (world (spawn t s)) /\ Forall (task_all P) (tasks (spawn t s)).
Proof.
  intros Ht Hw Hts. unfold spawn, start_task.
  destruct t as [p|p]; pose proof (run_sync_keeps p (world s) Ht Hw) as [H1 H2];
    destruct (run_sync p (world s)) as [p' w']; simpl in *;
    (split; [exact H2|]); apply Forall_app; split; try exact Hts; repeat constructor; exact H1.
Qed.

Lemma deliver_keeps (s : Sys) (i : Input) :
  Inv (world s) -> Forall (task_all P) (tasks s) ->
  Inv (world (deliver s i)) /\ Forall (task_all P) (tasks (deliver s i)).
Proof.
  intros Hw Hts. destruct i as [request|data|data|c|n|dt| |d]; cbn [deliver].
  - apply spawn_keeps; [apply onfetch_calls|exact Hw|exact Hts].
  - destruct (SW.onmessage data) as [p|] eqn:E; [|auto].
    apply spawn_keeps; [|exact Hw|exact Hts].
    destruct data as [[u m| |u m| |ty]|]; simpl in E; inversion E. apply worker_calls.
  - destruct (SmartCache.onmessage data) as [p|] eqn:E; [|auto].
    apply spawn_keeps; [|exact Hw|exact Hts]. exact (page_calls data p E).
  - destruct c; [|auto]. apply spawn_keeps; [apply worker_calls|exact Hw|exact Hts].
  - destruct (tasks s !! n) as [t|] eqn:E; [|auto].
    assert (Ht : task_all P t).
    { rewrite Forall_forall in Hts. apply Hts. eapply list_elem_of_lookup_2. exact E. }
    unfold resume_task.
    destruct t as [p|p]; pose proof (resume_keeps p (world s) Ht Hw) as [H1 H2];
      destruct (resume p (world s)) as [p' w']; simpl in *;
      (split; [exact H2|]); apply Forall_insert; assumption.
  - simpl. split; [apply clock_keeps; exact Hw|exact Hts].
  - simpl. split; [apply page_keeps; exact Hw|exact Hts].
  - apply spawn_keeps; [apply save_calls|exact Hw|exact Hts].
Qed.

Lemma deliver_all_keeps (l : list Input) (s : Sys) :
  Inv (world s) -> Forall (task_all P) (tasks s) ->
  Inv (world (deliver_all s l)) /\ Forall (task_all P) (tasks (deliver_all s l)).
Proof.
  revert s. induction l as [|i l IH]; intros s Hw Hts; [auto|].
  rewrite deliver_all_cons. destruct (deliver_keeps s i Hw Hts) as [H1 H2].
  apply IH; assumption.
Qed.

End Calls.

Ltac ops_step :=
  match goal with
  | |- all_ops _ (await _ _) => apply all_ops_await
  | |- all_ops _ (try_catch _ _) => apply all_ops_try_catch
  | |- all_ops _ (bind _ _) => apply all_ops_bind
  | |- all_ops _ (mbind _ _) => apply all_ops_bind
  | |- all_ops _ (call _) => apply all_ops_call
  | |- all_ops _ (Ret _) => exact I
  | |- all_ops _ (match ?x with _ => _ end) => destruct x
  | |- all_ops _ (if ?b then _ else _) => destruct b
  | |- forall _, _ => intro
  end.

Lemma onfetch_posts_notices (request : Request) : all_ops posts_notice (SW.onfetch request).
Proof.
  unfold SW.onfetch, SW.cachePut, SW.cacheMatch, SW.sendMessageToClients, SW.cloneRequestBody.
  repeat ops_step; exact I.
Qed.

Lemma worker_posts_notices : all_ops posts_notice SW.syncOfflineRequests.
Proof.
  unfold SW.syncOfflineRequests, SW.syncStoredPosts.
  repeat ops_step; try exact I.
  - rewrite sw_loop_replay_for. apply all_ops_replay_for; [intros; exact I|].
    intros r. unfold SW.replay_one, SW.sendMessageToClients. repeat ops_step; exact I.
  - match goal with |- all_ops _ (SW.refresh_all ?l) => generalize l end.
    intros l. induction l as [|request l IH]; [exact I|].
    change (all_ops posts_notice (await (SW.refresh_one request) (fun _ => SW.refresh_all l))).
    apply all_ops_await; [|intros; exact IH].
    unfold SW.refresh_one, SW.cachePut, SW.cacheMatch, SW.sendMessageToClients.
    repeat ops_step; exact I.
Qed.

Lemma page_posts_nothing (data : option Message) (p : Prog (Res unit)) :
  SmartCache.onmessage data = Some p -> all_ops posts_notice p.
Proof.
  destruct data as [[u m| |u m| |ty]|]; simpl; intros H; inversion H; subst;
    try (simpl; auto; fail).
  unfold SmartCache.syncOfflineRequests. repeat ops_step; try exact I.
  rewrite page_loop_replay_for. apply all_ops_replay_for; [intros; exact I|].
  intros r. unfold SmartCache.replay_one. repeat ops_step; exact I.
Qed.

Lemma exec_keeps_notices (X : Type) (op : Op X) (w : World) :
  posts_notice X op -> Forall notice (outbox w) -> Forall notice (outbox (snd (exec op w))).
Proof.
  intros Hop Hw. destruct op; simpl in *; try exact Hw.
  - destruct (saveRequest requestData (idb w)); exact Hw.
  - destruct (getAllRequests (idb w)); exact Hw.
  - destruct (deleteRequest key (idb w)); exact Hw.
  - destruct (updateRequestRetryCount key retry (idb w)); exact Hw.
  - destruct (cache_put_rejects request response); exact Hw.
  - apply Forall_app. split; [exact Hw|]. repeat constructor. exact Hop.
Qed.

(** X13: whatever events arrive and however the handlers interleave,
    the service worker posts only OFFLINE_REQUEST_SAVED, OFFLINE_USAGE
    and OFFLINE_REQUEST_SYNCED to the pages, never
    SYNC_OFFLINE_REQUESTS; and the page's listener answers each of
    these three by publishing one toast and nothing else: no message
    of the service worker starts the page's own replay pass. *)
Theorem worker_posts_only_notices (w : World) (l : list Input) :
  Forall notice (outbox w) ->
  let s := deliver_all {| world := w; tasks := [] |} l in
  Forall notice (outbox (world s)) /\
  forall m, m ∈ outbox (world s) ->
    SmartCache.onmessage (Some m) <> Some SmartCache.syncOfflineRequests /\
    forall s', exists text ty,
      deliver s' (ToPage (Some m)) =
        {| world := set_page (world s')
                      (notifyUser text ty (clock (world s')) (page (world s')));
           tasks := tasks s' ++ [Handler (Ret (Ok tt))] |}.
Proof.
  intros Hw s.
  assert (Hs : Forall notice (outbox (world s))).
  { apply (deliver_all_keeps posts_notice (fun w => Forall notice (outbox w))
             exec_keeps_notices (fun _ _ H => H) (fun _ _ H => H)
             onfetch_posts_notices worker_posts_notices page_posts_nothing
             (fun d => conj I (fun _ => I))
             l {| world := w; tasks := [] |} Hw).
    constructor. }
  split; [exact Hs|]. intros m Hm. rewrite Forall_forall in Hs. specialize (Hs m Hm).
  destruct m as [u me| |u me| |ty]; simpl in Hs; try contradiction.
  - split; [discriminate|]. intros s'. eexists _, _. reflexivity.
  - split; [discriminate|]. intros s'. eexists _, _. reflexivity.
  - split; [discriminate|]. intros s'. eexists _, _. reflexivity.
Qed.

Lemma worker_posts_only_notices_witness :
  Forall notice (outbox (world0 offline empty_db)) /\
  Forall notice
    (outbox (world (deliver_all {| world := world0 offline empty_db; tasks := [] |}
                      [FetchEvent post_orders; Settle 0; Settle 0; Settle 0; Online true]))).
Proof.
  assert (H : Forall notice (outbox (world0 offline empty_db))) by constructor.
  split; [exact H|].
  exact (proj1 (worker_posts_only_notices (world0 offline empty_db)
                  [FetchEvent post_orders; Settle 0; Settle 0; Settle 0; Online true] H)).
Defined.









(** ** From the intercepted request to its replay *)

Lemma onfetch_saves (request : Request) (w : World) (e : JsError) (bodyText : string) :
  req_method request <> "GET" -> req_method request <> "HEAD" ->
  net w (netlog w) (FetchRequest request) = Err e ->
  req_text request = Ok bodyText -> up (idb w) = true -> wf_db (idb w) ->
  idb (snd (run (SW.onfetch request) w))
    = {| up := true;
         rows := rows (idb w) ++ [{| id := nextKey (idb w);
                                     data := SW.snapshot request bodyText (clock w) |}];
         nextKey := nextKey (idb w) + 1 |}.
Proof.
  intros Hg Hh Hnet Htext Hup Hwf. unfold SW.onfetch. rewrite (is_read_false _ Hg Hh).
  simpl. rewrite Hnet. simpl. rewrite Htext. simpl.
  rewrite (saveRequest_appends _ (idb w) Hwf Hup). reflexivity.
Qed.

(** X15: a request of another method than GET and HEAD that is
    intercepted while the network is down is replayed by the next pass
    of the service worker as it was sent.  If the pass starts within
    MAX_AGE of the interception and the network then answers the
    replay with a success status, the pass, after the older requests
    of the queue, calls [fetch] with the URL, the method, the headers
    and the body text of the intercepted request, posts
    OFFLINE_REQUEST_SYNCED for it and leaves it out of the store. *)
Theorem offline_request_replayed_as_sent
    (request : Request) (w w2 : World) (e : JsError) (bodyText : string)
    (response : Response) :
  req_method request <> "GET" -> req_method request <> "HEAD" ->
  wf_headers (req_headers request) ->
  net w (netlog w) (FetchRequest request) = Err e ->
  req_text request = Ok bodyText -> up (idb w) = true -> wf_db (idb w) ->
  idb w2 = idb (snd (run (SW.onfetch request) w)) ->
  clock w2 - clock w <= MAX_AGE ->
  let the_call := FetchUrl (req_url request)
                    {| init_method := req_method request;
                       init_headers := req_headers request;
                       init_body := Some bodyText |} in
  let w3 := snd (run (SW.syncStoredPosts_for (clock w2) (rows (idb w))) w2) in
  net w3 (netlog w3) the_call = Ok response -> ok response = true ->
  let w4 := snd (run SW.syncStoredPosts w2) in
  fst (run SW.syncStoredPosts w2) = Ok tt /\
  netlog w4 = netlog w3 ++ [the_call] /\
  outbox w4 = outbox w3 ++ [OFFLINE_REQUEST_SYNCED (req_url request) (req_method request)] /\
  store_get (nextKey (idb w)) (rows (idb w4)) = None /\
  idb w4 = db_without (nextKey (idb w)) (idb w3).
Proof.
  intros Hg Hh Hwfh Hnet Htext Hup Hwf Hdb Hage the_call w3 Hnet3 Hok w4.
  set (r := {| id := nextKey (idb w); data := SW.snapshot request bodyText (clock w) |}).
  rewrite (onfetch_saves request w e bodyText Hg Hh Hnet Htext Hup Hwf) in Hdb.
  fold r in Hdb.
  assert (Hup2 : up (idb w2) = true) by (rewrite Hdb; reflexivity).
  assert (Hrows : rows (idb w2) = rows (idb w) ++ r :: []) by (rewrite Hdb; reflexivity).
  assert (Hs2 : sorted_rows (rows (idb w2))).
  { rewrite Hrows.
    pose proof (saveRequest_wf (SW.snapshot request bodyText (clock w)) (idb w) Hwf Hup)
      as [[Hs _] _].
    rewrite (saveRequest_appends _ (idb w) Hwf Hup) in Hs. exact Hs. }
  assert (Hcall : sw_call (data r) = the_call).
  { unfold sw_call, r. cbn [data].
    rewrite (replay_init_snapshot request bodyText (clock w) Hwfh Hg Hh). reflexivity. }
  assert (Hlive : expired (clock w2) (data r) = false).
  { unfold expired. simpl. apply orb_false_iff. split.
    - apply Z.ltb_ge. lia.
    - reflexivity. }
  assert (Hw3 : w3 = replayed sw_after (clock w2) (rows (idb w)) w2).
  { subst w3. rewrite sw_loop_replay_for, (replay_for_run _ _ _ sw_replay_one_local)
      by exact Hup2. reflexivity. }
  clearbody w3.
  assert (Hw4 : run SW.syncStoredPosts w2
                = (Ok tt,
                   set_outbox (set_idb (set_netlog w3 (netlog w3 ++ [the_call]))
                                       (db_without (id r) (idb w3)))
                     (outbox w3 ++ [OFFLINE_REQUEST_SYNCED (req_url request)
                                                           (req_method request)]))).
  { rewrite sw_pass_run by exact Hup2. f_equal.
    rewrite Hrows, (replayed_app _ (clock w2) (rows (idb w)) [r] w2). simpl.
    rewrite <- Hw3. change (SW.snapshot request bodyText (clock w)) with (data r).
    rewrite Hlive. rewrite <- Hcall in Hnet3.
    rewrite (sw_after_ok r w3 response Hnet3 Hok), Hcall. reflexivity. }
  subst w4. rewrite Hw4. cbn [fst snd].
  split; [reflexivity|]. split; [reflexivity|]. split; [reflexivity|].
  split; [apply store_get_delete_eq|reflexivity].
Qed.

Lemma offline_request_replayed_as_sent_witness :
  let w := world0 offline empty_db in
  let w2 := set_idb (world0 (answers 200) empty_db)
                    (idb (snd (run (SW.onfetch post_orders) w))) in
  req_method post_orders <> "GET" /\ req_method post_orders <> "HEAD" /\
  wf_headers (req_headers post_orders) /\
  net w (netlog w) (FetchRequest post_orders) = Err {| err_message := "Failed to fetch" |} /\
  req_text post_orders = Ok "{}" /\ up (idb w) = true /\ wf_db (idb w) /\
  clock w2 - clock w <= MAX_AGE /\
  netlog (snd (run SW.syncStoredPosts w2))
    = [FetchUrl "/orders" {| init_method := "POST";
                             init_headers := [("content-type", "application/json")];
                             init_body := Some "{}" |}].
Proof.
  intros w w2.
  assert (Hg : req_method post_orders <> "GET") by discriminate.
  assert (Hh : req_method post_orders <> "HEAD") by discriminate.
  assert (Hwfh : wf_headers (req_headers post_orders)).
  { split; [|repeat constructor]. simpl. repeat constructor; set_solver. }
  assert (Hage : clock w2 - clock w <= MAX_AGE) by (vm_compute; discriminate).
  split; [exact Hg|]. split; [exact Hh|]. split; [exact Hwfh|]. split; [reflexivity|].
  split; [reflexivity|]. split; [reflexivity|]. split; [exact wf_empty_db|].
  split; [exact Hage|].
  exact (proj1 (proj2 (offline_request_replayed_as_sent post_orders w w2
                         {| err_message := "Failed to fetch" |} "{}" (plain_response 200)
                         Hg Hh Hwfh eq_refl eq_refl eq_refl wf_empty_db eq_refl Hage
                         eq_refl eq_refl))).
Defined.

(** ** Opening the database *)

(** X16: the two scripts ask for different versions of the same
    database.  When the service worker opens a database that is new or
    was created by the page (version below 2), its [openDB] resolves,
    raises the version to 2, keeps every object store it found and
    provides the store [offline-requests]; from then on the page's
    [openDB], which asks for version 1, rejects with a VersionError
    and changes nothing, while the service worker opens the database
    again as it is. *)
Theorem page_cannot_open_after_worker (db : Database) :
  version db < 2 ->
  let db' := snd (WorkerDB.openDB db) in
  fst (WorkerDB.openDB db) = Ok db' /\
  version db' = 2 /\
  (forall name store, objectStores db !! name = Some store ->
                      objectStores db' !! name = Some store) /\
  is_Some (objectStores db' !! STORE_NAME) /\
  PageDB.openDB db' = (Err VersionError, db') /\
  WorkerDB.openDB db' = (Ok db', db').
Proof.
  intros Hv.
  assert (Hre : forall d, version d = 2 ->
            PageDB.openDB d = (Err VersionError, d) /\ WorkerDB.openDB d = (Ok d, d)).
  { intros d Hd. unfold PageDB.openDB, WorkerDB.openDB, indexedDB_open,
      PageDB.DB_VERSION, WorkerDB.DB_VERSION. rewrite Hd. split; reflexivity. }
  assert (E : exists d, WorkerDB.openDB db = (Ok d, d) /\ version d = 2 /\
              (forall name store, objectStores db !! name = Some store ->
                                  objectStores d !! name = Some store) /\
              is_Some (objectStores d !! STORE_NAME)).
  { unfold WorkerDB.openDB, indexedDB_open, WorkerDB.DB_VERSION.
    destruct (Z.ltb_spec 2 (version db)); [lia|].
    destruct (Z.eqb_spec 2 (version db)); [lia|].
    unfold WorkerDB.onupgradeneeded. cbn [objectStores].
    destruct (objectStores db !! STORE_NAME) as [store|] eqn:Hst.
    - eexists. split; [reflexivity|]. cbn [version objectStores].
      split; [reflexivity|]. split; [auto|]. rewrite Hst. eauto.
    - eexists. split; [reflexivity|]. cbn [version objectStores createIndex createObjectStore].
      split; [reflexivity|]. split.
      + intros name store Hn. rewrite !lookup_insert_ne by congruence. exact Hn.
      + rewrite lookup_insert_eq. eauto. }
  destruct E as (d & E & Hd & Hkeep & Hstore). cbv zeta. rewrite E. cbn [fst snd].
  split; [reflexivity|]. split; [exact Hd|]. split; [exact Hkeep|]. split; [exact Hstore|].
  apply Hre, Hd.
Qed.

Lemma page_cannot_open_after_worker_witness :
  version (snd (PageDB.openDB no_database)) < 2 /\
  PageDB.openDB (snd (WorkerDB.openDB (snd (PageDB.openDB no_database))))
    = (Err VersionError, snd (WorkerDB.openDB (snd (PageDB.openDB no_database)))).
Proof.
  assert (H : version (snd (PageDB.openDB no_database)) < 2) by (vm_compute; reflexivity).
  split; [exact H|].
  exact (proj1 (proj2 (proj2 (proj2 (proj2
           (page_cannot_open_after_worker (snd (PageDB.openDB no_database)) H)))))).
Defined.

(** X17: on a database that does not exist yet (version 0) and has no
    store [offline-requests], both scripts' [openDB] resolve and create
    the same store: key path [id], a key generator, and the one index
    [timestamp]; the page leaves the database at version 1, the service
    worker at version 2, and neither touches another store. *)
Theorem openDB_creates_store (db : Database) :
  version db = 0 -> objectStores db !! STORE_NAME = None ->
  PageDB.openDB db
    = (Ok {| version := 1;
             objectStores := <[STORE_NAME := offline_requests]> (objectStores db) |},
       {| version := 1;
          objectStores := <[STORE_NAME := offline_requests]> (objectStores db) |}) /\
  WorkerDB.openDB db
    = (Ok {| version := 2;
             objectStores := <[STORE_NAME := offline_requests]> (objectStores db) |},
       {| version := 2;
          objectStores := <[STORE_NAME := offline_requests]> (objectStores db) |}).
Proof.
  intros Hv Hst. split.
  - unfold PageDB.openDB, indexedDB_open, PageDB.DB_VERSION. rewrite Hv. simpl.
    unfold PageDB.onupgradeneeded. cbn [objectStores Z.ltb Z.compare]. rewrite Hst.
    cbn [createObjectStore objectStores]. rewrite lookup_insert_eq. simpl.
    unfold createIndex, createObjectStore.
    cbn [objectStores version keyPath autoIncrement indexNames app].
    rewrite insert_insert_eq. reflexivity.
  - unfold WorkerDB.openDB, indexedDB_open, WorkerDB.DB_VERSION. rewrite Hv. simpl.
    unfold WorkerDB.onupgradeneeded. cbn [objectStores]. rewrite Hst.
    unfold createIndex, createObjectStore.
    cbn [objectStores version keyPath autoIncrement indexNames app].
    rewrite insert_insert_eq. reflexivity.
Qed.

Lemma openDB_creates_store_witness :
  version no_database = 0 /\ objectStores no_database !! STORE_NAME = None /\
  objectStores (snd (PageDB.openDB no_database))
    = objectStores (snd (WorkerDB.openDB no_database)).
Proof.
  split; [reflexivity|]. split; [reflexivity|].
  destruct (openDB_creates_store no_database eq_refl eq_refl) as [Hp Hw].
  rewrite Hp, Hw. reflexivity.
Defined.

(** ** Activation *)

Lemma purge_lookup (l : list string)
    (cs : gmap string (gmap (string * string) (Request * Response))) (name : string) :
  fold_left (fun cs name => if negb (String.eqb name CACHE_NAME) then delete name cs else cs)
            l cs !! name
  = if decide (name <> CACHE_NAME /\ name ∈ l) then None else cs !! name.
Proof.
  revert cs. induction l as [|x l IH]; intros cs; simpl.
  - destruct (decide _) as [[_ H]|_]; [inversion H|reflexivity].
  - rewrite IH. destruct (String.eqb_spec x CACHE_NAME) as [Ex|Ex]; simpl.
    + destruct (decide (name <> CACHE_NAME /\ name ∈ l)) as [[Hn Hin]|Hno].
      * rewrite decide_True; [reflexivity|]. split; [exact Hn|right; exact Hin].
      * rewrite decide_False; [reflexivity|]. intros [Hn Hin].
        apply elem_of_cons in Hin as [->|Hin]; [contradiction|]. apply Hno. auto.
    + destruct (decide (name <> CACHE_NAME /\ name ∈ l)) as [[Hn Hin]|Hno].
      * rewrite decide_True; [reflexivity|]. split; [exact Hn|right; exact Hin].
      * destruct (decide (name = x)) as [->|Hx].
        -- rewrite lookup_delete_eq. rewrite decide_True; [reflexivity|].
           split; [exact Ex|left].
        -- rewrite lookup_delete_ne by congruence.
           rewrite decide_False; [reflexivity|]. intros [Hn Hin].
           apply elem_of_cons in Hin as [->|Hin]; [contradiction|]. apply Hno. auto.
Qed.

(** X18: when the service worker is activated it deletes every cache of
    the origin whose name is not [smart-cache-v1], keeps the cache
    [smart-cache-v1] with all its entries if there is one (it creates
    none), and claims the open pages; activating again changes
    nothing.  Installed and then activated, the worker does not wait
    for the pages of an older worker to close, and the installation
    leaves the caches alone. *)
Theorem activate_keeps_own_cache_only (s : WorkerScope) :
  (forall name, caches (onactivate s) !! name
                = if decide (name = CACHE_NAME) then caches s !! name else None) /\
  claimed (onactivate s) = true /\
  waiting (onactivate s) = waiting s /\
  caches (onactivate (onactivate s)) = caches (onactivate s) /\
  waiting (onactivate (oninstall s)) = false /\
  caches (onactivate (oninstall s)) = caches (onactivate s).
Proof.
  assert (H : forall s name, caches (onactivate s) !! name
                = if decide (name = CACHE_NAME) then caches s !! name else None).
  { intros s0 name. unfold onactivate. cbn [caches]. rewrite purge_lookup.
    destruct (decide (name = CACHE_NAME)) as [->|Hn].
    - rewrite decide_False; [reflexivity|]. intros [Hc _]. contradiction.
    - destruct (decide _) as [_|Hno]; [reflexivity|].
      destruct (caches s0 !! name) as [c|] eqn:Hc; [|reflexivity].
      exfalso. apply Hno. split; [exact Hn|].
      apply list_elem_of_fmap. exists (name, c). split; [reflexivity|].
      apply elem_of_map_to_list. exact Hc. }
  split; [apply H|]. split; [reflexivity|]. split; [reflexivity|].
  split; [|split; reflexivity].
  apply map_eq. intros name. rewrite !H.
  destruct (decide (name = CACHE_NAME)); reflexivity.
Qed.

(** ** Notifications switched off *)

Lemma exec_page_off {X} (op : Op X) (w : World) :
  SHOW_NOTIFICATIONS (page w) = false -> page (snd (exec op w)) = page w.
Proof.
  intros Hoff. destruct op; simpl; try reflexivity.
  - destruct (saveRequest requestData (idb w)); reflexivity.
  - destruct (getAllRequests (idb w)); reflexivity.
  - destruct (deleteRequest key (idb w)); reflexivity.
  - destruct (updateRequestRetryCount key retry (idb w)); reflexivity.
  - destruct (cache_put_rejects request response); reflexivity.
  - unfold notifyUser. rewrite Hoff. reflexivity.
Qed.

(** X19: with [showNotifications] set to false the page shows nothing,
    ever: no handler and no pass, whatever it calls, changes the toast
    queue, the container or the timers, and a page without pending
    timers stays exactly as it is under every sequence of published
    toasts, elapsed time and timer events. *)
Theorem notifications_off_page_untouched (w : World) :
  SHOW_NOTIFICATIONS (page w) = false ->
  (forall (A : Type) (p : Prog A), page (snd (run p w)) = page w) /\
  (timers (page w) = [] ->
   forall (t : Z) (l : list UiInput), snd (ui_run (t, page w) l) = page w).
Proof.
  intros Hoff. split.
  - intros A p. revert w Hoff. induction p as [a|X op k IH]; intros w Hoff; [reflexivity|].
    simpl. pose proof (exec_page_off op w Hoff) as Hp.
    destruct (exec op w) as [x w']. simpl in Hp. rewrite IH; [exact Hp|].
    rewrite Hp. exact Hoff.
  - intros Ht t l. revert t. induction l as [|i l IH]; intros t; [reflexivity|].
    unfold ui_run in *. simpl.
    destruct i as [msg ty|dt|]; simpl.
    + unfold notifyUser. rewrite Hoff. simpl. apply IH.
    + apply IH.
    + unfold fire_timer. rewrite Ht. simpl. apply IH.
Qed.

Lemma notifications_off_page_untouched_witness :
  let w := set_page (world_queued (answers 200) [order_a]) (fresh_page false) in
  SHOW_NOTIFICATIONS (page w) = false /\
  page (snd (run SmartCache.syncOfflineRequests w)) = fresh_page false.
Proof.
  intros w. split; [reflexivity|].
  exact (proj1 (notifications_off_page_untouched w eq_refl) _ SmartCache.syncOfflineRequests).
Defined.

(** ** The toast on screen *)

Lemma ui_step_look (s : Z * Page) (i : UiInput) : ui_look s -> ui_look (ui_step s i).
Proof.
  intros H.
  destruct H as [now c nb d Hc | now q box tm nb d0 ts toast Htxt Hbg Hts Htm].
  - destruct i as [msg ty | dt |]; simpl.
    + unfold notifyUser, showNextMessage; simpl.
      replace (default [] c) with (@nil Box) by (destruct Hc; subst; reflexivity).
      simpl.
      apply (look_showing now [] {| box_id := nb; textContent := msg;
                                    background := box_background ty; opacity := "1" |}
               _ (S nb) d now {| message := msg; type := ty |}); simpl; try lia; auto.
    + constructor; auto.
    + unfold fire_timer; simpl. constructor; auto.
  - destruct i as [msg ty | dt |]; simpl.
    + unfold notifyUser; simpl.
      apply (look_showing now (q ++ [{| message := msg; type := ty |}]) box tm nb d0 ts toast);
        auto.
    + apply (look_showing _ q box tm nb d0 ts toast); auto; try lia.
      destruct Htm as [H|[tf (H1 & H2 & H3 & H4)]]; [left; exact H|].
      right. exists tf. repeat split; auto; lia.
    + unfold fire_timer; simpl.
      destruct (Z.leb_spec (due tm) now) as [Hdue|Hdue].
      2:{ apply (look_showing _ q box tm nb d0 ts toast); auto. }
      destruct Htm as [[-> Ho]|[tf (H1 & H2 & -> & Ho)]]; simpl in *.
      * unfold set_opacity. rewrite Nat.eqb_refl.
        apply (look_showing _ q {| box_id := box_id box; textContent := textContent box;
                                   background := background box; opacity := "0" |}
                 _ nb d0 ts toast); simpl; auto.
        right. exists now. repeat split; auto; lia.
      * rewrite Nat.eqb_refl. simpl.
        unfold showNextMessage; simpl.
        destruct q as [|t' q']; simpl.
        -- constructor; auto.
        -- apply (look_showing now q' {| box_id := nb; textContent := message t';
                                         background := box_background (type t');
                                         opacity := "1" |}
                    _ (S nb) (d0 ++ [(ts, toast)]) now t'); simpl; auto; try lia.
Qed.

Lemma ui_run_look (l : list UiInput) (s : Z * Page) : ui_look s -> ui_look (ui_run s l).
Proof.
  revert s. induction l as [|i l IH]; intros s H; [exact H|].
  unfold ui_run in *. simpl. apply IH, ui_step_look, H.
Qed.

(** X20: whatever is published and whenever the timers fire, a box on
    the page's screen is the box of the toast displayed last: it
    carries that toast's message, its background is the colour of the
    toast's type (red for error, green for success, blue for any other
    type), and it is fully opaque until 3000 ms after its display, from
    when on it may be transparent; while it is on screen the queue
    counts as showing a message. *)
Theorem toast_on_screen_look (t0 : Z) (l : list UiInput) :
  let s := ui_run (t0, fresh_page true) l in
  (forall box, box ∈ on_screen (snd s) ->
     exists ts toast,
       last (displayed (snd s)) = Some (ts, toast) /\
       textContent box = message toast /\
       background box = (if String.eqb (type toast) "error" then "#f44336"
                         else if String.eqb (type toast) "success" then "#4caf50"
                         else "#2196f3") /\
       (opacity box = "1" \/ opacity box = "0") /\
       (fst s < ts + 3000 -> opacity box = "1") /\
       isShowingMessage (snd s) = true) /\
  (isShowingMessage (snd s) = true -> exists box, on_screen (snd s) = [box]).
Proof.
  intros s.
  assert (H : ui_look s).
  { subst s. apply ui_run_look. apply look_idle. left. reflexivity. }
  destruct H as [now c nb d Hc | now q box tm nb d0 ts toast Htxt Hbg Hts Htm];
    cbn [fst snd on_screen container displayed isShowingMessage].
  - split; [|discriminate]. intros box Hbox.
    destruct Hc as [-> | ->]; inversion Hbox.
  - split; [|eauto]. intros box' Hbox. simpl in Hbox.
    apply list_elem_of_singleton in Hbox. subst box'.
    exists ts, toast. rewrite last_snoc. split; [reflexivity|]. split; [exact Htxt|].
    split; [exact Hbg|].
    destruct Htm as [[_ Ho]|[tf (H1 & H2 & _ & Ho)]].
    + split; [left; exact Ho|]. split; [intros; exact Ho|reflexivity].
    + split; [right; exact Ho|]. split; [intros; lia|reflexivity].
Qed.

(** ** No request is lost *)

Section Outcome.

Variable one : Stored -> Prog (Res unit).
Variable call_of : RequestData -> Call.
Variable after : Stored -> World -> World.
Hypothesis local : entry_local one call_of after.
Hypothesis after_store : forall r w,
  idb (after r w) =
    match net w (netlog w) (call_of (data r)) with
    | Ok response => if ok response then db_without (id r) (idb w) else retried r (idb w)
    | Err _ => retried r (idb w)
    end.

(** What the loop leaves under the key of [r], by what the network
    answered when the loop came to [r]. *)
Lemma replayed_outcome (now : Z) (w : World) (l1 l2 : list Stored) (r : Stored) :
  up (idb w) = true -> sorted_rows (rows (idb w)) -> rows (idb w) = l1 ++ r :: l2 ->
  let w1 := replayed after now l1 w in
  store_get (id r) (rows (idb (replayed after now (rows (idb w)) w))) =
    if expired now (data r) then None
    else match net w1 (netlog w1) (call_of (data r)) with
         | Ok response =>
             if ok response then None
             else Some {| id := id r;
                          data := set_retryCount (data r) (or_zero (retryCount (data r)) + 1) |}
         | Err _ =>
             Some {| id := id r;
                     data := set_retryCount (data r) (or_zero (retryCount (data r)) + 1) |}
         end.
Proof.
  intros Hup Hs Hrows w1.
  destruct (replayed_reaches _ _ _ now w l1 l2 r local Hup Hs Hrows) as (Hup1 & _ & Hget1).
  fold w1 in Hup1, Hget1.
  assert (Hne2 : Forall (fun x => id x <> id r) l2).
  { rewrite Hrows in Hs. apply (sorted_app_middle _ _ _ Hs). }
  assert (Hput : store_get (id r) (rows (retried r (idb w1)))
                 = Some {| id := id r;
                           data := set_retryCount (data r)
                                     (or_zero (retryCount (data r)) + 1) |}).
  { rewrite retried_present by assumption. cbn [rows set_rows].
    exact (store_get_put_eq
             {| id := id r;
                data := set_retryCount (data r) (or_zero (retryCount (data r)) + 1) |} _). }
  rewrite Hrows at 1. rewrite (replayed_app _ now l1 (r :: l2) w). fold w1. cbn [replayed].
  rewrite (replayed_get_ne _ _ _ local) by exact Hne2.
  destruct (expired now (data r)).
  - apply store_get_delete_eq.
  - rewrite after_store.
    destruct (net w1 (netlog w1) (call_of (data r))) as [response|e];
      [destruct (ok response)|]; try exact Hput.
    apply store_get_delete_eq.
Qed.

End Outcome.

Lemma sw_after_store (r : Stored) (w : World) :
  idb (sw_after r w) =
    match net w (netlog w) (sw_call (data r)) with
    | Ok response => if ok response then db_without (id r) (idb w) else retried r (idb w)
    | Err _ => retried r (idb w)
    end.
Proof.
  unfold sw_after. cbv zeta.
  destruct (net w (netlog w) (sw_call (data r))) as [response|e];
    [destruct (ok response)|]; reflexivity.
Qed.

Lemma page_after_store (r : Stored) (w : World) :
  idb (page_after r w) =
    match net w (netlog w) (page_call (data r)) with
    | Ok response => if ok response then db_without (id r) (idb w) else retried r (idb w)
    | Err _ => retried r (idb w)
    end.
Proof.
  unfold page_after. cbv zeta.
  destruct (net w (netlog w) (page_call (data r))) as [response|e];
    [destruct (ok response)|]; reflexivity.
Qed.

(** X21: a pass loses no request.  For every request in the store when
    a pass of the service worker or of the page starts, with the
    database open, what the pass leaves under the key of the request
    is decided by the request and by the answer the pass itself got
    when it replayed it: nothing, if the request had expired when the
    pass started (it is then not sent) or if the network answered the
    replay with a status from 200 to 299; otherwise, whether the
    network answered another status or the call failed, the request
    itself, unchanged but for a retry count one higher. *)
Theorem pass_loses_no_request (w : World) (l1 l2 : list Stored) (r : Stored) :
  up (idb w) = true -> sorted_rows (rows (idb w)) -> rows (idb w) = l1 ++ r :: l2 ->
  let now := clock w in
  let r1 := {| id := id r;
               data := set_retryCount (data r) (or_zero (retryCount (data r)) + 1) |} in
  (let w1 := snd (run (SW.syncStoredPosts_for now l1) w) in
   store_get (id r) (rows (idb (snd (run SW.syncOfflineRequests w)))) =
     if expired now (data r) then None
     else match net w1 (netlog w1) (sw_call (data r)) with
          | Ok response => if ok response then None else Some r1
          | Err _ => Some r1
          end) /\
  (let w1 := snd (run (SmartCache.syncOfflineRequests_for now l1) w) in
   store_get (id r) (rows (idb (snd (run SmartCache.syncOfflineRequests w)))) =
     if expired now (data r) then None
     else match net w1 (netlog w1) (page_call (data r)) with
          | Ok response => if ok response then None else Some r1
          | Err _ => Some r1
          end).
Proof.
  intros Hup Hs Hrows now r1. split.
  - intros w1.
    assert (Hw1 : w1 = replayed sw_after now l1 w).
    { subst w1. rewrite sw_loop_replay_for, (replay_for_run _ _ _ sw_replay_one_local)
        by exact Hup. reflexivity. }
    rewrite Hw1, sw_full_pass_idb, sw_pass_run by exact Hup. cbn [snd].
    exact (replayed_outcome _ _ _ sw_replay_one_local sw_after_store now w l1 l2 r
             Hup Hs Hrows).
  - intros w1.
    assert (Hw1 : w1 = replayed page_after now l1 w).
    { subst w1. rewrite page_loop_replay_for, (replay_for_run _ _ _ page_replay_one_local)
        by exact Hup. reflexivity. }
    rewrite Hw1, page_pass_run by exact Hup. cbn [snd].
    exact (replayed_outcome _ _ _ page_replay_one_local page_after_store now w l1 l2 r
             Hup Hs Hrows).
Qed.

Lemma pass_loses_no_request_witness :
  let w := world_queued (up_then_down (plain_response 200)) [order_a; order_b] in
  let r := {| id := 2; data := order_b |} in
  up (idb w) = true /\ sorted_rows (rows (idb w)) /\
  rows (idb w) = [{| id := 1; data := order_a |}] ++ r :: [] /\
  store_get 1 (rows (idb (snd (run SW.syncOfflineRequests w)))) = None /\
  store_get 2 (rows (idb (snd (run SW.syncOfflineRequests w))))
    = Some {| id := 2; data := set_retryCount order_b 1 |}.
Proof.
  intros w r.
  assert (Hs : sorted_rows (rows (idb w))).
  { apply (save_all_wf [order_a; order_b] empty_db wf_empty_db eq_refl). }
  split; [reflexivity|]. split; [exact Hs|]. split; [reflexivity|]. split.
  - exact (proj1 (pass_loses_no_request w [] [r] {| id := 1; data := order_a |}
                    eq_refl Hs eq_refl)).
  - exact (proj1 (pass_loses_no_request w [{| id := 1; data := order_a |}] [] r
                    eq_refl Hs eq_refl)).
Defined.

(** ** From the service worker to the screen *)

(** X22: a request of another method than GET and HEAD that fails
    while the page is idle is announced on screen.  The fetch handler
    saves it and posts OFFLINE_REQUEST_SAVED without touching the
    page; when that message reaches the page's listener, the page
    displays at once the toast
    [Saved <method> request to <url> for later sync.] of type info in
    a new opaque blue box, and the listener touches neither the store
    nor the network. *)
Theorem offline_save_announced (request : Request) (w : World) (e : JsError)
    (bodyText : string) :
  req_method request <> "GET" -> req_method request <> "HEAD" ->
  net w (netlog w) (FetchRequest request) = Err e ->
  req_text request = Ok bodyText -> up (idb w) = true -> wf_db (idb w) ->
  SHOW_NOTIFICATIONS (page w) = true -> isShowingMessage (page w) = false ->
  messageQueue (page w) = [] ->
  let w1 := snd (run (SW.onfetch request) w) in
  let m := OFFLINE_REQUEST_SAVED (req_url request) (req_method request) in
  let toast := {| message := "Saved " +:+ req_method request +:+ " request to "
                             +:+ req_url request +:+ " for later sync.";
                  type := "info" |} in
  outbox w1 = outbox w ++ [m] /\ page w1 = page w /\
  forall s, world s = w1 ->
    let s' := deliver s (ToPage (Some m)) in
    displayed (page (world s')) = displayed (page w) ++ [(clock w, toast)] /\
    (exists box, last (on_screen (page (world s'))) = Some box /\
                 textContent box = message toast /\
                 background box = "#2196f3" /\ opacity box = "1") /\
    isShowingMessage (page (world s')) = true /\
    idb (world s') = idb w1 /\ netlog (world s') = netlog w1 /\
    tasks s' = tasks s ++ [Handler (Ret (Ok tt))].
Proof.
  intros Hg Hh Hnet Htext Hup Hwf Hshow Hidle Hq w1 m toast.
  assert (E : w1 = set_outbox
                     (set_idb (set_netlog w (netlog w ++ [FetchRequest request]))
                        {| up := true;
                           rows := rows (idb w) ++
                                   [{| id := nextKey (idb w);
                                       data := SW.snapshot request bodyText (clock w) |}];
                           nextKey := nextKey (idb w) + 1 |})
                     (outbox w ++ [m])).
  { subst w1. unfold SW.onfetch. rewrite (is_read_false _ Hg Hh).
    simpl. rewrite Hnet. simpl. rewrite Htext. simpl.
    rewrite (saveRequest_appends _ (idb w) Hwf Hup). reflexivity. }
  clearbody w1. subst w1. split; [reflexivity|]. split; [reflexivity|].
  intros [w0 ts] Hs. simpl in Hs. subst w0.
  cbn [deliver SmartCache.onmessage m]. unfold spawn, start_task. simpl.
  unfold notifyUser. simpl. rewrite Hshow, Hidle, Hq. simpl.
  unfold showNextMessage. simpl.
  split; [reflexivity|]. split.
  - eexists. unfold on_screen. cbn. rewrite last_snoc. split; [reflexivity|]. simpl. auto.
  - auto.
Qed.

Lemma offline_save_announced_witness :
  let w := world0 offline empty_db in
  req_method post_orders <> "GET" /\ req_method post_orders <> "HEAD" /\
  net w (netlog w) (FetchRequest post_orders) = Err {| err_message := "Failed to fetch" |} /\
  req_text post_orders = Ok "{}" /\ up (idb w) = true /\ wf_db (idb w) /\
  SHOW_NOTIFICATIONS (page w) = true /\ isShowingMessage (page w) = false /\
  messageQueue (page w) = [] /\
  outbox (snd (run (SW.onfetch post_orders) w)) = [OFFLINE_REQUEST_SAVED "/orders" "POST"].
Proof.
  intros w.
  assert (Hg : req_method post_orders <> "GET") by discriminate.
  assert (Hh : req_method post_orders <> "HEAD") by discriminate.
  split; [exact Hg|]. split; [exact Hh|]. split; [reflexivity|]. split; [reflexivity|].
  split; [reflexivity|]. split; [exact wf_empty_db|]. split; [reflexivity|].
  split; [reflexivity|]. split; [reflexivity|].
  exact (proj1 (offline_save_announced post_orders w {| err_message := "Failed to fetch" |} "{}"
                  Hg Hh eq_refl eq_refl eq_refl wf_empty_db eq_refl eq_refl eq_refl)).
Defined.

(** ** The promise given to [respondWith] *)

Lemma fulfils_bind {A B} (p : Prog A) (f : A -> Prog (Res B)) :
  (forall a, fulfils (f a)) -> fulfils (bind p f).
Proof.
  intros Hf. induction p as [a|X op k IH]; simpl; [apply Hf|]. intros x. apply IH.
Qed.

Lemma onfetch_fulfils (request : Request) : fulfils (SW.onfetch request).
Proof.
  unfold SW.onfetch, SW.cachePut, SW.cacheMatch, SW.sendMessageToClients, SW.cloneRequestBody.
  destruct (String.eqb (req_method request) "GET" || String.eqb (req_method request) "HEAD").
  - simpl. intros [response|e]; simpl; [auto|]. intros [c|]; simpl; auto.
  - simpl. intros [response|e]; simpl; [auto|].
    intros [b|e']; simpl; [|auto]. intros now [[]|e'']; simpl; auto.
Qed.

Lemma onfetch_awaits (request : Request) : awaits_within 3 (SW.onfetch request).
Proof.
  unfold SW.onfetch, SW.cachePut, SW.cacheMatch, SW.sendMessageToClients, SW.cloneRequestBody.
  destruct (String.eqb (req_method request) "GET" || String.eqb (req_method request) "HEAD").
  - simpl. intros [response|e]; simpl; [auto|]. intros [c|]; simpl; auto.
  - simpl. intros [response|e]; simpl; [auto|].
    intros [b|e']; simpl; [|auto]. intros now [[]|e'']; simpl; auto.
Qed.

Lemma run_sync_fulfils {A} (p : Prog (Res A)) (w : World) :
  fulfils p -> fulfils (fst (run_sync p w)).
Proof.
  revert w. induction p as [[a|e]|X op k IH]; intros w Hp; simpl; [exact Hp..|].
  destruct (is_sync op); [|exact Hp].
  destruct (exec op w) as [x w']. apply IH, Hp.
Qed.

Lemma run_sync_awaits {A} (n : nat) (p : Prog A) (w : World) :
  awaits_within n p -> awaits_within n (fst (run_sync p w)) /\ at_await (fst (run_sync p w)).
Proof.
  revert w. induction p as [a|X op k IH]; intros w Hp; simpl; [auto|].
  simpl in Hp. destruct (is_sync op) eqn:Hop.
  - destruct (exec op w) as [x w']. apply IH, Hp.
  - simpl. rewrite Hop. auto.
Qed.

Lemma resume_fulfils {A} (p : Prog (Res A)) (w : World) :
  fulfils p -> fulfils (fst (resume p w)).
Proof.
  destruct p as [r|X op k]; intros Hp; simpl; [exact Hp|].
  destruct (exec op w) as [x w']. apply run_sync_fulfils, Hp.
Qed.

Lemma resume_awaits {A} (n : nat) (p : Prog A) (w : World) :
  at_await p -> awaits_within n p ->
  awaits_within (Nat.pred n) (fst (resume p w)) /\ at_await (fst (resume p w)).
Proof.
  destruct p as [r|X op k]; intros Hat Hp; simpl; [auto|].
  simpl in Hat, Hp. rewrite Hat in Hp.
  destruct n as [|n']; [contradiction|].
  destruct (exec op w) as [x w']. apply run_sync_awaits, Hp.
Qed.

Lemma spawn_tasks (t : Task) (s : Sys) :
  exists t', tasks (spawn t s) = tasks s ++ [t'].
Proof.
  unfold spawn. destruct (start_task t (world s)) as [t' w']. exists t'. reflexivity.
Qed.

(** The task at [i] and the awaits it has left, along a schedule. *)
Lemma responding_progress (i : nat) (l : list Input) (s : Sys) (n : nat) (p : Prog (Res Response)) :
  tasks s !! i = Some (Responding p) -> fulfils p -> at_await p -> awaits_within n p ->
  exists p', tasks (deliver_all s l) !! i = Some (Responding p') /\ fulfils p' /\
             at_await p' /\ awaits_within (n - settles_of i l) p'.
Proof.
  revert s n p. induction l as [|x l IH]; intros s n p Hi Hf Hat Hn.
  - exists p. unfold settles_of. simpl. rewrite Nat.sub_0_r. auto.
  - rewrite deliver_all_cons.
    assert (Hspawn : forall t, tasks (spawn t s) !! i = Some (Responding p)).
    { intros t. destruct (spawn_tasks t s) as [t' ->].
      rewrite lookup_app_l; [exact Hi|]. eapply lookup_lt_Some. exact Hi. }
    assert (Hsame : tasks (deliver s x) !! i = Some (Responding p) ->
                    settles_of i (x :: l) = settles_of i l ->
                    exists p', tasks (deliver_all (deliver s x) l) !! i = Some (Responding p') /\
                      fulfils p' /\ at_await p' /\
                      awaits_within (n - settles_of i (x :: l)) p').
    { intros H1 H2. rewrite H2. exact (IH _ n p H1 Hf Hat Hn). }
    destruct x as [request|data|data|c|j|dt| |d].
    + apply Hsame; [apply Hspawn|reflexivity].
    + apply Hsame; [|reflexivity]. cbn [deliver].
      destruct (SW.onmessage data); [apply Hspawn|exact Hi].
    + apply Hsame; [|reflexivity]. cbn [deliver].
      destruct (SmartCache.onmessage data); [apply Hspawn|exact Hi].
    + apply Hsame; [|reflexivity]. cbn [deliver].
      destruct c; [|exact Hi].
      destruct (SW.onmessage (Some SYNC_OFFLINE_REQUESTS)); [apply Hspawn|exact Hi].
    + destruct (Nat.eqb_spec j i) as [->|Hj].
      * assert (Hc : settles_of i (Settle i :: l) = S (settles_of i l)).
        { unfold settles_of. simpl. rewrite Nat.eqb_refl. reflexivity. }
        rewrite Hc.
        destruct (resume_awaits n p (world s) Hat Hn) as [Hn' Hat'].
        pose proof (resume_fulfils p (world s) Hf) as Hf'.
        assert (Hi' : tasks (deliver s (Settle i)) !! i
                      = Some (Responding (fst (resume p (world s))))).
        { cbn [deliver]. rewrite Hi. unfold resume_task.
          destruct (resume p (world s)) as [p' w']. cbn [tasks fst].
          apply list_lookup_insert_eq. eapply lookup_lt_Some. exact Hi. }
        destruct (IH _ _ _ Hi' Hf' Hat' Hn') as (p' & H1 & H2 & H3 & H4).
        exists p'. split; [exact H1|]. split; [exact H2|]. split; [exact H3|].
        replace (n - S (settles_of i l))%nat with (Nat.pred n - settles_of i l)%nat by lia.
        exact H4.
      * apply Hsame.
        -- cbn [deliver]. destruct (tasks s !! j) as [t|]; [|exact Hi].
           destruct (resume_task t (world s)) as [t' w']. cbn [tasks].
           rewrite list_lookup_insert_ne by exact Hj. exact Hi.
        -- unfold settles_of. simpl. destruct (Nat.eqb_spec j i); [contradiction|reflexivity].
    + apply Hsame; [exact Hi|reflexivity].
    + apply Hsame; [exact Hi|reflexivity].
    + apply Hsame; [apply Hspawn|reflexivity].
Qed.

(** X23: the page always gets a response.  Whatever else the event
    loop runs in between (other fetch events, passes, messages,
    timers), the promise the fetch handler gave to [respondWith] is
    never rejected, and once what it awaits has settled three times
    (the network call, the reading of the body, the write to the
    store) it is fulfilled with a response. *)
Theorem respondWith_is_fulfilled (s : Sys) (request : Request) (l : list Input) :
  let i := List.length (tasks s) in
  let s' := deliver_all (deliver s (FetchEvent request)) l in
  (exists p, tasks s' !! i = Some (Responding p) /\ fulfils p) /\
  ((3 <= settles_of i l)%nat ->
   exists response, tasks s' !! i = Some (Responding (Ret (Ok response)))).
Proof.
  intros i s'.
  pose proof (run_sync_fulfils _ (world s) (onfetch_fulfils request)) as Hf.
  destruct (run_sync_awaits 3 _ (world s) (onfetch_awaits request)) as [Hn Hat].
  assert (Hi : tasks (deliver s (FetchEvent request)) !! i
               = Some (Responding (fst (run_sync (SW.onfetch request) (world s))))).
  { cbn [deliver]. unfold spawn, start_task.
    destruct (run_sync (SW.onfetch request) (world s)) as [p' w']. cbn [tasks fst].
    apply list_lookup_middle. reflexivity. }
  destruct (responding_progress i l _ 3 _ Hi Hf Hat Hn) as (p' & H1 & H2 & H3 & H4).
  fold s' in H1. split; [eauto|]. intros Hc.
  replace (3 - settles_of i l)%nat with 0%nat in H4 by lia.
  destruct p' as [[response|e]|X op k]; simpl in *.
  - eauto.
  - contradiction.
  - rewrite H3 in H4. contradiction.
Qed.

Lemma respondWith_is_fulfilled_witness :
  let s := {| world := world0 offline empty_db; tasks := [] |} in
  (3 <= settles_of 0 [Settle 0; Online true; Settle 0; Settle 1; Settle 0])%nat /\
  exists response,
    tasks (deliver_all (deliver s (FetchEvent post_orders))
                       [Settle 0; Online true; Settle 0; Settle 1; Settle 0]) !! 0%nat
    = Some (Responding (Ret (Ok response))).
Proof.
  intros s.
  assert (H : (3 <= settles_of 0 [Settle 0; Online true; Settle 0; Settle 1; Settle 0])%nat)
    by (vm_compute; lia).
  split; [exact H|].
  exact (proj2 (respondWith_is_fulfilled s post_orders
                  [Settle 0; Online true; Settle 0; Settle 1; Settle 0]) H).
Defined.

(** ** The two passes side by side *)

Lemma after_same_backend (r : Stored) (a b : World) :
  page_call (data r) = sw_call (data r) -> same_backend a b ->
  same_backend (sw_after r a) (page_after r b).
Proof.
  intros Hcall (Hn & Hc & Hd & Hca & Hl). unfold sw_after, page_after. cbv zeta.
  rewrite Hcall, Hn, Hl, Hd.
  destruct (net b (netlog b) (sw_call (data r))) as [response|e];
    [destruct (ok response)|]; repeat split; simpl; assumption.
Qed.

Lemma replayed_same_backend (now : Z) (l : list Stored) (a b : World) :
  Forall (fun r => page_call (data r) = sw_call (data r)) l -> same_backend a b ->
  same_backend (replayed sw_after now l a) (replayed page_after now l b).
Proof.
  intros Hl. revert a b. induction Hl as [|r l Hr Hl IH]; intros a b Hab; [exact Hab|].
  simpl. apply IH. destruct (expired now (data r)).
  - destruct Hab as (Hn & Hc & Hd & Hca & Hlog). unfold without.
    repeat split; simpl; try assumption. rewrite Hd. reflexivity.
  - apply after_same_backend; assumption.
Qed.

Lemma page_replayed_outbox (now : Z) (l : list Stored) (w : World) :
  outbox (replayed page_after now l w) = outbox w.
Proof.
  revert w. induction l as [|r l IH]; intros w; [reflexivity|]. simpl. rewrite IH.
  destruct (expired now (data r)); [reflexivity|].
  unfold page_after. cbv zeta.
  destruct (net w (netlog w) (page_call (data r))) as [response|e];
    [destruct (ok response)|]; reflexivity.
Qed.

(** X24: the pass of the service worker and the pass of the page are
    the same replay.  On a queue whose requests lead both passes to
    the same [fetch] call (as the requests saved by the fetch handler
    do), started in the same state the two passes send the same calls
    in the same order and leave the same store and the same cache;
    they differ only in how they report: the service worker posts
    messages and leaves the page alone, the page publishes toasts and
    posts nothing. *)
Theorem passes_replay_alike (w : World) :
  up (idb w) = true ->
  Forall (fun r => page_call (data r) = sw_call (data r)) (rows (idb w)) ->
  let a := snd (run SW.syncStoredPosts w) in
  let b := snd (run SmartCache.syncOfflineRequests w) in
  idb a = idb b /\ netlog a = netlog b /\ cache a = cache b /\
  page a = page w /\ outbox b = outbox w.
Proof.
  intros Hup Hcalls a b. subst a b.
  rewrite sw_pass_run, page_pass_run by exact Hup. cbn [snd].
  assert (Hsame : same_backend w w) by (repeat split).
  destruct (replayed_same_backend (clock w) (rows (idb w)) w w Hcalls Hsame)
    as (_ & _ & Hd & Hca & Hl).
  split; [exact Hd|]. split; [exact Hl|]. split; [exact Hca|].
  split; [apply sw_replayed_page|].
  apply page_replayed_outbox.
Qed.

Lemma passes_replay_alike_witness :
  let w := world_queued (answers 500) [order_a; order_b] in
  up (idb w) = true /\
  Forall (fun r => page_call (data r) = sw_call (data r)) (rows (idb w)) /\
  idb (snd (run SW.syncStoredPosts w)) = idb (snd (run SmartCache.syncOfflineRequests w)).
Proof.
  intros w.
  assert (H : Forall (fun r => page_call (data r) = sw_call (data r)) (rows (idb w)))
    by (repeat constructor).
  split; [reflexivity|]. split; [exact H|].
  exact (proj1 (passes_replay_alike w eq_refl H)).
Defined.
